(** * AgentFlow: the backend (server.js) and the browser agent (agent.js)

  A shallow embedding of the parts of the two JavaScript files that
  the specification talks about, followed by the properties proved
  about them.

  Conventions of the embedding.
  - A JavaScript string is a [string]; one [ascii] stands for one
    UTF-16 code unit from U+0000 to U+00FF, and the functions of
    [Js] do on these strings what the methods of the same names do.
    The strings of a request, of an answer of a remote service and
    of the page are taken from that range.  A code unit above U+00FF
    in a literal of the source is written as the substitute
    character [Js.wide], one character for one code unit.
  - A value that may be [null], [undefined] or of the wrong type is
    an [option]; [None] is used where the source would throw as soon
    as it calls a string method on the value.  Where the handler
    does something else on a value of the wrong type than on a
    missing one, the value has a type of its own ([Server.Field],
    [Server.Messages]).
  - [encodeURIComponent] throws on a string with an unpaired
    surrogate.  The strings here have none, so the function is
    total, and where the exception changes what a handler answers
    the world of the request tells whether it is thrown
    ([Server.Encoding]).
  - [Date.now()], [Math.random()], the network and the sandbox are
    inputs: every function that reads one of them takes the reading
    as an argument.
  - An exception is a result of its own ([None], or a dedicated
    constructor), never a missing case. *)

From Stdlib Require Import List String Ascii ZArith Lia Bool Arith DecimalString.
From Stdlib Require Import Permutation Sorted.

Set Warnings "-abstract-large-number".
Import ListNotations.
Open Scope string_scope.

(* ================================================================= *)
(** ** JavaScript primitives used by both files *)

Module Js.

Definition is_upper (c : ascii) : bool :=
  let n := nat_of_ascii c in (65 <=? n)%nat && (n <=? 90)%nat.

Definition is_lower (c : ascii) : bool :=
  let n := nat_of_ascii c in (97 <=? n)%nat && (n <=? 122)%nat.

(** The capital and the small letters of the Latin-1 block: U+00C0
    to U+00DE without the multiplication sign, U+00E0 to U+00FE
    without the division sign. *)
Definition is_upper_latin (c : ascii) : bool :=
  let n := nat_of_ascii c in
  (192 <=? n)%nat && (n <=? 222)%nat && negb (n =? 215)%nat.

Definition is_lower_latin (c : ascii) : bool :=
  let n := nat_of_ascii c in
  (224 <=? n)%nat && (n <=? 254)%nat && negb (n =? 247)%nat.

(** The character written for a code unit above U+00FF. *)
Definition wide : ascii := ascii_of_nat 26.

Definition lower_char (c : ascii) : ascii :=
  if is_upper c || is_upper_latin c then ascii_of_nat (nat_of_ascii c + 32) else c.

(** The capital of one code unit: the sharp s becomes two letters,
    and the capitals of the micro sign and of the y with diaeresis
    lie above U+00FF. *)
Definition upper_units (c : ascii) : string :=
  let n := nat_of_ascii c in
  if is_lower c || is_lower_latin c
  then String (ascii_of_nat (n - 32)) EmptyString
  else if (n =? 223)%nat then String (ascii_of_nat 83) (String (ascii_of_nat 83) EmptyString)
  else if (n =? 181)%nat || (n =? 255)%nat then String wide EmptyString
  else String c EmptyString.

Fixpoint map_chars (f : ascii -> ascii) (s : string) : string :=
  match s with
  | EmptyString => EmptyString
  | String c s' => String (f c) (map_chars f s')
  end.

(** [s.toLowerCase()] *)
Definition toLowerCase : string -> string := map_chars lower_char.

(** [s.toUpperCase()] *)
Fixpoint toUpperCase (s : string) : string :=
  match s with
  | EmptyString => EmptyString
  | String c s' => upper_units c ++ toUpperCase s'
  end.

(** White space of [trim] and of the regular expression class [\s]:
    tab, line feed, vertical tab, form feed, carriage return, space,
    no-break space. *)
Definition is_space (c : ascii) : bool :=
  let n := nat_of_ascii c in
  ((9 <=? n)%nat && (n <=? 13)%nat) || (n =? 32)%nat || (n =? 160)%nat.

(** Line terminators, which [.] of a regular expression does not
    match. *)
Definition is_newline (c : ascii) : bool :=
  let n := nat_of_ascii c in (n =? 10)%nat || (n =? 13)%nat.

Fixpoint trimStart (s : string) : string :=
  match s with
  | String c s' => if is_space c then trimStart s' else s
  | EmptyString => EmptyString
  end.

Fixpoint trimEnd (s : string) : string :=
  match s with
  | EmptyString => EmptyString
  | String c s' =>
      match trimEnd s' with
      | EmptyString => if is_space c then EmptyString else String c EmptyString
      | r => String c r
      end
  end.

(** [s.trim()] *)
Definition trim (s : string) : string := trimEnd (trimStart s).

(** [s.substring(0, n)] *)
Definition take (n : nat) (s : string) : string := substring 0 n s.

(** [s.startsWith(p)] *)
Definition startsWith (s p : string) : bool := prefix p s.

(** [s.includes(sub)] *)
Fixpoint includes (s sub : string) : bool :=
  prefix sub s ||
  match s with
  | EmptyString => false
  | String _ s' => includes s' sub
  end.

(** A falsy string is the empty one. *)
Definition truthy (s : string) : bool := negb (s =? "").

(** [v || d] on a value that is a string or missing. *)
Definition or_default (v : option string) (d : string) : string :=
  match v with
  | Some s => if truthy s then s else d
  | None => d
  end.

(** [xs.slice(start, stop)] and [xs.slice(start)] ([stop = None]):
    negative indices count from the end, everything is clamped to
    the array. *)
Definition slice {A : Type} (start : Z) (stop : option Z) (xs : list A)
  : list A :=
  let len := Z.of_nat (List.length xs) in
  let norm i := if (i <? 0)%Z then Z.max (len + i) 0 else Z.min i len in
  let k := norm start in
  let e := match stop with Some e => norm e | None => len end in
  firstn (Z.to_nat (e - k)) (skipn (Z.to_nat k) xs).

(** [s.split(' ')] *)
Fixpoint split_on (sep : ascii) (s : string) : list string :=
  match s with
  | EmptyString => [EmptyString]
  | String c s' =>
      if Ascii.eqb c sep then EmptyString :: split_on sep s'
      else match split_on sep s' with
           | w :: ws => String c w :: ws
           | [] => [String c EmptyString]
           end
  end.

(** [xs.join(sep)] *)
Fixpoint join (sep : string) (xs : list string) : string :=
  match xs with
  | [] => EmptyString
  | [x] => x
  | x :: rest => x ++ sep ++ join sep rest
  end.

(** The text up to the first line terminator: what a greedy [(.+)]
    can cover from the start of [s]. *)
Fixpoint line_of (s : string) : string :=
  match s with
  | EmptyString => EmptyString
  | String c s' => if is_newline c then EmptyString else String c (line_of s')
  end.

(** [s.match(/lit (.+)/i)] for a lower-case literal [lit] (its last
    character is the blank before the group): the group of the
    leftmost match, [None] when there is no match.  A match at a
    position needs the literal there, whatever the case, and at
    least one character that is not a line terminator after it. *)
Fixpoint match_after (lit : string) (s : string) : option string :=
  let here :=
    if prefix lit (toLowerCase s)
    then match line_of (substring (String.length lit)
                                  (String.length s - String.length lit) s) with
         | EmptyString => None
         | g => Some g
         end
    else None in
  match here with
  | Some g => Some g
  | None => match s with
            | EmptyString => None
            | String _ s' => match_after lit s'
            end
  end.

(** [encodeURIComponent(s)]: letters, digits and [- _ . ! ~ * ' ( )]
    stay, every other code unit becomes the [%XX] bytes of its UTF-8
    encoding. *)
Definition hex_digit (n : nat) : ascii :=
  if (n <? 10)%nat then ascii_of_nat (48 + n) else ascii_of_nat (55 + n).

Definition percent (n : nat) : string :=
  String "%" (String (hex_digit (n / 16)) (String (hex_digit (n mod 16)) EmptyString)).

Definition is_digit (c : ascii) : bool :=
  let n := nat_of_ascii c in (48 <=? n)%nat && (n <=? 57)%nat.

Definition unreserved (c : ascii) : bool :=
  is_upper c || is_lower c || is_digit c ||
  existsb (Ascii.eqb c) ["-"; "_"; "."; "!"; "~"; "*"; "'"; "("; ")"]%char.

Definition encode_char (c : ascii) : string :=
  let n := nat_of_ascii c in
  if unreserved c then String c EmptyString
  else if (n <? 128)%nat then percent n
  else if (n <? 192)%nat then percent 194 ++ percent n
  else percent 195 ++ percent (n - 64).

Fixpoint encodeURIComponent (s : string) : string :=
  match s with
  | EmptyString => EmptyString
  | String c s' => encode_char c ++ encodeURIComponent s'
  end.

(** [s.replace(/\s+/g, '_')] *)
Fixpoint replace_spaces_from (in_run : bool) (s : string) : string :=
  match s with
  | EmptyString => EmptyString
  | String c s' =>
      if is_space c
      then if in_run then replace_spaces_from true s'
           else String "_" (replace_spaces_from true s')
      else String c (replace_spaces_from false s')
  end.

Definition replace_spaces : string -> string := replace_spaces_from false.

End Js.

(* ================================================================= *)
(** ** Search results and the search cache (shared shapes) *)

Record SearchResult := mkResult {
title : string;
link : string;
snippet : string;
displayLink : string
}.

(** The object both search paths build.  [cached] is [true] only where
  the source writes [cached: true]; an absent field is [false].  The
  [searchTime] number that only the Google branch adds is left out:
  nothing reads it. *)
Record SearchResponse := mkResponse {
sr_query : string;
results : list SearchResult;
source : string;
totalResults : Z;
sr_timestamp : string;
cached : bool;
note : option string
}.

(** [{ ...r, cached: true }] *)
Definition mark_cached (r : SearchResponse) : SearchResponse :=
mkResponse (sr_query r) (results r) (source r) (totalResults r)
           (sr_timestamp r) true (note r).

(** A value of the [Map]: [{ data, timestamp }]. *)
Record CacheEntry := mkEntry {
data : SearchResponse;
timestamp : Z
}.

(** A JavaScript [Map] from strings: the bindings in insertion order. *)
Module JsMap.

Definition t := list (string * CacheEntry).

Definition keys (m : t) : list string := map fst m.

Fixpoint get (k : string) (m : t) : option CacheEntry :=
  match m with
  | [] => None
  | (k', v) :: m' => if k =? k' then Some v else get k m'
  end.

(** [m.set(k, v)]: an existing key keeps its place. *)
Fixpoint set (k : string) (v : CacheEntry) (m : t) : t :=
  match m with
  | [] => [(k, v)]
  | (k', v') :: m' => if k =? k' then (k, v) :: m' else (k', v') :: set k v m'
  end.

Definition delete (k : string) (m : t) : t :=
  filter (fun kv => negb (k =? fst kv)) m.

Definition size (m : t) : Z := Z.of_nat (List.length m).

(** [Array.from(m.entries()).sort(([,a],[,b]) => a.timestamp - b.timestamp)]:
    the sort of an array is stable, so the result is the one of an
    insertion sort that moves an entry only past strictly newer
    ones. *)
Fixpoint insert_by_time (x : string * CacheEntry) (l : t) : t :=
  match l with
  | [] => [x]
  | y :: l' =>
      if (timestamp (snd x) <=? timestamp (snd y))%Z then x :: y :: l'
      else y :: insert_by_time x l'
  end.

Fixpoint sort_by_time (l : t) : t :=
  match l with
  | [] => []
  | x :: l' => insert_by_time x (sort_by_time l')
  end.

End JsMap.

(** The sweep of the cache, as [cleanCache] of server.js and
  [cleanSearchCache] of agent.js write it, for the two constants of
  either file. *)
Section CacheSweep.

Variable MAX_SIZE : Z.
Variable TTL : Z.

Definition expired (now : Z) (kv : string * CacheEntry) : bool :=
  (now - timestamp (snd kv) >? TTL)%Z.

(** The first loop: delete what is older than the TTL. *)
Definition drop_expired (now : Z) (m : JsMap.t) : JsMap.t :=
  filter (fun kv => negb (expired now kv)) m.

(** [entries.slice(0, entries.length - MAX)] of the sorted entries. *)
Definition toRemove (m : JsMap.t) : JsMap.t :=
  let entries := JsMap.sort_by_time m in
  Js.slice 0 (Some (Z.of_nat (List.length entries) - MAX_SIZE)%Z) entries.

Definition sweep (now : Z) (m : JsMap.t) : JsMap.t :=
  let m1 := drop_expired now m in
  if (JsMap.size m1 >? MAX_SIZE)%Z
  then fold_left (fun acc kv => JsMap.delete (fst kv) acc) (toRemove m1) m1
  else m1.

(** The cache lookup of a search: the entry is served only while
    [Date.now() - cached.timestamp < TTL]. *)
Definition fresh (now : Z) (e : CacheEntry) : bool :=
  (now - timestamp e <? TTL)%Z.

Definition lookup (now : Z) (k : string) (m : JsMap.t) : option SearchResponse :=
  match JsMap.get k m with
  | Some e => if fresh now e then Some (mark_cached (data e)) else None
  | None => None
  end.

End CacheSweep.

(* ================================================================= *)
(** ** Tool calls and chat messages (shared shapes) *)

(** The object a tool call's [arguments] text stands for, with the
    fields the three tools read. *)
Record ParsedArgs := mkArgs {
  a_query : option string;
  a_num_results : option Z;
  a_workflow : option string;
  a_data : option string;
  a_code : option string
}.

(** The [arguments] of a tool call is JSON text.  The text is kept as
    what [JSON.parse] makes of it: a value with the fields read from
    it (a field that is not there is [None]), or a [SyntaxError] for
    text that is not JSON.  [JSON.stringify] of an object is
    [ArgsObject] of that object. *)
Inductive Arguments :=
| ArgsObject (p : ParsedArgs)
| ArgsInvalid (text : string).

(** [{ id, type: 'function', function: { name, arguments } }] *)
Record ToolCall := mkCall {
  tc_id : string;
  tc_name : string;
  tc_arguments : Arguments
}.

(** A double quote and a line feed, for the literals that contain
    one. *)
Definition dq : string := String (ascii_of_nat 34) EmptyString.
Definition nl : string := String (ascii_of_nat 10) EmptyString.

(* ================================================================= *)
(** ** server.js *)

Module Server.

Definition MAX_CACHE_SIZE : Z := 100.
Definition CACHE_TTL : Z := 5 * 60 * 1000.
Definition MAX_RESULTS : Z := 10.
Definition MAX_QUERY_LENGTH : nat := 200.

(** [cleanCache()] at the clock reading [now]. *)
Definition cleanCache (now : Z) (m : JsMap.t) : JsMap.t :=
  sweep MAX_CACHE_SIZE CACHE_TTL now m.

(** *** The knowledge base of [getKnowledgeBaseResults] *)

Definition knowledgeBase : list (string * list SearchResult) :=
[
  ("openai",
    [
      mkResult
        ("OpenAI - Artificial Intelligence Research")
        "https://openai.com"
        ("OpenAI is an AI research and deployment company dedicated to ensuring artificial general intelligence benefits all humanity.")
        "openai.com";
      mkResult
        ("OpenAI API Platform")
        "https://platform.openai.com"
        ("Build with OpenAI's powerful AI models including GPT-4, DALL" ++ String (ascii_of_nat 183) EmptyString ++ "E, and Whisper through their developer platform.")
        "platform.openai.com";
      mkResult
        ("ChatGPT by OpenAI")
        "https://chat.openai.com"
        ("ChatGPT is a conversational AI assistant that can help with writing, analysis, coding, math, and creative tasks.")
        "chat.openai.com"
    ]);
  ("ibm",
    [
      mkResult
        ("IBM - Leading Enterprise AI and Cloud Solutions")
        "https://www.ibm.com"
        ("IBM provides enterprise AI, cloud computing, and data solutions including Watson AI, Red Hat, and hybrid cloud technologies.")
        "www.ibm.com";
      mkResult
        ("IBM Watson AI Platform")
        "https://www.ibm.com/watson"
        ("IBM Watson delivers AI solutions for business with machine learning, natural language processing, and automated insights.")
        "www.ibm.com";
      mkResult
        ("IBM Cloud - Hybrid Multi-Cloud Platform")
        "https://www.ibm.com/cloud"
        ("Enterprise-grade cloud platform with AI services, Red Hat OpenShift, and industry-specific solutions for digital transformation.")
        "www.ibm.com"
    ]);
  ("google",
    [
      mkResult
        ("Google - Search, AI, and Cloud Technologies")
        "https://www.google.com"
        ("Google's mission is to organize the world's information and make it universally accessible through search, AI, and cloud services.")
        "www.google.com";
      mkResult
        ("Google Cloud Platform")
        "https://cloud.google.com"
        ("Google Cloud provides scalable cloud computing services with AI/ML capabilities, data analytics, and enterprise infrastructure.")
        "cloud.google.com";
      mkResult
        ("Google AI and Research")
        "https://ai.google"
        ("Google AI advances the state of artificial intelligence through research in machine learning, computer vision, and natural language processing.")
        "ai.google"
    ]);
  ("microsoft",
    [
      mkResult
        ("Microsoft - Cloud, Productivity and AI Solutions")
        "https://www.microsoft.com"
        ("Microsoft empowers organizations with cloud computing, productivity tools, AI services, and enterprise software solutions.")
        "www.microsoft.com";
      mkResult
        ("Microsoft Azure Cloud Platform")
        "https://azure.microsoft.com"
        ("Azure provides comprehensive cloud services including AI, machine learning, databases, and enterprise applications.")
        "azure.microsoft.com";
      mkResult
        ("Microsoft 365 Productivity Suite")
        "https://www.microsoft.com/microsoft-365"
        ("Microsoft 365 combines Office applications, cloud services, and AI-powered productivity tools for modern work.")
        "www.microsoft.com"
    ]);
  ("artificial intelligence",
    [
      mkResult
        ("What is Artificial Intelligence? - Comprehensive Guide")
        "https://www.ibm.com/topics/artificial-intelligence"
        ("Artificial intelligence enables computers and machines to mimic human problem-solving and decision-making capabilities through advanced algorithms.")
        "www.ibm.com";
      mkResult
        ("AI Research and News - MIT Technology Review")
        "https://www.technologyreview.com/topic/artificial-intelligence/"
        ("Latest breakthroughs in AI research, machine learning applications, and the impact of artificial intelligence on society and industry.")
        "www.technologyreview.com";
      mkResult
        ("Stanford AI Research Institute")
        "https://hai.stanford.edu"
        ("Stanford's Human-Centered AI Institute advances AI research, education, and policy to improve human welfare and society.")
        "hai.stanford.edu"
    ]);
  ("machine learning",
    [
      mkResult
        ("Machine Learning Course - Stanford University")
        "https://www.coursera.org/learn/machine-learning"
        ("Learn machine learning fundamentals from Andrew Ng covering algorithms, neural networks, and practical implementation techniques.")
        "www.coursera.org";
      mkResult
        ("Machine Learning Documentation - Google")
        "https://developers.google.com/machine-learning"
        ("Google's comprehensive machine learning guides, tutorials, and tools including TensorFlow and cloud ML services.")
        "developers.google.com";
      mkResult
        ("Scikit-learn Machine Learning Library")
        "https://scikit-learn.org"
        ("Open-source machine learning library for Python featuring classification, regression, clustering, and dimensionality reduction algorithms.")
        "scikit-learn.org"
    ]);
  ("python",
    [
      mkResult
        ("Python.org - Official Python Programming Language")
        "https://www.python.org"
        ("Python is a powerful, versatile programming language perfect for beginners and professionals in web development, data science, and AI.")
        "www.python.org";
      mkResult
        ("Python Tutorial - Official Documentation")
        "https://docs.python.org/3/tutorial/"
        ("Official Python tutorial covering language basics, data structures, modules, classes, and standard library functionality.")
        "docs.python.org";
      mkResult
        ("Real Python - Python Programming Tutorials")
        "https://realpython.com"
        ("In-depth Python tutorials, courses, and articles covering web development, data science, machine learning, and best practices.")
        "realpython.com"
    ]);
  ("javascript",
    [
      mkResult
        ("JavaScript - MDN Web Docs")
        "https://developer.mozilla.org/en-US/docs/Web/JavaScript"
        ("Comprehensive JavaScript documentation covering language fundamentals, APIs, and modern web development techniques.")
        "developer.mozilla.org";
      mkResult
        ("Node.js - JavaScript Runtime")
        "https://nodejs.org"
        ("Node.js enables server-side JavaScript development with a rich ecosystem of packages for building scalable applications.")
        "nodejs.org";
      mkResult
        ("JavaScript.info - Modern JavaScript Tutorial")
        "https://javascript.info"
        ("Modern JavaScript tutorial covering ES6+, async programming, DOM manipulation, and advanced programming concepts.")
        "javascript.info"
    ])
].

(** *** [generateContextualResults(query, numResults)] *)

Definition has (s sub : string) : bool := Js.includes s sub.

Definition generateContextualResults (query : string) (numResults : Z)
  : list SearchResult :=
  let queryLower := Js.toLowerCase query in
  let wikipedia :=
    [ mkResult
        (query ++ " - Wikipedia Encyclopedia")
        ("https://en.wikipedia.org/wiki/" ++
           Js.encodeURIComponent (Js.replace_spaces query))
        ("Wikipedia article about " ++ query ++
           ". Comprehensive encyclopedia entry with detailed information and reliable references.")
        "en.wikipedia.org" ] in
  let programming :=
    if has queryLower "code" || has queryLower "programming" || has queryLower "tutorial"
    then [ mkResult
             (query ++ " - Stack Overflow Programming Q&A")
             ("https://stackoverflow.com/search?q=" ++ Js.encodeURIComponent query)
             ("Programming questions, solutions, and code examples related to " ++
                query ++ " from the developer community.")
             "stackoverflow.com";
           mkResult
             (query ++ " - GitHub Code Repositories")
             ("https://github.com/search?q=" ++ Js.encodeURIComponent query)
             ("Open source code repositories and projects related to " ++ query ++
                ". Browse implementations and contribute to projects.")
             "github.com" ]
    else [] in
  let news :=
    if has queryLower "news" || has queryLower "latest" || has queryLower "recent"
    then [ mkResult
             ("Latest News: " ++ query ++ " - Google News")
             ("https://news.google.com/search?q=" ++ Js.encodeURIComponent query)
             ("Breaking news, recent developments, and current updates about " ++
                query ++ " from trusted news sources worldwide.")
             "news.google.com" ]
    else [] in
  let learning :=
    if has queryLower "learn" || has queryLower "course" || has queryLower "tutorial"
    then [ mkResult
             (query ++ " - Online Courses and Learning")
             ("https://www.coursera.org/search?query=" ++ Js.encodeURIComponent query)
             ("Online courses, tutorials, and educational content about " ++ query ++
                " from top universities and institutions.")
             "www.coursera.org" ]
    else [] in
  let video :=
    if has queryLower "video" || has queryLower "how to"
    then [ mkResult
             (query ++ " - YouTube Videos and Tutorials")
             ("https://www.youtube.com/results?search_query=" ++
                Js.encodeURIComponent query)
             ("Educational videos, tutorials, and demonstrations about " ++ query ++
                " from content creators and experts.")
             "www.youtube.com" ]
    else [] in
  let scholar :=
    [ mkResult
        (query ++ " - Google Scholar Academic Papers")
        ("https://scholar.google.com/scholar?q=" ++ Js.encodeURIComponent query)
        ("Scholarly articles, research papers, and academic studies about " ++
           query ++ " from universities and research institutions.")
        "scholar.google.com" ] in
  let general :=
    [ mkResult
        (query ++ " - Google Search Results")
        ("https://www.google.com/search?q=" ++ Js.encodeURIComponent query)
        ("Comprehensive search results for " ++ query ++
           " including websites, news, images, and related information.")
        "www.google.com" ] in
  Js.slice 0 (Some numResults)
    (wikipedia ++ programming ++ news ++ learning ++ video ++ scholar ++ general)%list.

(** *** [getKnowledgeBaseResults(query, numResults)]

    [iso] is the text of [new Date().toISOString()]. *)

Definition topic_matches (queryLower : string) (entry : string * list SearchResult)
  : bool :=
  Js.includes queryLower (fst entry) || Js.includes (fst entry) queryLower.

Definition getKnowledgeBaseResults (iso : string) (query : string) (numResults : Z)
  : SearchResponse :=
  let queryLower := Js.toLowerCase query in
  match find (topic_matches queryLower) knowledgeBase with
  | Some (_, found) =>
      mkResponse query (Js.slice 0 (Some numResults) found)
                 "Enhanced Knowledge Base"
                 (Z.of_nat (List.length found)) iso false None
  | None =>
      let contextualResults := generateContextualResults query numResults in
      mkResponse query contextualResults "Contextual Search Results"
                 (Z.of_nat (List.length contextualResults)) iso false None
  end.

(** *** Wikipedia

    What the summary endpoint answered: the fields of [response.data]
    that [tryWikipediaSearch] reads. *)
Record WikiPage := mkWiki {
  wp_title : option string;
  wp_extract : option string;
  wp_type : option string;
  wp_page : option string
}.

(** [tryWikipediaSearch(query)]; [reply = None] is a request that
    failed.  The function catches everything and answers [null]. *)
Definition tryWikipediaSearch (reply : option WikiPage) (query : string)
  : option SearchResult :=
  match reply with
  | None => None
  | Some d =>
      match wp_extract d with
      | Some extract =>
          let disambiguation :=
            match wp_type d with
            | Some t => Js.includes t "disambiguation"
            | None => false
            end in
          if Js.truthy extract && negb disambiguation
          then Some (mkResult
                       (Js.or_default (wp_title d) (query ++ " - Wikipedia"))
                       (Js.or_default (wp_page d)
                          ("https://en.wikipedia.org/wiki/" ++
                             Js.encodeURIComponent query))
                       (Js.take 300 extract)
                       "en.wikipedia.org")
          else None
      | None => None
      end
  end.

(** [performFallbackSearch(query, numResults)] *)
Definition performFallbackSearch (wiki : option WikiPage) (iso : string)
    (query : string) (numResults : Z) : SearchResponse :=
  match tryWikipediaSearch wiki query with
  | Some wikipediaResult =>
      let fallbackResults := getKnowledgeBaseResults iso query numResults in
      mkResponse (sr_query fallbackResults)
                 (Js.slice 0 (Some numResults)
                    (wikipediaResult :: results fallbackResults))
                 "Wikipedia + Knowledge Base"
                 (totalResults fallbackResults)
                 (sr_timestamp fallbackResults)
                 (cached fallbackResults)
                 (note fallbackResults)
  | None => getKnowledgeBaseResults iso query numResults
  end.

(** *** Google Custom Search

    One element of [response.data.items].  [gi_hostname] is what
    [new URL(link).hostname] gives for this item's link, [None] when
    the constructor throws. *)
Record GoogleItem := mkItem {
  gi_title : option string;
  gi_link : option string;
  gi_snippet : option string;
  gi_displayLink : option string;
  gi_hostname : option string
}.

(** The answer of the API: the items and what [parseInt] makes of
    [searchInformation.totalResults] ([None] for [NaN]). *)
Record GoogleReply := mkGoogle {
  items : list GoogleItem;
  g_totalResults : option Z
}.

(** [extractDomain(item.link || 'https://example.com')] *)
Definition extractDomain (item : GoogleItem) : string :=
  match gi_link item with
  | Some l =>
      if Js.truthy l
      then match gi_hostname item with Some h => h | None => "unknown" end
      else "example.com"
  | None => "example.com"
  end.

Definition google_result (item : GoogleItem) : SearchResult :=
  mkResult (Js.take 150 (Js.or_default (gi_title item) "No title"))
           (Js.or_default (gi_link item) "#")
           (Js.take 300 (Js.or_default (gi_snippet item) "No description available"))
           (Js.or_default (gi_displayLink item) (extractDomain item)).

(** [performGoogleSearch(apiKey, searchEngineId, query, numResults)];
    [None] is a thrown error: a key or engine id of the wrong shape, a
    request that failed ([reply = None]) or an answer without items. *)
Definition performGoogleSearch (reply : option GoogleReply) (iso : string)
    (apiKey searchEngineId query : string) (numResults : Z)
  : option SearchResponse :=
  if negb (Js.startsWith apiKey "AIza") || negb (String.length apiKey =? 39)%nat
  then None
  else if negb (Js.truthy searchEngineId) || (String.length searchEngineId <? 10)%nat
  then None
  else
    match reply with
    | None => None
    | Some r =>
        match items r with
        | [] => None
        | _ =>
            let found := map google_result (items r) in
            let total :=
              match g_totalResults r with
              | Some t => if (t =? 0)%Z then Z.of_nat (List.length found) else t
              | None => Z.of_nat (List.length found)
              end in
            Some (mkResponse query (Js.slice 0 (Some numResults) found)
                             "Google Custom Search API"
                             (Z.min total 1000000) iso false None)
        end
    end.

(** *** [POST /api/search] *)

(** The fields of [req.body] the handler reads.  [query] is [None]
    when it is missing or not a string; [num_results] is what
    [parseInt] makes of the field ([None] for [NaN], and for a missing
    field, where the default 5 applies). *)
Record SearchRequest := mkSearchRequest {
  query : option string;
  num_results : option Z;
  googleSearchKey : option string;
  searchEngineId : option string
}.

(** What [encodeURIComponent] does with the query of a request.  It
    throws on a string with an unpaired surrogate, which the strings
    here do not carry; since the handler's [catch] is entered on that
    exception alone, the world tells which of the three cases the
    request is: the query is encoded; the query as the handler cut it
    is refused (the cut fell between the two halves of a pair) while
    the query as it came is encoded; both are refused. *)
Inductive Encoding :=
| Encodes
| CutRefused
| BothRefused.

(** What the outside world gives during one request: the three
    readings of [Date.now()] (in [cleanCache], in the freshness test,
    when the result is stored), the text of the response's timestamp,
    the two remote services, and what [encodeURIComponent] does. *)
Record SearchWorld := mkSearchWorld {
  t_sweep : Z;
  t_lookup : Z;
  t_store : Z;
  iso_now : string;
  google : option GoogleReply;
  wikipedia : option WikiPage;
  uri : Encoding
}.

(** What becomes of a request: the rejection, an answer, or no
    response at all when the handler's [catch] throws in turn. *)
Inductive SearchBody :=
| SearchError (error : string)
| SearchOk (r : SearchResponse)
| SearchUnanswered.

(** The status and the body; the status of [SearchUnanswered] is 0. *)
Record SearchReply := mkSearchReply {
  search_status : Z;
  search_body : SearchBody
}.

(** [Math.min(Math.max(parseInt(num_results) || 5, 1), MAX_RESULTS)] *)
Definition clamp_num_results (n : option Z) : Z :=
  let asked := match n with
               | Some z => if (z =? 0)%Z then 5%Z else z
               | None => 5%Z
               end in
  Z.min (Z.max asked 1) MAX_RESULTS.

(** The decimal text of a number in a template literal. *)
Definition decimal (z : Z) : string :=
  NilEmpty.string_of_int (Z.to_int z).

Definition cacheKey (query : string) (n : Z) : string :=
  Js.toLowerCase query ++ "_" ++ decimal n.

(** [googleSearchKey && searchEngineId && googleSearchKey.length > 20] *)
Definition google_credentials (req : SearchRequest) : option (string * string) :=
  match googleSearchKey req, searchEngineId req with
  | Some k, Some e =>
      if Js.truthy k && Js.truthy e && (20 <? String.length k)%nat
      then Some (k, e) else None
  | _, _ => None
  end.

(** What a request that found nothing fresh in the cache keeps while
    it waits for Google and Wikipedia: the query as it came and as it
    was cut, the count, the key and the credentials. *)
Record Pending := mkPending {
  p_raw : string;
  p_query : string;
  p_count : Z;
  p_key : string;
  p_credentials : option (string * string)
}.

(** How far the handler gets before its first [await]: it has
    answered, or it waits. *)
Inductive Started :=
| Replied (reply : SearchReply)
| Awaiting (p : Pending).

(** The handler up to its first [await]: the validation, [cleanCache]
    and the lookup. *)
Definition search_start (req : SearchRequest) (w : SearchWorld) (cache : JsMap.t)
  : Started * JsMap.t :=
  match query req with
  | None => (Replied (mkSearchReply 400 (SearchError "Valid query is required")), cache)
  | Some raw =>
      if negb (Js.truthy raw)
      then (Replied (mkSearchReply 400 (SearchError "Valid query is required")), cache)
      else
        let query := Js.take MAX_QUERY_LENGTH (Js.trim raw) in
        let n := clamp_num_results (num_results req) in
        let key := cacheKey query n in
        let cache1 := cleanCache (t_sweep w) cache in
        match lookup CACHE_TTL (t_lookup w) key cache1 with
        | Some hit => (Replied (mkSearchReply 200 (SearchOk hit)), cache1)
        | None =>
            (Awaiting (mkPending raw query n key (google_credentials req)), cache1)
        end
  end.

(** [generateContextualResults] is reached, the one place where
    [encodeURIComponent] stands outside a [try] of its own: no topic
    of the knowledge base matches the query. *)
Definition reaches_generated (query : string) : bool :=
  match find (topic_matches (Js.toLowerCase query)) knowledgeBase with
  | Some _ => false
  | None => true
  end.

(** The object the handler's [catch] builds, from the query as it
    came. *)
Definition emergencyResults (iso : string) (raw : string) : SearchResponse :=
  mkResponse (Js.or_default (Some raw) "search")
             [ mkResult (Js.or_default (Some raw) "Search" ++ " - Wikipedia")
                        ("https://en.wikipedia.org/wiki/" ++
                           Js.encodeURIComponent (Js.or_default (Some raw) "search"))
                        ("Information about " ++ Js.or_default (Some raw) "your search" ++
                           " from Wikipedia.")
                        "en.wikipedia.org" ]
             "Emergency Fallback" 1 iso false
             (Some "Search service temporarily unavailable").

(** The handler from its first [await] on, on the cache as it is
    then: Google when the credentials are there, the fallback
    otherwise or when Google fails, and [searchCache.set] before the
    answer.  When [encodeURIComponent] refuses the query, the request
    to Google fails (the query cannot be written into the URL),
    [tryWikipediaSearch] catches the exception and answers [null],
    and [generateContextualResults], if it is reached, throws: the
    handler's [catch] answers with the emergency results and stores
    nothing, or throws in turn. *)
Definition search_settle (p : Pending) (w : SearchWorld) (cache : JsMap.t)
  : SearchReply * JsMap.t :=
  let googled :=
    match uri w, p_credentials p with
    | Encodes, Some (k, e) =>
        performGoogleSearch (google w) (iso_now w) k e (p_query p) (p_count p)
    | _, _ => None
    end in
  match googled with
  | Some googleResults =>
      (mkSearchReply 200 (SearchOk googleResults),
       JsMap.set (p_key p) (mkEntry googleResults (t_store w)) cache)
  | None =>
      match uri w with
      | Encodes =>
          let fallbackResults :=
            performFallbackSearch (wikipedia w) (iso_now w) (p_query p) (p_count p) in
          (mkSearchReply 200 (SearchOk fallbackResults),
           JsMap.set (p_key p) (mkEntry fallbackResults (t_store w)) cache)
      | refused =>
          if reaches_generated (p_query p)
          then
            match refused with
            | BothRefused => (mkSearchReply 0 SearchUnanswered, cache)
            | _ => (mkSearchReply 200 (SearchOk (emergencyResults (iso_now w) (p_raw p))),
                    cache)
            end
          else
            let fallbackResults :=
              performFallbackSearch None (iso_now w) (p_query p) (p_count p) in
            (mkSearchReply 200 (SearchOk fallbackResults),
             JsMap.set (p_key p) (mkEntry fallbackResults (t_store w)) cache)
      end
  end.

(** The handler when no other request is handled between its start
    and its end. *)
Definition search (req : SearchRequest) (w : SearchWorld) (cache : JsMap.t)
  : SearchReply * JsMap.t :=
  match search_start req w cache with
  | (Replied reply, cache1) => (reply, cache1)
  | (Awaiting p, cache1) => search_settle p w cache1
  end.

(** *** The mock responder of the server *)

(** A chat message of a request: [content] is [None] when the field is
    [null], missing or not a string. *)
Record Message := mkMessage {
  role : string;
  content : option string
}.

(** The assistant message of an answer; no tool calls is [[]]. *)
Record Assistant := mkAssistant {
  reply_content : string;
  reply_tool_calls : list ToolCall
}.

Definition search_patterns : list string :=
  ["search for "; "find "; "look up "; "google "; "about "].

Fixpoint first_match (patterns : list string) (input : string) : option string :=
  match patterns with
  | [] => None
  | p :: rest =>
      match Js.match_after p input with
      | Some g => Some g
      | None => first_match rest input
      end
  end.

Definition stop_words : list string :=
  ["search"; "find"; "look"; "google"; "about"].

(** [extractSearchTermFromInput(input)] *)
Definition extractSearchTermFromInput (input : string) : string :=
  match first_match search_patterns input with
  | Some g => Js.take 100 (Js.trim g)
  | None =>
      let words :=
        filter (fun word =>
                  (3 <? String.length word)%nat &&
                  negb (existsb (String.eqb (Js.toLowerCase word)) stop_words))
               (Js.split_on " " input) in
      Js.or_default (Some (Js.join " " (Js.slice 0 (Some 3%Z) words))) "information"
  end.

Definition demo_code : string :=
  "console.log('AgentFlow Demo - Code Execution'); const data = demoFunctions.generateRandomData(5); console.log('Random data:', data); const sum = data.reduce((a, b) => a + b, 0); console.log('Sum:', sum); return { data, sum, average: sum / data.length };".

(** ['call_demo_' + Date.now()] *)
Definition demo_id (now : Z) : string := "call_demo_" ++ decimal now.

(** [getMockResponse(provider, model, messages)] at the clock reading
    [now]; the answer is the message inside [choices[0]].  [None] is
    the [TypeError] of [lastMessage.content.toLowerCase()] on a last
    message without a string content.  A last element that is [null]
    counts as no last message. *)
Definition getMockResponse (now : Z) (provider model : string)
    (messages : list (option Message)) : option Assistant :=
  let lastMessage := match messages with [] => None | _ => last messages None end in
  let userInput :=
    match lastMessage with
    | None => Some ""
    | Some m =>
        match content m with
        | Some c => Some (Js.take 500 (Js.toLowerCase c))
        | None => None
        end
    end in
  match userInput with
  | None => None
  | Some userInput =>
      let content :=
        "Hello! I'm a " ++ Js.or_default (Some (Js.toUpperCase provider)) "DEMO" ++
        " " ++ Js.or_default (Some model) "model" ++ " response in demo mode. " in
      if has userInput "search" || has userInput "find" || has userInput "google"
      then
        let searchTerm :=
          Js.or_default (Some (extractSearchTermFromInput userInput)) "information" in
        Some (mkAssistant
                (content ++ "I'll search for " ++ dq ++ searchTerm ++ dq ++
                   " using the available search tools.")
                [mkCall (demo_id now) "google_search"
                   (ArgsObject (mkArgs (Some searchTerm) (Some 5%Z) None None None))])
      else if has userInput "code" || has userInput "javascript" || has userInput "python"
      then
        Some (mkAssistant
                (content ++ "I'll execute some code to help with that.")
                [mkCall (demo_id now) "execute_javascript"
                   (ArgsObject (mkArgs None None None None (Some demo_code)))])
      else if has userInput "analyze" || has userInput "summarize" || has userInput "workflow"
      then
        Some (mkAssistant
                (content ++ "I'll process that using an AI workflow.")
                [mkCall (demo_id now) "ai_pipe"
                   (ArgsObject (mkArgs None None (Some "summarize")
                                       (Some (Js.take 500 userInput)) None))])
      else
        Some (mkAssistant
                (Js.take 2000
                   (content ++
                    "I can help with web searches, code execution, and AI workflows. Add your API keys for full functionality!"))
                [])
  end.

(** *** [POST /api/llm] *)

(** A field of [req.body] where the handler expects a string:
    missing (or [null], [false], [0]), a string, or a truthy value of
    another type (a number, [true], an array, an object). *)
Inductive Field :=
| Missing
| Text (s : string)
| NotText.

(** The field [messages]: missing or falsy; an array, whose elements
    are message objects or [null]; or a truthy value that is not an
    array (a number, [true], an object, a string), on which
    [messages.slice] or [messages.map] throws.  Of such a value the
    handler reads [messages[messages.length - 1]] in its [catch]:
    [last] is that element when [messages.length > 0] holds and the
    element is truthy.  A string of more than 50 code units becomes an
    array of one-character strings under the limit and goes through
    the handler like an array of as many objects without [content];
    it is written as that array. *)
Inductive Messages :=
| NoMessages
| MessageArray (elements : list (option Message))
| NotArray (last : option Message).

(** The fields of [req.body] the handler reads.  [model] is the text
    a template literal gives for the field, the empty string when the
    field is missing or falsy; a truthy value is taken to have a text
    that is not empty. *)
Record LlmRequest := mkLlmRequest {
  provider : Field;
  model : string;
  messages : Messages;
  apiKey : Field
}.

(** The two readings of the clock that can enter a mock answer (in the
    handler's body, in its outer [catch]) and the outcome of the
    provider's HTTP call ([None]: it threw, whatever the cause). *)
Record LlmWorld := mkLlmWorld {
  now_body : Z;
  now_catch : Z;
  live : option Assistant
}.

Inductive LlmBody :=
| LlmError (error : string)
| LlmChoices (message : Assistant)
| LlmPlain (answer : Assistant).

(** What the handler does with the request: it sends a response, or an
    exception leaves it and nothing of the handler's is sent. *)
Inductive Outcome :=
| Sent (status : Z) (body : LlmBody)
| Uncaught.

(** [[...messages.slice(0, 2), ...messages.slice(-48)]] when there are
    more than 50 messages. *)
Definition limit_conversation {A : Type} (messages : list A) : list A :=
  if (50 <? List.length messages)%nat
  then (Js.slice 0 (Some 2%Z) messages ++ Js.slice (-48) None messages)%list
  else messages.

(** The [map] that cuts every string content to 8000 characters;
    [None] is the [TypeError] of reading [content] of a [null]
    element. *)
Fixpoint truncate_messages (messages : list (option Message))
  : option (list (option Message)) :=
  match messages with
  | [] => Some []
  | None :: _ => None
  | Some msg :: rest =>
      match truncate_messages rest with
      | None => None
      | Some rest' =>
          Some (Some (mkMessage (role msg)
                        (match content msg with
                         | Some c => Some (Js.take 8000 c)
                         | None => None
                         end)) :: rest')
      end
  end.

(** [!apiKey || apiKey.trim() === '' || apiKey === 'undefined' || apiKey === 'null']
    on a key that is a string. *)
Definition demo_mode (apiKey : string) : bool :=
  negb (Js.truthy apiKey) || (Js.trim apiKey =? "") || (apiKey =? "undefined")
  || (apiKey =? "null").

(** The shape test at the head of [callOpenAI], [callAnthropic],
    [callGemini] and [callAIPipe]; [None] for any other provider. *)
Definition key_accepted (provider apiKey : string) : option bool :=
  if provider =? "openai"
  then Some (Js.startsWith apiKey "sk-" && (40 <=? String.length apiKey)%nat)
  else if provider =? "anthropic"
  then Some (Js.startsWith apiKey "sk-ant-" && (40 <=? String.length apiKey)%nat)
  else if provider =? "google"
  then Some (30 <=? String.length apiKey)%nat
  else if provider =? "aipipe"
  then Some (10 <=? String.length apiKey)%nat
  else None.

(** What [getMockResponse] reads of the field [messages] as it came:
    the array, or the one element it finds in a value that is not an
    array. *)
Definition as_read (m : Messages) : list (option Message) :=
  match m with
  | NoMessages => []
  | MessageArray elements => elements
  | NotArray (Some found) => [Some found]
  | NotArray None => []
  end.

(** [getMockResponse] on the provider as it came:
    [provider?.toUpperCase()] is a [TypeError] on a truthy value that
    is not a string. *)
Definition mock (now : Z) (provider : Field) (model : string)
    (messages : list (option Message)) : option Assistant :=
  match provider with
  | Text p => getMockResponse now p model messages
  | Missing => getMockResponse now "" model messages
  | NotText => None
  end.

(** The outer [catch]: status 500 with a mock answer computed from the
    request as it came. *)
Definition outer_catch (req : LlmRequest) (w : LlmWorld) : Outcome :=
  match mock (now_catch w) (provider req) (model req) (as_read (messages req)) with
  | Some answer => Sent 500 (LlmChoices answer)
  | None => Uncaught
  end.

(** [res.json(getMockResponse(provider, model, messages))], from the
    demo branch or from the inner [catch]; an exception of the mock
    responder lands in the outer [catch]. *)
Definition send_mock (req : LlmRequest) (w : LlmWorld)
    (msgs : list (option Message)) : Outcome :=
  match mock (now_body w) (provider req) (model req) msgs with
  | Some answer => Sent 200 (LlmChoices answer)
  | None => outer_catch req w
  end.

(** The inner [try]: the [switch] on the provider and the call. *)
Definition call_provider (req : LlmRequest) (w : LlmWorld) (key : string)
    (msgs : list (option Message)) : Outcome :=
  match provider req with
  | Text p =>
      match key_accepted p key with
      | None => Sent 400 (LlmError "Unsupported provider")
      | Some false => send_mock req w msgs
      | Some true =>
          match live w with
          | Some response => Sent 200 (LlmPlain response)
          | None => send_mock req w msgs
          end
      end
  | _ => Sent 400 (LlmError "Unsupported provider")
  end.

Definition provided (f : Field) : bool :=
  match f with
  | Missing => false
  | Text s => Js.truthy s
  | NotText => true
  end.

Definition llm (req : LlmRequest) (w : LlmWorld) : Outcome :=
  if negb (provided (provider req)) || negb (Js.truthy (model req))
  then Sent 400 (LlmError "Missing required parameters")
  else
    match messages req with
    | NoMessages => Sent 400 (LlmError "Missing required parameters")
    | NotArray _ => outer_catch req w
    | MessageArray received =>
        match truncate_messages (limit_conversation received) with
        | None => outer_catch req w
        | Some msgs =>
            match apiKey req with
            | Missing => send_mock req w msgs
            | NotText => outer_catch req w
            | Text key =>
                if demo_mode key then send_mock req w msgs
                else call_provider req w key msgs
            end
        end
    end.

(** *** [POST /api/execute] *)

(** What [JSON.stringify] makes of the value the code returned, when
    [res.json] writes the body: the text of the value; nothing, for
    [undefined] or a function, whose field is left out of the body;
    or a [TypeError] with its message, for a value that cannot be
    written (a BigInt, an object that contains itself). *)
Inductive Written :=
| Json (text : string)
| LeftOut
| NotJson (message : string).

(** What [vm.run(code)] did: it returned a value, or it threw;
    [thrown_message] is the [message] of the thrown value, [None] when
    the value has no string [message] (a thrown string, number or
    [null]). *)
Inductive Run :=
| Returned (value : Written) (logs : list string) (errors : list string)
| Threw (thrown_message : option string).

Record ExecuteBody := mkExecuteBody {
  success : bool;
  result : option string;
  logs : list string;
  errors : list string;
  error : option string
}.

Inductive ExecuteOutcome :=
| ExecuteSent (status : Z) (body : ExecuteBody)
| ExecuteRejected (status : Z) (error_text : string)
| ExecuteUncaught.

(** [if (code.length > 10000) code = code.substring(0, 10000)] *)
Definition capped_code (c : string) : string :=
  if (10000 <? String.length c)%nat then Js.take 10000 c else c.

(** The body of the [catch], for an error with the message [m]. *)
Definition failure_body (m : string) : ExecuteBody :=
  mkExecuteBody false None [] [m] (Some (Js.take 1000 m)).

(** The handler; [code] is [None] when the field is missing or not a
    string, [run] tells what the sandbox does with the code the
    handler gives it.  [res.json] stands inside the [try]: when it
    cannot write the value the code returned, its [TypeError] lands
    in the [catch] like an error of the code.  In the [catch],
    [error.message.substring] on a thrown value without a string
    message throws in turn, and nothing is sent. *)
Definition execute (code : option string) (run : string -> Run) : ExecuteOutcome :=
  match code with
  | None => ExecuteRejected 400 "Code is required"
  | Some c =>
      if negb (Js.truthy c)
      then ExecuteRejected 400 "Code is required"
      else
        match run (capped_code c) with
        | Returned (Json r) l e =>
            ExecuteSent 200 (mkExecuteBody true (Some r) (Js.slice 0 (Some 50%Z) l) e None)
        | Returned LeftOut l e =>
            ExecuteSent 200 (mkExecuteBody true None (Js.slice 0 (Some 50%Z) l) e None)
        | Returned (NotJson m) _ _ => ExecuteSent 200 (failure_body m)
        | Threw (Some m) => ExecuteSent 200 (failure_body m)
        | Threw None => ExecuteUncaught
        end
  end.

(** *** [POST /api/ai-pipe] *)

(** The bullet of the multi-line answers, U+2022: one code unit. *)
Definition bullet : string := String Js.wide EmptyString.

Definition positive : list string :=
  ["good"; "great"; "excellent"; "amazing"; "love"; "best"; "awesome"; "wonderful"].

Definition negative : list string :=
  ["bad"; "terrible"; "awful"; "hate"; "worst"; "horrible"; "disappointing"].

(** [s.split(/\s+/)]; [in_run] tells that the character before was
    white space. *)
Fixpoint split_spaces_from (in_run : bool) (s : string) : list string :=
  match s with
  | EmptyString => [EmptyString]
  | String c s' =>
      if Js.is_space c
      then if in_run then split_spaces_from true s'
           else EmptyString :: split_spaces_from true s'
      else match split_spaces_from false s' with
           | w :: ws => String c w :: ws
           | [] => [String c EmptyString]
           end
  end.

Definition split_spaces : string -> list string := split_spaces_from false.

(** [[...new Set(xs)]]: the first occurrence of every element, in
    order. *)
Fixpoint distinct_from (seen xs : list string) : list string :=
  match xs with
  | [] => []
  | x :: rest =>
      if existsb (String.eqb x) seen then distinct_from seen rest
      else x :: distinct_from (x :: seen) rest
  end.

Definition distinct : list string -> list string := distinct_from [].

(** The keywords of the [extract_keywords] workflow. *)
Definition keywords (data : string) : list string :=
  let words := filter (fun word => (3 <? String.length word)%nat) (split_spaces data) in
  distinct (Js.slice 0 (Some 10%Z) words).

(** The label of the [sentiment] workflow. *)
Definition sentiment (dataLower : string) : string :=
  let positiveCount :=
    List.length (filter (fun word => Js.includes dataLower word) positive) in
  let negativeCount :=
    List.length (filter (fun word => Js.includes dataLower word) negative) in
  let sentiment := "Neutral" in
  let sentiment := if (negativeCount <? positiveCount)%nat then "Positive" else sentiment in
  let sentiment := if (positiveCount <? negativeCount)%nat then "Negative" else sentiment in
  sentiment.

(** [generateAIPipeResult(workflow, data)]; [draw] is the value of
    [Math.floor(Math.random() * 20)]. *)
Definition generateAIPipeResult (draw : nat) (workflow data : string) : string :=
  let dataLower := Js.toLowerCase data in
  let w := Js.toLowerCase workflow in
  if w =? "summarize" then
    if Js.includes dataLower "ibm"
    then "**IBM Summary:**" ++ nl ++
         bullet ++ " IBM is a leading enterprise technology company focused on AI, hybrid cloud, and quantum computing" ++ nl ++
         bullet ++ " Key offerings include Watson AI platform, Red Hat OpenShift, and comprehensive cloud services  " ++ nl ++
         bullet ++ " Strategic focus on helping enterprises modernize with AI-powered solutions and hybrid cloud architecture" ++ nl ++
         bullet ++ " Strong presence in consulting, software, and technology services for Fortune 500 companies"
    else "**Summary:** Key themes from the provided content include main topics, important concepts, and actionable insights. The content covers " ++
         Js.join " " (Js.slice 0 (Some 5%Z) (Js.split_on " " data)) ++
         "... and related information."
  else if w =? "analyze" then
    "**Analysis Results:**" ++ nl ++
    bullet ++ " Content length: " ++ decimal (Z.of_nat (String.length data)) ++ " characters" ++ nl ++
    bullet ++ " Key topics identified: " ++
      Js.join ", " (Js.slice 0 (Some 5%Z)
                      (filter (fun word => (5 <? String.length word)%nat)
                              (Js.split_on " " data))) ++ nl ++
    bullet ++ " Tone: Professional and informative" ++ nl ++
    bullet ++ " Recommended actions: Further research and implementation planning"
  else if w =? "translate" then
    "**Translation:** [Mock translation of the provided text would appear here. In a real implementation, this would use translation APIs or language models.]"
  else if w =? "extract_keywords" then
    "**Keywords:** " ++ Js.join ", " (keywords data)
  else if w =? "sentiment" then
    "**Sentiment Analysis:** " ++ sentiment dataLower ++ " (" ++
    decimal (Z.of_nat (draw mod 20 + 80)) ++ "% confidence)"
  else
    "**" ++ workflow ++ " Result:** Processed the provided content using " ++ workflow ++
    " workflow. Analysis complete with relevant insights and recommendations.".

(** The body of a 200 answer: [{ workflow, input, result, status, timestamp }]. *)
Record PipeBody := mkPipeBody {
  pipe_workflow : string;
  pipe_input : string;
  pipe_result : string;
  pipe_status : string;
  pipe_timestamp : string
}.

Inductive PipeOutcome :=
| PipeSent (status : Z) (body : PipeBody)
| PipeRejected (status : Z) (error_text : string).

(** The handler, for fields that are strings or missing ([None]). *)
Definition ai_pipe (draw : nat) (iso : string) (workflow data : option string)
  : PipeOutcome :=
  match workflow, data with
  | Some workflow, Some data =>
      if negb (Js.truthy workflow) || negb (Js.truthy data)
      then PipeRejected 400 "Workflow and data are required"
      else
        let limitedData := Js.take 5000 data in
        PipeSent 200 (mkPipeBody workflow limitedData
                        (generateAIPipeResult draw workflow limitedData)
                        "completed" iso)
  | _, _ => PipeRejected 400 "Workflow and data are required"
  end.

(** *** The demo functions of the sandbox *)

(** The answer of [isPrime]: a boolean, or the text for a number that
    is too large. *)
Inductive PrimeAnswer :=
| IsPrime (b : bool)
| TooLarge (text : string).

(** The loop [for (let i = 2; i <= Math.sqrt(num); i++)] from [i] on,
    on whole numbers: [i <= Math.sqrt(num)] is [i <= Z.sqrt num].
    [rounds] bounds the iterations; [Z.sqrt num] rounds are enough
    from 2 on. *)
Fixpoint no_divisor_from (num i : Z) (rounds : nat) : bool :=
  match rounds with
  | O => true
  | S rounds' =>
      if (i <=? Z.sqrt num)%Z
      then if (num mod i =? 0)%Z then false else no_divisor_from num (i + 1) rounds'
      else true
  end.

(** [demoFunctions.isPrime(num)] on a whole number. *)
Definition isPrime (num : Z) : PrimeAnswer :=
  if (1000000 <? num)%Z then TooLarge "Number too large (max 1,000,000)"
  else if (num <? 2)%Z then IsPrime false
  else IsPrime (no_divisor_from num 2 (Z.to_nat (Z.sqrt num))).

End Server.

(* ================================================================= *)
(** ** agent.js (class [LLMAgent]) *)

Module Agent.

Definition maxConversationLength : Z := 50.
Definition maxCacheEntries : Z := 50.
Definition cacheTTL : Z := 3 * 60 * 1000.

(** An entry of [this.conversation].  [content] is [None] when the
    assistant's answer had no [content] field (or [null]). *)
Record Entry := mkEntryOf {
  role : string;
  content : option string;
  tool_calls : option (list ToolCall);
  tool_call_id : option string
}.

Definition Conversation := list Entry.

(** [cleanSearchCache()] *)
Definition cleanSearchCache (now : Z) (m : JsMap.t) : JsMap.t :=
  sweep maxCacheEntries cacheTTL now m.

(** [cleanConversationMemory()] *)
Definition cleanConversationMemory {A : Type} (conversation : list A) : list A :=
  if (Z.of_nat (List.length conversation) >? maxConversationLength)%Z
  then
    let keepFirst := Js.slice 0 (Some 1%Z) conversation in
    let keepRecent := Js.slice (- maxConversationLength + 1) None conversation in
    (keepFirst ++ keepRecent)%list
  else conversation.

(** *** The mock responder of the browser *)

(** What the model answered: [{ content, tool_calls }]; no tool calls
    ([null], missing or an empty array) is [[]]. *)
Record Response := mkResponseOf {
  r_content : option string;
  r_tool_calls : list ToolCall
}.

Definition search_patterns : list string :=
  ["search for "; "find "; "look up "; "about "].

(** The length of what [/search|find|look up|about/i] matches at the
    head of a string. *)
Definition removed_word (s : string) : option nat :=
  let l := Js.toLowerCase s in
  if prefix "search" l then Some 6
  else if prefix "find" l then Some 4
  else if prefix "look up" l then Some 7
  else if prefix "about" l then Some 5
  else None.

(** [input.replace(/search|find|look up|about/gi, '')]; [skip] counts
    the characters of a match still to drop. *)
Fixpoint remove_words (skip : nat) (s : string) : string :=
  match s with
  | EmptyString => EmptyString
  | String c s' =>
      match skip with
      | S k => remove_words k s'
      | O =>
          match removed_word s with
          | Some (S k) => remove_words k s'
          | _ => String c (remove_words 0 s')
          end
      end
  end.

(** [extractSearchTerm(input)] *)
Definition extractSearchTerm (input : string) : string :=
  match Server.first_match search_patterns input with
  | Some g => Js.trim g
  | None => Js.or_default (Some (Js.trim (remove_words 0 input))) "information"
  end.

Definition interviewResponses : list string :=
  [ "What specific angle would you like to take with this topic?";
    "Who is your target audience for this content?";
    "What key message do you want readers to take away?";
    "Would you like me to research any specific aspects further?";
    "Should we start outlining the structure?" ].

Definition demo_code : string :=
  "console.log('Hello from AgentFlow demo!'); const result = Math.random() * 100; console.log('Random number:', Math.floor(result)); return Math.floor(result);".

(** [this.conversation.map(msg => msg.content).join(' ')]: a missing
    content joins as the empty string. *)
Definition history_text (conversation : Conversation) : string :=
  Js.join " " (map (fun msg => match content msg with Some c => c | None => "" end)
                   conversation).

Definition has (s sub : string) : bool := Js.includes s sub.

(** [getMockLLMResponse()], for the provider and model selected in the
    page, at the clock reading [now]; [pick] is the value of
    [Math.floor(Math.random() * interviewResponses.length)].  [None]
    is the [TypeError] of [lastMessage.content.toLowerCase()]. *)
Definition getMockLLMResponse (provider model : string) (now : Z) (pick : nat)
    (conversation : Conversation) : option Response :=
  let userInput :=
    match conversation with
    | [] => Some ""
    | e :: rest =>
        match content (last rest e) with
        | Some c => Some (Js.toLowerCase c)
        | None => None
        end
    end in
  match userInput with
  | None => None
  | Some userInput =>
      let content :=
        "Hello! I'm a " ++ Js.toUpperCase provider ++ " " ++ model ++
        " response in demo mode. " in
      let conversationHistory := Js.toLowerCase (history_text conversation) in
      let call name args := [mkCall (Server.demo_id now) name (ArgsObject args)] in
      if has userInput "interview" && has userInput "blog"
      then Some (mkResponseOf
                   (Some "Sure! What's the topic for your blog post? I'll help you gather information and structure your content.")
                   [])
      else if has userInput "ibm" &&
              (has conversationHistory "interview" || has conversationHistory "blog")
      then Some (mkResponseOf
                   (Some "Let me search for current IBM information to help with your blog post.")
                   (call "google_search"
                      (mkArgs (Some "IBM company recent developments AI cloud 2024 2025")
                              (Some 5%Z) None None None)))
      else if (has userInput "next" || has userInput "continue") &&
              has conversationHistory "ibm"
      then Some (mkResponseOf
                   (Some ("Great! Based on my research, IBM is focusing heavily on AI and hybrid cloud solutions. What specific aspect would you like to highlight? For example:" ++
                          nl ++ nl ++ "1. AI initiatives (Watson, watsonx)" ++
                          nl ++ "2. Hybrid cloud strategy" ++
                          nl ++ "3. Quantum computing" ++
                          nl ++ "4. Sustainability efforts" ++
                          nl ++ nl ++ "Which interests you most?"))
                   [])
      else if has conversationHistory "ibm" && has userInput "ai"
      then Some (mkResponseOf
                   (Some "Excellent choice! Let me gather more detailed information about IBM's AI initiatives.")
                   (call "google_search"
                      (mkArgs (Some "IBM AI Watson watsonx artificial intelligence 2024")
                              (Some 3%Z) None None None)))
      else if has userInput "search" || has userInput "find"
      then
        let searchTerm := extractSearchTerm userInput in
        Some (mkResponseOf
                (Some (content ++ "I'll search for information about " ++ dq ++
                       searchTerm ++ dq ++ "."))
                (call "google_search"
                   (mkArgs (Some searchTerm) (Some 5%Z) None None None)))
      else if has userInput "code" || has userInput "javascript"
      then Some (mkResponseOf
                   (Some (content ++ "I'll run some JavaScript code for you."))
                   (call "execute_javascript"
                      (mkArgs None None None None (Some demo_code))))
      else if has userInput "analyze" || has userInput "summarize"
      then Some (mkResponseOf
                   (Some (content ++ "I'll process that using an AI workflow."))
                   (call "ai_pipe"
                      (mkArgs None None (Some "summarize") (Some userInput) None)))
      else if has conversationHistory "interview" || has conversationHistory "blog"
      then Some (mkResponseOf
                   (Some (nth (pick mod List.length interviewResponses)
                              interviewResponses ""))
                   [])
      else Some (mkResponseOf
                   (Some (content ++
                          "I'm here to help with searches, code execution, and AI workflows. Add API keys for full functionality!"))
                   [])
  end.

(** *** Tool calls *)

(** What running the tool did inside the [try] of [handleToolCall]:
    it gave a result, kept as the text [JSON.stringify(result)], or
    something threw an error with this message. *)
Inductive ToolOutcome :=
| Done (json : string)
| Failed (message : string).

Definition known_tool (name : string) : bool :=
  existsb (String.eqb name) ["google_search"; "ai_pipe"; "execute_javascript"].

(** The marker in front of a failure message, as the source has it:
    the three code units U+201A, U+00F9 and U+00E5. *)
Definition failure_mark : string :=
  String Js.wide (String (ascii_of_nat 249) (String (ascii_of_nat 229) EmptyString)).

Definition tool_entry (toolCall : ToolCall) (text : string) : Entry :=
  mkEntryOf "tool" (Some text) None (Some (tc_id toolCall)).

(** [handleToolCall(toolCall)].  [JSON.parse(args)] stands before the
    [try]: on text that is not JSON the promise is rejected ([None]).
    Inside the [try] an unknown name throws, a known tool does what
    [outcome] says; either way an entry comes back. *)
Definition handleToolCall (toolCall : ToolCall) (outcome : ToolOutcome)
  : option Entry :=
  match tc_arguments toolCall with
  | ArgsInvalid _ => None
  | ArgsObject _ =>
      let name := tc_name toolCall in
      let outcome :=
        if known_tool name then outcome else Failed ("Unknown tool: " ++ name) in
      match outcome with
      | Done json => Some (tool_entry toolCall json)
      | Failed message =>
          Some (tool_entry toolCall
                  (failure_mark ++ " " ++ name ++ " failed: " ++ message))
      end
  end.

(** [Promise.all(response.tool_calls.map(tc => this.handleToolCall(tc)))]:
    the results in the order of the calls, or a rejection as soon as
    one call is rejected.  [outcomes i] is the outcome of the call at
    index [first + i]. *)
Fixpoint all_tool_results (calls : list ToolCall) (outcomes : nat -> ToolOutcome)
    (first : nat) : option (list Entry) :=
  match calls with
  | [] => Some []
  | tc :: rest =>
      match handleToolCall tc (outcomes first),
            all_tool_results rest outcomes (S first) with
      | Some e, Some es => Some (e :: es)
      | _, _ => None
      end
  end.

(** *** The agent loop *)

(** How [callLLM()] goes in one iteration: without an API key the mock
    responder answers, with these two readings; with a key the backend
    answers, or the call throws. *)
Inductive LlmStep :=
| Demo (now : Z) (pick : nat)
| Answered (response : Response)
| CallFailed.

(** One iteration of the loop, seen from outside: the model's answer,
    the outcome of each tool call of the batch, and whether the
    cleanup interval fired while the iteration was waiting. *)
Record Step := mkStep {
  llm : LlmStep;
  tools : nat -> ToolOutcome;
  timer : bool
}.

(** How a turn stands: back to waiting for input after the [break],
    back after the [catch], or still inside [while (true)] when the
    steps given are used up. *)
Inductive Status :=
| Finished
| Aborted
| Looping.

Section Session.

Variable provider model : string.

(** [callLLM()]; [None] is a thrown error. *)
Definition callLLM (step : LlmStep) (conversation : Conversation)
  : option Response :=
  match step with
  | Demo now pick => getMockLLMResponse provider model now pick conversation
  | Answered response => Some response
  | CallFailed => None
  end.

Definition assistant_entry (response : Response) (with_calls : bool) : Entry :=
  mkEntryOf "assistant" (r_content response)
            (if with_calls then Some (r_tool_calls response) else None) None.

(** [agentLoop()] *)
Fixpoint agentLoop (steps : list Step) (conversation : Conversation)
  : Conversation * Status :=
  match steps with
  | [] => (conversation, Looping)
  | step :: later =>
      match callLLM (llm step) conversation with
      | None => (conversation, Aborted)
      | Some response =>
          let conversation :=
            if timer step then cleanConversationMemory conversation
            else conversation in
          match r_tool_calls response with
          | [] => ((conversation ++ [assistant_entry response false])%list, Finished)
          | calls =>
              match all_tool_results calls (tools step) 0 with
              | None => (conversation, Aborted)
              | Some toolResults =>
                  agentLoop later
                    (conversation ++ [assistant_entry response true] ++ toolResults)%list
              end
          end
      end
  end.

(** [handleUserInput()] for the text in the input box, when no turn is
    in flight. *)
Definition handleUserInput (text : string) (steps : list Step)
    (conversation : Conversation) : Conversation * Status :=
  let input := Js.trim text in
  if negb (Js.truthy input) then (conversation, Finished)
  else
    let limitedInput := Js.take 2000 input in
    agentLoop steps
      (conversation ++ [mkEntryOf "user" (Some limitedInput) None None])%list.

(** What happens to the page between two moments: the user sends a
    text and the turn runs, or the cleanup interval fires. *)
Inductive Event :=
| UserInput (text : string) (steps : list Step)
| CleanupTick.

Definition react (conversation : Conversation) (e : Event) : Conversation :=
  match e with
  | UserInput text steps => fst (handleUserInput text steps conversation)
  | CleanupTick => cleanConversationMemory conversation
  end.

Definition session (events : list Event) (conversation : Conversation)
  : Conversation :=
  fold_left react events conversation.

End Session.

(** *** The search tool of the browser *)

Definition searchCooldown : Z := 1000.

(** [Math.min(Math.max(parseInt(numResults) || 5, 1), 10)]; [None] is
    [NaN]. *)
Definition clamp_results (n : option Z) : Z :=
  let asked := match n with
               | Some z => if (z =? 0)%Z then 5%Z else z
               | None => 5%Z
               end in
  Z.min (Z.max asked 1) 10.

Definition knowledgeResults : list (string * SearchResult) :=
  [ ("ibm",
     mkResult "IBM Official Website - AI and Cloud Computing"
              "https://www.ibm.com"
              "IBM provides enterprise AI, hybrid cloud computing, and quantum technologies for digital transformation."
              "www.ibm.com");
    ("ai",
     mkResult "Artificial Intelligence - Wikipedia"
              "https://en.wikipedia.org/wiki/Artificial_intelligence"
              "Artificial intelligence (AI) is intelligence demonstrated by machines, in contrast to the natural intelligence displayed by humans."
              "en.wikipedia.org");
    ("openai",
     mkResult "OpenAI - Artificial Intelligence Research"
              "https://openai.com"
              "OpenAI is an AI research and deployment company dedicated to ensuring artificial general intelligence benefits all humanity."
              "openai.com");
    ("google",
     mkResult "Google - Search and AI Technologies"
              "https://www.google.com"
              "Google's mission is to organize the world's information and make it universally accessible and useful."
              "www.google.com") ].

Definition genericResults (query : string) : list SearchResult :=
  [ mkResult (query ++ " - Wikipedia")
             ("https://en.wikipedia.org/wiki/" ++
                Js.encodeURIComponent (Js.replace_spaces query))
             ("Wikipedia article about " ++ query ++
                ". Free encyclopedia with comprehensive information.")
             "en.wikipedia.org";
    mkResult (query ++ " - Google Search")
             ("https://www.google.com/search?q=" ++ Js.encodeURIComponent query)
             ("Search results for " ++ query ++
                " on Google. Find websites, news, and information.")
             "www.google.com";
    mkResult (query ++ " - Latest News")
             ("https://news.google.com/search?q=" ++ Js.encodeURIComponent query)
             ("Latest news and updates about " ++ query ++
                " from trusted news sources.")
             "news.google.com" ].

(** [getMinimalFallbackResults(query, numResults)] *)
Definition getMinimalFallbackResults (iso : string) (query : string) (numResults : Z)
  : SearchResponse :=
  let queryLower := Js.toLowerCase query in
  let numResults := Z.min numResults 5 in
  match find (fun entry => Js.includes queryLower (fst entry)) knowledgeResults with
  | Some (_, result) =>
      mkResponse query (Js.slice 0 (Some numResults) [result]) "Knowledge Base" 1 iso
                 false
                 (Some "Enhanced fallback results - configure Google Search API for real-time results")
  | None =>
      mkResponse query (Js.slice 0 (Some numResults) (genericResults query))
                 "Minimal Fallback" (Z.of_nat (List.length (genericResults query))) iso
                 false
                 (Some "Basic fallback results - add Google API credentials for enhanced search")
  end.

(** One element of the backend's [results], cleaned. *)
Definition clean_item (item : SearchResult) : SearchResult :=
  mkResult (Js.take 150 (Js.or_default (Some (title item)) "No title"))
           (Js.or_default (Some (link item)) "#")
           (Js.take 300 (Js.or_default (Some (snippet item)) "No description"))
           (Js.or_default (Some (displayLink item)) "unknown").

(** [cleanedResult], for an answer of the backend in the shape
    [POST /api/search] gives it. *)
Definition cleanedResult (iso : string) (numResults : Z) (result : SearchResponse)
  : SearchResponse :=
  mkResponse (sr_query result)
             (map clean_item (Js.slice 0 (Some numResults) (results result)))
             (Js.or_default (Some (source result)) "Unknown")
             (Z.min (totalResults result) 1000000)
             (Js.or_default (Some (sr_timestamp result)) iso)
             (cached result)
             (note result).

(** What the tool keeps between calls. *)
Record SearchState := mkSearchState {
  searchCache : JsMap.t;
  lastSearchTime : Z
}.

(** What the outside world gives during one call: the readings of
    [Date.now()] (at the rate limit, after the wait, in
    [cleanSearchCache], in the freshness test, when the result is
    stored), the text of a timestamp, and what the backend answers to
    the request for a query and a count ([None]: the request failed or
    the status was not 2xx). *)
Record ToolWorld := mkToolWorld {
  t_rate : Z;
  t_resume : Z;
  t_sweep : Z;
  t_lookup : Z;
  t_store : Z;
  iso_now : string;
  backend : string -> Z -> option SearchResponse
}.

(** [googleSearch(query, numResults)]: the result ([None] for the
    thrown "Invalid search query") and the state the call leaves.
    [query] is [None] when it is missing or not a string. *)
Definition googleSearch (query : option string) (numResults : option Z)
    (w : ToolWorld) (st : SearchState) : option SearchResponse * SearchState :=
  match query with
  | None => (None, st)
  | Some raw =>
      if negb (Js.truthy raw) then (None, st)
      else
        let query := Js.take 200 (Js.trim raw) in
        let n := clamp_results numResults in
        let key := Js.toLowerCase query ++ "_" ++ Server.decimal n in
        let cache1 := cleanSearchCache (t_sweep w) (searchCache st) in
        match lookup cacheTTL (t_lookup w) key cache1 with
        | Some hit => (Some hit, mkSearchState cache1 (t_resume w))
        | None =>
            match backend w query n with
            | Some result =>
                let cleaned := cleanedResult (iso_now w) n result in
                (Some cleaned,
                 mkSearchState
                   (if cached result then cache1
                    else JsMap.set key (mkEntry cleaned (t_store w)) cache1)
                   (t_resume w))
            | None =>
                (Some (getMinimalFallbackResults (iso_now w) query n),
                 mkSearchState cache1 (t_resume w))
            end
        end
  end.

(** *** The other two tools: what they send to the backend *)

(** [executeJavaScript]: the code is cut to 5000 characters. *)
Definition limit_code (code : string) : string :=
  if (5000 <? String.length code)%nat then Js.take 5000 code else code.

(** [aiPipe]: the data is cut to 1000 characters. *)
Definition limit_data (data : string) : string := Js.take 1000 data.

(** The names in [initializeTools()]. *)
Definition tool_names : list string :=
  ["google_search"; "ai_pipe"; "execute_javascript"].

(** *** The messages on the page *)

Definition maxDOMMessages : nat := 100.
Definition maxMessageLength : nat := 5000.

(** [cleanDOMMessages()] on the elements that
    [querySelectorAll('.message')] lists, in document order: the
    elements at the indices from 5 on, [toRemove] of them, are
    removed. *)
Definition cleanDOMMessages {A : Type} (messages : list A) : list A :=
  if (maxDOMMessages <? List.length messages)%nat
  then
    let toRemove := (List.length messages - maxDOMMessages + 10)%nat in
    (firstn 5 messages ++ skipn (toRemove + 5) messages)%list
  else messages.

(** The cut of [addMessage] on a content that is a string. *)
Definition limit_content (content : string) : string :=
  if (maxMessageLength <? String.length content)%nat
  then Js.take maxMessageLength content ++ nl ++ nl ++
       "<span class=" ++ dq ++ "truncated" ++ dq ++
       ">[Message truncated to save memory]</span>"
  else content.

(** [addMessage]: the new element is appended, then
    [cleanDOMMessages()] runs. *)
Definition addMessage {A : Type} (element : A) (messages : list A) : list A :=
  cleanDOMMessages (messages ++ [element])%list.

(** *** The status line of the search credentials *)

Inductive KeyStatus :=
| NoCredentials
| KeyMissing
| EngineIdMissing
| InvalidKeyFormat
| InvalidEngineIdFormat
| Configured.

(** [validateGoogleSearchKey()] on the texts of the two input boxes. *)
Definition validateGoogleSearchKey (keyBox engineBox : string) : KeyStatus :=
  let googleKey := Js.trim keyBox in
  let searchEngineId := Js.trim engineBox in
  if negb (Js.truthy googleKey) && negb (Js.truthy searchEngineId) then NoCredentials
  else if negb (Js.truthy googleKey) then KeyMissing
  else if negb (Js.truthy searchEngineId) then EngineIdMissing
  else if negb (Js.startsWith googleKey "AIza") || negb (String.length googleKey =? 39)%nat
  then InvalidKeyFormat
  else if (String.length searchEngineId <? 10)%nat || negb (Js.includes searchEngineId ":")
  then InvalidEngineIdFormat
  else Configured.

(** *** The status line of the model's API key *)

Inductive ApiKeyStatus :=
| DemoNoKey
| KeyTooShort
| KeyConfigured.

(** [validateApiKeyInput()] on the text of the input box. *)
Definition validateApiKeyInput (keyBox : string) : ApiKeyStatus :=
  let apiKey := Js.trim keyBox in
  if negb (Js.truthy apiKey) then DemoNoKey
  else if (String.length apiKey <? 10)%nat then KeyTooShort
  else KeyConfigured.

(** *** What [callLLM()] sends *)

(** [messages: this.conversation.slice(-20)] *)
Definition sent_messages {A : Type} (conversation : list A) : list A :=
  Js.slice (-20) None conversation.

End Agent.

(* ================================================================= *)
(** ** Vocabulary of the statements *)

(** *** The cache *)

(** [a] is not newer than [b]. *)
Definition by_time (a b : string * CacheEntry) : Prop :=
  (timestamp (snd a) <= timestamp (snd b))%Z.

(** The key of [kv] is one of the keys of [ks]. *)
Definition key_in (ks : JsMap.t) (kv : string * CacheEntry) : bool :=
  existsb (fun r => fst r =? fst kv) ks.

(** What a sweep with cap [MAX] and time to live [TTL], run at the
    clock reading [now], makes of [cache]: at most [MAX] entries are
    left; every entry left was there before and is not older than
    [TTL]; when the entries that have not expired fit under the cap,
    they are what is left; when they exceed it, exactly [MAX] are left
    and every entry that went is at most as recent as every entry that
    stayed. *)
Definition swept_to (MAX TTL now : Z) (cache swept : JsMap.t) : Prop :=
  let young := drop_expired TTL now cache in
  (JsMap.size swept <= MAX)%Z
  /\ (forall kv, In kv swept -> In kv cache /\ (now - timestamp (snd kv) <= TTL)%Z)
  /\ ((JsMap.size young <= MAX)%Z -> swept = young)
  /\ ((JsMap.size young > MAX)%Z ->
        JsMap.size swept = MAX
        /\ forall gone kept,
             In gone young -> ~ In gone swept -> In kept swept -> by_time gone kept).

(** The key under which [search] files a request that passed the
    validation with the query text [raw]. *)
Definition key_of (req : Server.SearchRequest) (raw : string) : string :=
  Server.cacheKey (Js.take Server.MAX_QUERY_LENGTH (Js.trim raw))
                  (Server.clamp_num_results (Server.num_results req)).

(** What a request with the query [raw] keeps while it waits. *)
Definition pending_of (req : Server.SearchRequest) (raw : string) : Server.Pending :=
  Server.mkPending raw (Js.take Server.MAX_QUERY_LENGTH (Js.trim raw))
                   (Server.clamp_num_results (Server.num_results req))
                   (key_of req raw) (Server.google_credentials req).

(** An answer that the handler computed and stored: it does not come
    from the cache and not from the handler's [catch]. *)
Definition computed (r : SearchResponse) : Prop :=
  cached r = false /\ source r <> "Emergency Fallback".

(** *** Searches *)

(** A string of white space only. *)
Fixpoint blank (s : string) : bool :=
  match s with
  | EmptyString => true
  | String c s' => Js.is_space c && blank s'
  end.


(** The caps of the specification on one result. *)
Definition within_caps (r : SearchResult) : bool :=
  (String.length (title r) <=? 150)%nat && (String.length (snippet r) <=? 300)%nat.

(** A query of 200 letters that no topic of the knowledge base
    matches. *)
Definition long_query : string :=
  Js.join "" (repeat "zzzzzzzzzz" 20).

(** The search of the specification's example and what the world
    looks like at its three calls: no credentials, Wikipedia out of
    reach, the second call one second after the first, the third when
    the five minutes are over. *)
Definition ibm_request : Server.SearchRequest :=
  Server.mkSearchRequest (Some "ibm") (Some 3%Z) None None.

Definition at_time (t : Z) : Server.SearchWorld :=
  Server.mkSearchWorld t t t "2025-01-01T00:00:00.000Z" None None Server.Encodes.

(** *** Conversations *)

(** What the specification says is kept of a list longer than the cap:
    the first entry and the most recent [cap - 1]. *)
Definition first_and_recent {A : Type} (cap : nat) (xs : list A) : list A :=
  (firstn 1 xs ++ skipn (List.length xs - (cap - 1)) xs)%list.

(** A short exchange in demo mode: the user says hello, the mock
    responder answers without a tool call. *)
Definition hello_turn : Agent.Event :=
  Agent.UserInput "hello" [Agent.mkStep (Agent.Demo 0 0) (fun _ => Agent.Done "") false].

(** *** Tool calls *)

Definition parses (tc : ToolCall) : bool :=
  match tc_arguments tc with
  | ArgsObject _ => true
  | ArgsInvalid _ => false
  end.

(** An answer of the model with one tool call whose arguments are not
    JSON, as a provider can send it. *)
Definition broken_call : ToolCall :=
  mkCall "call_1" "google_search" (ArgsInvalid "{bad").

Definition broken_step : Agent.Step :=
  Agent.mkStep (Agent.Answered (Agent.mkResponseOf (Some "") [broken_call]))
               (fun _ => Agent.Done "{}") false.

Definition asked : Agent.Conversation :=
  [Agent.mkEntryOf "user" (Some "what is new at IBM?") None None].

(** A tool call without its id, the part of it that does not come
    from the clock. *)
Definition forget_id (tc : ToolCall) : string * Arguments :=
  (tc_name tc, tc_arguments tc).

(** *** The sandbox *)



(** A sandbox in which the code returns a BigInt, and one in which
    it throws a string. *)
Definition run_bigint (code : string) : Server.Run :=
  Server.Returned (Server.NotJson "Do not know how to serialize a BigInt") [] [].

Definition run_throws_text (code : string) : Server.Run := Server.Threw None.


(** *** The mock responders *)

Definition blog_talk : Agent.Conversation :=
  [Agent.mkEntryOf "user" (Some "blog") None None].

(** An answer of the branch that draws one of the five follow-up
    questions. *)
Definition follow_up_question (r : Agent.Response) : Prop :=
  Agent.r_tool_calls r = [] /\
  exists q, In q Agent.interviewResponses /\ Agent.r_content r = Some q.

Definition has_text (r : Agent.Response) : Prop :=
  exists text, Agent.r_content r = Some text /\ text <> "".

(** *** Chat requests *)



Definition hi : option Server.Message := Some (Server.mkMessage "user" (Some "hi")).

Definition quiet : Server.LlmWorld := Server.mkLlmWorld 0 0 None.

(** The messages as the handler passes them on: limited, then cut. *)
Definition prepared (received : list (option Server.Message))
  : option (list (option Server.Message)) :=
  Server.truncate_messages (Server.limit_conversation received).




(** *** More on searches *)

(** A session of the server in which every request is handled to
    its end before the next one starts: the requests to
    [POST /api/search] in the order they arrive, each with what the
    world gives it; the answers the server sent and the cache at the
    end. *)
Fixpoint serve (calls : list (Server.SearchRequest * Server.SearchWorld))
    (cache : JsMap.t) : list Server.SearchReply * JsMap.t :=
  match calls with
  | [] => ([], cache)
  | (req, w) :: later =>
      let (reply, cache1) := Server.search req w cache in
      let (replies, cache2) := serve later cache1 in
      (match Server.search_body reply with
       | Server.SearchUnanswered => replies
       | _ => reply :: replies
       end, cache2)
  end.

(** A session of the server as it runs: a request arrives and is
    handled up to its first [await], or the request at place [i]
    among those that wait gets its answers from Google and Wikipedia
    and is handled to its end.  Any number of requests may wait at
    the same time and they may end in any order. *)
Inductive SearchEvent :=
| Arrives (req : Server.SearchRequest) (w : Server.SearchWorld)
| Settles (i : nat) (w : Server.SearchWorld).

(** The cache and the requests that wait, oldest first. *)
Record Desk := mkDesk {
  desk_cache : JsMap.t;
  waiting : list Server.Pending
}.

Definition new_desk : Desk := mkDesk [] [].

Definition happen (d : Desk) (e : SearchEvent) : Desk :=
  match e with
  | Arrives req w =>
      match Server.search_start req w (desk_cache d) with
      | (Server.Replied _, cache1) => mkDesk cache1 (waiting d)
      | (Server.Awaiting p, cache1) => mkDesk cache1 (waiting d ++ [p])%list
      end
  | Settles i w =>
      match nth_error (waiting d) i with
      | Some p =>
          mkDesk (snd (Server.search_settle p w (desk_cache d)))
                 (firstn i (waiting d) ++ skipn (S i) (waiting d))%list
      | None => d
      end
  end.

Definition run_desk (events : list SearchEvent) (d : Desk) : Desk :=
  fold_left happen events d.

(** The largest number of requests that wait at one time during the
    events, from the desk [d] on. *)
Fixpoint most_waiting (events : list SearchEvent) (d : Desk) : nat :=
  match events with
  | [] => List.length (waiting d)
  | e :: later => Nat.max (List.length (waiting d)) (most_waiting later (happen d e))
  end.

(** The events of a session in which every request is handled to its
    end before the next one arrives. *)
Fixpoint one_by_one (calls : list (Server.SearchRequest * Server.SearchWorld))
  : list SearchEvent :=
  match calls with
  | [] => []
  | (req, w) :: later => Arrives req w :: Settles 0 w :: one_by_one later
  end.

(** Every entry of the cache holds between one and ten results. *)
Definition well_stocked (cache : JsMap.t) : Prop :=
  forall kv, In kv cache ->
    (1 <= List.length (results (data (snd kv))) <= 10)%nat.

(** An answer of [POST /api/search] is a rejection with status 400 or
    a 200 with between one and ten results. *)
Definition plausible_reply (reply : Server.SearchReply) : Prop :=
  match Server.search_body reply with
  | Server.SearchError _ => Server.search_status reply = 400%Z
  | Server.SearchOk r =>
      Server.search_status reply = 200%Z
      /\ (1 <= List.length (results r) <= 10)%nat
  | Server.SearchUnanswered => False
  end.


(** *** More on chat requests *)

(** A message object whose content, if it is a string, has at most
    [k] characters. *)
Definition content_within (k : nat) (m : option Server.Message) : Prop :=
  match m with
  | Some x =>
      match Server.content x with
      | Some c => (String.length c <= k)%nat
      | None => True
      end
  | None => False
  end.

Definition role_of (m : option Server.Message) : option string :=
  match m with
  | Some x => Some (Server.role x)
  | None => None
  end.

(** *** More on tool calls *)

(** A tool call that [handleToolCall] can dispatch: its arguments
    parse and its name is one of the tools of [initializeTools]. *)
Definition dispatchable (tc : ToolCall) : Prop :=
  parses tc = true /\ In (tc_name tc) Agent.tool_names.

(** A tool call with a query that is not empty. *)
Definition has_query (tc : ToolCall) : Prop :=
  exists p q, tc_arguments tc = ArgsObject p /\ a_query p = Some q /\ q <> "".

(** Every entry has a string content. *)
Definition spoken (conversation : Agent.Conversation) : Prop :=
  Forall (fun e => Agent.content e <> None) conversation.

(** A step of the loop in demo mode. *)
Definition demo_step (s : Agent.Step) : Prop :=
  exists now pick, Agent.llm s = Agent.Demo now pick.

(** A text that makes the browser's mock responder ask for a search
    again: it mentions "search", and none of the words that lead to
    an answer without a tool call. *)
Definition keeps_searching (text : string) : bool :=
  let l := Js.toLowerCase text in
  Js.includes l "search" && negb (Js.includes l "interview")
  && negb (Js.includes l "next") && negb (Js.includes l "continue").

(** A step in demo mode whose first tool call gets a result that
    keeps the search going. *)
Definition searching_step (s : Agent.Step) : Prop :=
  demo_step s /\
  exists json, Agent.tools s 0 = Agent.Done json /\ keeps_searching json = true.

(** A demo-mode step whose search comes back with the knowledge
    base's answer, and one whose tools stay silent. *)
Definition found_step : Agent.Step :=
  Agent.mkStep (Agent.Demo 0 0) (fun _ => Agent.Done "Knowledge Base Search") false.

Definition silent_step : Agent.Step :=
  Agent.mkStep (Agent.Demo 0 0) (fun _ => Agent.Done "") false.

(** A user message that asks for a search. *)
Definition search_request : option Server.Message :=
  Some (Server.mkMessage "user" (Some "search for cats")).


(** *** The search tool of the browser *)

(** A run of the tool on one page: the calls of [googleSearch] in
    order, each with what the world gives it; the answers and the
    state at the end. *)
Fixpoint browse (calls : list (option string * option Z * Agent.ToolWorld))
    (st : Agent.SearchState) : list (option SearchResponse) * Agent.SearchState :=
  match calls with
  | [] => ([], st)
  | (query, numResults, w) :: later =>
      let (answer, st1) := Agent.googleSearch query numResults w st in
      let (answers, st2) := browse later st1 in
      (answer :: answers, st2)
  end.

(** The state the constructor sets up. *)
Definition new_page : Agent.SearchState := Agent.mkSearchState [] 0.

(** An answer as the page can show it: at most ten results, snippets of
    at most 300 characters, titles of at most 150 characters, or of at
    most 216 in an answer that names "Minimal Fallback" as its
    source. *)
Definition tidy (r : SearchResponse) : Prop :=
  (List.length (results r) <= 10)%nat
  /\ Forall (fun x =>
       (String.length (snippet x) <= 300)%nat
       /\ ((String.length (title x) <= 150)%nat
           \/ (source r = "Minimal Fallback"
               /\ (String.length (title x) <= 216)%nat)))
     (results r).

Definition tidy_answer (answer : option SearchResponse) : Prop :=
  match answer with
  | Some r => tidy r
  | None => True
  end.

(** Every entry of the cache holds a tidy answer. *)
Definition tidy_cache (cache : JsMap.t) : Prop :=
  forall kv, In kv cache -> tidy (data (snd kv)).

(** The backend is out of reach during the call. *)
Definition offline (call : option string * option Z * Agent.ToolWorld) : Prop :=
  forall q n, Agent.backend (snd call) q n = None.

(** The key under which [googleSearch] looks a query up. *)
Definition tool_key (raw : string) (numResults : option Z) : string :=
  Js.toLowerCase (Js.take 200 (Js.trim raw)) ++ "_"
  ++ Server.decimal (Agent.clamp_results numResults).

(** An answer made up by the tool itself. *)
Definition fallback_answer (answer : option SearchResponse) : Prop :=
  match answer with
  | Some r =>
      cached r = false
      /\ exists iso query n, r = Agent.getMinimalFallbackResults iso query n
  | None => True
  end.

(** A world in which the backend is out of reach, and one in which it
    answers every request with one result. *)
Definition no_backend (t : Z) : Agent.ToolWorld :=
  Agent.mkToolWorld t t t t t "2025-01-01T00:00:00.000Z" (fun _ _ => None).



(** The OpenAI entry of the tool's own knowledge base. *)
Definition openai_entry : SearchResult :=
  mkResult "OpenAI - Artificial Intelligence Research"
           "https://openai.com"
           "OpenAI is an AI research and deployment company dedicated to ensuring artificial general intelligence benefits all humanity."
           "openai.com".

(** *** The page and the other tools *)

(** A key and an engine id of the shapes the status line asks for. *)
Definition shaped_key : string := "AIza" ++ Js.join "" (repeat "abcde" 7).
Definition shaped_engine_id : string := "0123456789:abcdef".

(** The request the search tool sends with the two input boxes as
    they are. *)
Definition tool_request (keyBox engineBox query : string) (n : Z)
  : Server.SearchRequest :=
  Server.mkSearchRequest (Some query) (Some n)
                         (Some (Js.trim keyBox)) (Some (Js.trim engineBox)).

(** The backend as the tool sees it when the server of this
    repository answers: the body of an answer with a status from 200
    to 299, nothing otherwise ([response.ok]). *)
Definition via_server (keyBox engineBox : string) (sw : Server.SearchWorld)
    (cache : JsMap.t) (query : string) (n : Z) : option SearchResponse :=
  let reply := fst (Server.search (tool_request keyBox engineBox query n) sw cache) in
  match Server.search_body reply with
  | Server.SearchOk r =>
      if ((200 <=? Server.search_status reply) && (Server.search_status reply <? 300))%Z
      then Some r else None
  | Server.SearchError _ => None
  | Server.SearchUnanswered => None
  end.

(** A world of the tool whose backend is the server, with an empty
    cache and no search service in reach. *)
Definition served (t : Z) : Agent.ToolWorld :=
  Agent.mkToolWorld t t t t t "2025-01-01T00:00:00.000Z"
                    (via_server "" "" (at_time t) []).

(* ================================================================= *)
(** * Properties *)

(** ** Arrays *)

Lemma slice_prefix {A : Type} (k : Z) (xs : list A) :
  (0 <= k)%Z -> Js.slice 0 (Some k) xs = firstn (Z.to_nat k) xs.
Proof.
  intros Hk. unfold Js.slice.
  replace (0 <? 0)%Z with false by reflexivity.
  destruct (k <? 0)%Z eqn:E; [apply Z.ltb_lt in E; lia|].
  rewrite (Z.min_l 0) by lia. cbn [Z.to_nat skipn]. rewrite Z.sub_0_r.
  destruct (Z.le_ge_cases k (Z.of_nat (List.length xs))).
  - now rewrite Z.min_l by lia.
  - rewrite Z.min_r by lia. rewrite Nat2Z.id.
    rewrite !firstn_all2; trivial; lia.
Qed.

Lemma slice_suffix {A : Type} (k : nat) (xs : list A) :
  (0 < k <= List.length xs)%nat ->
  Js.slice (- Z.of_nat k) None xs = skipn (List.length xs - k) xs.
Proof.
  intros Hk. unfold Js.slice.
  destruct (- Z.of_nat k <? 0)%Z eqn:E; [|apply Z.ltb_ge in E; lia].
  rewrite Z.max_l by lia.
  replace (Z.to_nat (Z.of_nat (List.length xs) + - Z.of_nat k))
    with (List.length xs - k)%nat by lia.
  apply firstn_all2. rewrite length_skipn. lia.
Qed.

Lemma in_skipn {A : Type} (n : nat) (xs : list A) (x : A) :
  In x (skipn n xs) -> In x xs.
Proof.
  intros H. rewrite <- (firstn_skipn n xs). apply in_or_app. now right.
Qed.

Lemma in_firstn {A : Type} (n : nat) (xs : list A) (x : A) :
  In x (firstn n xs) -> In x xs.
Proof.
  intros H. rewrite <- (firstn_skipn n xs). apply in_or_app. now left.
Qed.

Lemma nodup_app_disjoint {A : Type} (l1 l2 : list A) (a : A) :
  NoDup (l1 ++ l2) -> In a l1 -> In a l2 -> False.
Proof.
  induction l1 as [|x l1 IH]; cbn; [contradiction|].
  intros Hnd [->|H1] H2; inversion Hnd as [|? ? Hx Hr]; subst.
  - apply Hx. apply in_or_app. now right.
  - now apply IH.
Qed.

Lemma forallb_firstn {A : Type} (f : A -> bool) (n : nat) (l : list A) :
  forallb f l = true -> forallb f (firstn n l) = true.
Proof.
  revert l. induction n; intros [|x l]; cbn; auto.
  intros H. apply andb_true_iff in H as [-> H]. cbn. auto.
Qed.

Lemma forallb_skipn {A : Type} (f : A -> bool) (n : nat) (l : list A) :
  forallb f l = true -> forallb f (skipn n l) = true.
Proof.
  revert l. induction n; intros [|x l]; cbn; auto.
  intros H. apply andb_true_iff in H as [_ H]. auto.
Qed.

Lemma forallb_slice {A : Type} (f : A -> bool) a b (l : list A) :
  forallb f l = true -> forallb f (Js.slice a b l) = true.
Proof. intros H. unfold Js.slice. now apply forallb_firstn, forallb_skipn. Qed.

Lemma last_cons_cons {A : Type} (x y : A) l d : last (x :: y :: l) d = last (y :: l) d.
Proof. reflexivity. Qed.

Lemma last_app_r {A : Type} (l1 l2 : list A) d :
  l2 <> [] -> last (l1 ++ l2) d = last l2 d.
Proof.
  intros H. induction l1 as [|x l1 IH]; [reflexivity|].
  cbn [app]. destruct (l1 ++ l2)%list eqn:E.
  - apply app_eq_nil in E as [_ E]. contradiction.
  - rewrite last_cons_cons. exact IH.
Qed.

Lemma last_skipn {A : Type} n (l : list A) d :
  (n < List.length l)%nat -> last (skipn n l) d = last l d.
Proof.
  revert l. induction n as [|n IH]; intros l H; [reflexivity|].
  destruct l as [|x l]; [cbn in H; lia|]. cbn [skipn]. cbn in H.
  rewrite IH by lia. destruct l; [cbn in H; lia | reflexivity].
Qed.

Lemma app_head {A : Type} (xs ys : list A) (e : A) :
  hd_error xs = Some e -> hd_error (xs ++ ys) = Some e.
Proof. destruct xs; [discriminate | auto]. Qed.

(** ** Strings *)

Lemma take_length n s : (String.length (Js.take n s) <= n)%nat.
Proof.
  unfold Js.take. revert s. induction n as [|n IH]; intros [|c s]; cbn; try lia.
  specialize (IH s). lia.
Qed.

Lemma take_empty n : Js.take n "" = "".
Proof. now destruct n. Qed.

Lemma trim_blank s : blank s = true -> Js.trim s = "".
Proof.
  unfold Js.trim. induction s as [|c s IH]; cbn; [reflexivity|].
  intros H. apply andb_true_iff in H as [Hc Hs]. rewrite Hc. auto.
Qed.

Lemma truthy_nonempty s : s <> "" -> Js.truthy s = true.
Proof. intros H. unfold Js.truthy. apply negb_true_iff. now apply String.eqb_neq. Qed.


(** ** The map *)

Lemma get_in k m e : JsMap.get k m = Some e -> In (k, e) m.
Proof.
  induction m as [|[k' v] m IH]; cbn; [discriminate|].
  destruct (k =? k') eqn:E.
  - apply String.eqb_eq in E. intros [= ->]. subst. now left.
  - intros H. right. auto.
Qed.

Lemma in_get k e m : NoDup (JsMap.keys m) -> In (k, e) m -> JsMap.get k m = Some e.
Proof.
  unfold JsMap.keys. induction m as [|[k' v] m IH]; cbn; [contradiction|].
  intros Hnd [H|H]; inversion Hnd as [|? ? Hx Hm]; subst.
  - injection H as -> ->. now rewrite String.eqb_refl.
  - destruct (k =? k') eqn:E; [|auto].
    apply String.eqb_eq in E. subst. exfalso. apply Hx.
    change k' with (fst (k', e)). now apply in_map.
Qed.

Lemma keys_inj (m : JsMap.t) a b :
  NoDup (JsMap.keys m) -> In a m -> In b m -> fst a = fst b -> a = b.
Proof.
  unfold JsMap.keys. induction m as [|x m IH]; cbn; [contradiction|].
  intros Hnd Ha Hb E. inversion Hnd as [|? ? Hx Hm]; subst.
  destruct Ha as [->|Ha], Hb as [->|Hb]; auto.
  - exfalso. apply Hx. rewrite E. now apply in_map.
  - exfalso. apply Hx. rewrite <- E. now apply in_map.
Qed.

Lemma keys_filter_nodup f (m : JsMap.t) :
  NoDup (JsMap.keys m) -> NoDup (JsMap.keys (filter f m)).
Proof.
  unfold JsMap.keys. induction m as [|x m IH]; cbn; [auto|].
  intros Hnd. inversion Hnd as [|? ? Hx Hm]; subst.
  destruct (f x); cbn; auto. constructor; auto.
  intros Hin. apply Hx. apply in_map_iff in Hin as (y & Ey & Hy).
  apply in_map_iff. exists y. split; auto. apply filter_In in Hy. tauto.
Qed.

Lemma key_in_spec (ks : JsMap.t) kv :
  key_in ks kv = true <-> exists r, In r ks /\ fst r = fst kv.
Proof.
  unfold key_in. rewrite existsb_exists.
  split; intros (r & Hr & E); exists r; split; auto; now apply String.eqb_eq.
Qed.

Lemma set_known k v m :
  In k (JsMap.keys m) -> List.length (JsMap.set k v m) = List.length m.
Proof.
  unfold JsMap.keys. induction m as [|[k' v'] m IH]; cbn; [contradiction|].
  destruct (k =? k') eqn:E; cbn; [reflexivity|].
  intros [H|H]; [apply String.eqb_neq in E; congruence | now rewrite IH].
Qed.

Lemma set_new k v m :
  ~ In k (JsMap.keys m) -> JsMap.set k v m = (m ++ [(k, v)])%list.
Proof.
  unfold JsMap.keys. induction m as [|[k' v'] m IH]; cbn; [reflexivity|].
  intros H. destruct (k =? k') eqn:E.
  - apply String.eqb_eq in E. subst. tauto.
  - rewrite IH; tauto.
Qed.

Lemma set_keys k v m :
  JsMap.keys (JsMap.set k v m) =
  if existsb (String.eqb k) (JsMap.keys m) then JsMap.keys m
  else (JsMap.keys m ++ [k])%list.
Proof.
  unfold JsMap.keys. induction m as [|[k' v'] m IH]; cbn; [reflexivity|].
  destruct (k =? k') eqn:E; cbn.
  - apply String.eqb_eq in E. now subst.
  - rewrite IH. now destruct (existsb _ _).
Qed.

Lemma set_nodup k v m : NoDup (JsMap.keys m) -> NoDup (JsMap.keys (JsMap.set k v m)).
Proof.
  intros Hnd. rewrite set_keys. destruct (existsb _ _) eqn:E; [exact Hnd|].
  apply NoDup_app; auto.
  - repeat constructor. intros [].
  - intros a Ha [<-|[]].
    assert (existsb (String.eqb k) (JsMap.keys m) = true); [|congruence].
    apply existsb_exists. exists k. split; auto. apply String.eqb_refl.
Qed.

Lemma set_get k v m : JsMap.get k (JsMap.set k v m) = Some v.
Proof.
  induction m as [|[k' v'] m IH]; cbn.
  - now rewrite String.eqb_refl.
  - destruct (k =? k') eqn:E; cbn; rewrite ?String.eqb_refl, ?E; auto.
Qed.

(** Deleting a list of keys one after the other is one filter. *)
Lemma delete_all (ks m : JsMap.t) :
  fold_left (fun acc kv => JsMap.delete (fst kv) acc) ks m
  = filter (fun kv => negb (key_in ks kv)) m.
Proof.
  revert m. induction ks as [|r ks IH]; intros m; cbn [fold_left].
  - induction m; cbn; [|f_equal]; auto.
  - rewrite IH. unfold JsMap.delete. clear IH.
    induction m as [|kv m IHm]; [reflexivity|].
    cbn [filter]. change (key_in (r :: ks) kv) with ((fst r =? fst kv) || key_in ks kv).
    destruct (fst r =? fst kv) eqn:E; cbn [negb orb]; [exact IHm|].
    cbn [filter]. destruct (key_in ks kv); cbn [negb]; [exact IHm | now rewrite IHm].
Qed.

(** ** The sort by time *)

Lemma insert_by_time_perm x l : Permutation (x :: l) (JsMap.insert_by_time x l).
Proof.
  induction l as [|y l IH]; cbn; [reflexivity|].
  destruct (_ <=? _)%Z; [reflexivity|].
  rewrite perm_swap. now constructor.
Qed.

Lemma sort_by_time_perm l : Permutation l (JsMap.sort_by_time l).
Proof.
  induction l as [|x l IH]; cbn; [constructor|].
  rewrite <- insert_by_time_perm. now constructor.
Qed.

Lemma insert_by_time_sorted x l :
  StronglySorted by_time l -> StronglySorted by_time (JsMap.insert_by_time x l).
Proof.
  induction 1 as [|y l Hs IH Hy]; cbn.
  - repeat constructor.
  - destruct (timestamp (snd x) <=? timestamp (snd y))%Z eqn:E.
    + apply Z.leb_le in E. constructor; [now constructor|].
      constructor; [exact E|].
      eapply Forall_impl; [|exact Hy]. unfold by_time. intros; lia.
    + apply Z.leb_gt in E. constructor; [exact IH|].
      eapply Permutation_Forall; [apply insert_by_time_perm|].
      constructor; [unfold by_time; lia | exact Hy].
Qed.

Lemma sort_by_time_sorted l : StronglySorted by_time (JsMap.sort_by_time l).
Proof.
  induction l; cbn; [constructor | now apply insert_by_time_sorted].
Qed.

Lemma sorted_split l n :
  StronglySorted by_time l ->
  forall a b, In a (firstn n l) -> In b (skipn n l) -> by_time a b.
Proof.
  intros Hs. revert n. induction Hs as [|x l Hs IH Hx]; intros n a b Ha Hb.
  - destruct n; contradiction.
  - destruct n as [|n]; [contradiction|]. cbn in Ha, Hb. destruct Ha as [<-|Ha].
    + rewrite Forall_forall in Hx. apply Hx. eapply in_skipn; exact Hb.
    + eapply IH; eassumption.
Qed.

Lemma insert_before_newest a x s :
  (timestamp (snd a) <= timestamp (snd x))%Z ->
  JsMap.insert_by_time a (s ++ [x])%list = (JsMap.insert_by_time a s ++ [x])%list.
Proof.
  intros H. induction s as [|y s IH]; cbn.
  - apply Z.leb_le in H. now rewrite H.
  - destruct (_ <=? _)%Z; [reflexivity|]. now rewrite IH.
Qed.

Lemma sort_newest_last l x :
  (forall y, In y l -> by_time y x) ->
  JsMap.sort_by_time (l ++ [x])%list = (JsMap.sort_by_time l ++ [x])%list.
Proof.
  induction l as [|a l IH]; intros H; cbn; [reflexivity|].
  rewrite IH by (intros; apply H; now right).
  apply insert_before_newest. apply H. now left.
Qed.

(** ** The sweep of a cache *)

Section SweepFacts.

Variable MAX_SIZE TTL : Z.
Hypothesis MAX_nonneg : (0 <= MAX_SIZE)%Z.

Lemma drop_expired_young now m kv :
  In kv (drop_expired TTL now m) -> (now - timestamp (snd kv) <= TTL)%Z.
Proof.
  unfold drop_expired, expired. intros H. apply filter_In in H as [_ H].
  apply negb_true_iff in H. lia.
Qed.

Lemma drop_expired_incl now m kv : In kv (drop_expired TTL now m) -> In kv m.
Proof. unfold drop_expired. intros H. apply filter_In in H. tauto. Qed.

Lemma sweep_incl now m kv :
  In kv (sweep MAX_SIZE TTL now m) -> In kv (drop_expired TTL now m).
Proof.
  unfold sweep. destruct (_ >? _)%Z; auto.
  rewrite delete_all. intros H. apply filter_In in H. tauto.
Qed.

Lemma sweep_nodup now m :
  NoDup (JsMap.keys m) -> NoDup (JsMap.keys (sweep MAX_SIZE TTL now m)).
Proof.
  intros Hnd. unfold sweep. destruct (_ >? _)%Z.
  - rewrite delete_all. now apply keys_filter_nodup, keys_filter_nodup.
  - now apply keys_filter_nodup.
Qed.

(** Over the cap: what stays is what the sorted entries hold after the
    first [size - MAX]. *)
Lemma sweep_over_cap now m :
  NoDup (JsMap.keys m) ->
  let m1 := drop_expired TTL now m in
  (JsMap.size m1 > MAX_SIZE)%Z ->
  let cut := (List.length m1 - Z.to_nat MAX_SIZE)%nat in
  forall kv, In kv (sweep MAX_SIZE TTL now m)
             <-> In kv (skipn cut (JsMap.sort_by_time m1)).
Proof.
  intros Hnd m1 Hover cut kv.
  assert (Hnd1 : NoDup (JsMap.keys m1)) by now apply keys_filter_nodup.
  assert (Hperm := sort_by_time_perm m1).
  unfold sweep. fold m1. destruct (JsMap.size m1 >? MAX_SIZE)%Z eqn:E; [|lia].
  rewrite delete_all. unfold toRemove. unfold JsMap.size in Hover.
  rewrite <- (Permutation_length Hperm).
  rewrite slice_prefix by lia.
  replace (Z.to_nat (Z.of_nat (List.length m1) - MAX_SIZE)) with cut by (unfold cut; lia).
  set (s := JsMap.sort_by_time m1) in *.
  assert (Hnds : NoDup (JsMap.keys s)).
  { unfold JsMap.keys.
    eapply Permutation_NoDup; [apply Permutation_map; exact Hperm|exact Hnd1]. }
  rewrite filter_In, negb_true_iff. split.
  - intros [Hin Hk].
    apply (Permutation_in _ Hperm) in Hin.
    rewrite <- (firstn_skipn cut s) in Hin. apply in_app_or in Hin as [Hin|Hin]; auto.
    exfalso. assert (key_in (firstn cut s) kv = true); [|congruence].
    apply key_in_spec. now exists kv.
  - intros Hin. split.
    + apply (Permutation_in _ (Permutation_sym Hperm)). eapply in_skipn; exact Hin.
    + destruct (key_in (firstn cut s) kv) eqn:Hk; auto. exfalso.
      apply key_in_spec in Hk as (r & Hr & Er).
      assert (r = kv).
      { apply (keys_inj s); auto; [eapply in_firstn | eapply in_skipn]; eassumption. }
      subst r.
      assert (Hs : NoDup s) by (eapply NoDup_map_inv; exact Hnds).
      rewrite <- (firstn_skipn cut s) in Hs.
      eapply nodup_app_disjoint; eassumption.
Qed.

(** Over the cap the sweep leaves exactly [MAX] entries. *)
Lemma sweep_over_cap_size now m :
  NoDup (JsMap.keys m) ->
  (JsMap.size (drop_expired TTL now m) > MAX_SIZE)%Z ->
  JsMap.size (sweep MAX_SIZE TTL now m) = MAX_SIZE.
Proof.
  intros Hnd Hover.
  pose proof (sweep_over_cap now m Hnd Hover) as Hiff. cbv zeta in Hiff.
  set (m1 := drop_expired TTL now m) in *.
  set (cut := (List.length m1 - Z.to_nat MAX_SIZE)%nat) in *.
  assert (Hp : Permutation (sweep MAX_SIZE TTL now m)
                           (skipn cut (JsMap.sort_by_time m1))).
  { apply NoDup_Permutation; auto.
    - eapply NoDup_map_inv. apply sweep_nodup. exact Hnd.
    - assert (Hs : NoDup (JsMap.sort_by_time m1)).
      { eapply Permutation_NoDup; [apply sort_by_time_perm|].
        eapply NoDup_map_inv. apply keys_filter_nodup. exact Hnd. }
      rewrite <- (firstn_skipn cut _) in Hs. now apply NoDup_app_remove_l in Hs. }
  unfold JsMap.size in *. rewrite (Permutation_length Hp), length_skipn.
  rewrite <- (Permutation_length (sort_by_time_perm m1)). unfold cut. lia.
Qed.

Lemma sweep_size now m :
  NoDup (JsMap.keys m) -> (JsMap.size (sweep MAX_SIZE TTL now m) <= MAX_SIZE)%Z.
Proof.
  intros Hnd.
  destruct (Z.le_gt_cases (JsMap.size (drop_expired TTL now m)) MAX_SIZE) as [Hle|Hgt].
  - unfold sweep. destruct (_ >? _)%Z eqn:E; [lia | exact Hle].
  - rewrite sweep_over_cap_size; [lia | exact Hnd | lia].
Qed.

(** Over the cap, whatever went is not newer than whatever stayed. *)
Lemma sweep_removes_oldest now m gone kept :
  NoDup (JsMap.keys m) ->
  (JsMap.size (drop_expired TTL now m) > MAX_SIZE)%Z ->
  In gone (drop_expired TTL now m) ->
  ~ In gone (sweep MAX_SIZE TTL now m) ->
  In kept (sweep MAX_SIZE TTL now m) ->
  by_time gone kept.
Proof.
  intros Hnd Hover Hg Hng Hk.
  pose proof (sweep_over_cap now m Hnd Hover) as Hiff. cbv zeta in Hiff.
  apply Hiff in Hk.
  eapply sorted_split; [apply sort_by_time_sorted| |exact Hk].
  apply (Permutation_in _ (sort_by_time_perm _)) in Hg.
  rewrite <- (firstn_skipn (List.length (drop_expired TTL now m) - Z.to_nat MAX_SIZE) _)
    in Hg.
  apply in_app_or in Hg as [Hg|Hg]; [exact Hg|].
  exfalso. apply Hng. now apply Hiff.
Qed.

Lemma lookup_cached now k m r : lookup TTL now k m = Some r -> cached r = true.
Proof.
  unfold lookup. destruct (JsMap.get k m); [|discriminate].
  destruct (fresh _ _ _); [|discriminate]. now intros [= <-].
Qed.

(** What [lookup] serves was stored less than the TTL ago. *)
Lemma lookup_fresh now k m r :
  lookup TTL now k m = Some r ->
  exists e, In (k, e) m /\ r = mark_cached (data e) /\ (now - timestamp e < TTL)%Z.
Proof.
  unfold lookup. destruct (JsMap.get k m) as [e|] eqn:G; [|discriminate].
  destruct (fresh TTL now e) eqn:F; [|discriminate]. intros [= <-].
  exists e. split; [now apply get_in|]. split; [reflexivity|].
  unfold fresh in F. lia.
Qed.

End SweepFacts.

Section Retained.

Variable MAX_SIZE TTL : Z.
Hypothesis MAX_positive : (1 <= MAX_SIZE)%Z.

(** An entry stored after a sweep, newer than all the others, is still
    there after the next sweep, as long as it has not expired. *)
Lemma stored_survives t1 t2 k e m :
  NoDup (JsMap.keys m) ->
  (forall kv, In kv m -> (timestamp (snd kv) <= timestamp e)%Z) ->
  (t2 - timestamp e <= TTL)%Z ->
  In (k, e) (sweep MAX_SIZE TTL t2 (JsMap.set k e (sweep MAX_SIZE TTL t1 m))).
Proof.
  intros Hnd Hnew Hyoung.
  assert (Hmax : (0 <= MAX_SIZE)%Z) by lia.
  set (m0 := sweep MAX_SIZE TTL t1 m).
  assert (Hnd0 : NoDup (JsMap.keys m0)) by now apply sweep_nodup.
  assert (Hsize0 : (JsMap.size m0 <= MAX_SIZE)%Z) by now apply sweep_size.
  assert (Hnew0 : forall kv, In kv m0 -> by_time kv (k, e)).
  { intros kv H. apply Hnew. eapply drop_expired_incl, sweep_incl. exact H. }
  set (c1 := JsMap.set k e m0).
  assert (Hnd1 : NoDup (JsMap.keys c1)) by now apply set_nodup.
  assert (Hin1 : In (k, e) c1) by (apply get_in, set_get).
  assert (Hkeep : In (k, e) (drop_expired TTL t2 c1)).
  { unfold drop_expired. apply filter_In. split; auto.
    unfold expired. cbn. apply negb_true_iff. lia. }
  destruct (Z.le_gt_cases (JsMap.size (drop_expired TTL t2 c1)) MAX_SIZE) as [Hle|Hgt].
  - unfold sweep. destruct (_ >? _)%Z eqn:E; [lia | exact Hkeep].
  - assert (Hover : (JsMap.size (drop_expired TTL t2 c1) > MAX_SIZE)%Z) by lia.
    apply (sweep_over_cap _ TTL Hmax t2 c1 Hnd1 Hover).
    assert (Hlen : (List.length (drop_expired TTL t2 c1) <= List.length c1)%nat)
      by apply filter_length_le.
    destruct (in_dec string_dec k (JsMap.keys m0)) as [Hk|Hk].
    + exfalso. unfold c1 in *. rewrite set_known in Hlen by exact Hk.
      unfold JsMap.size in *. lia.
    + unfold c1 in *. rewrite set_new in * by exact Hk.
      unfold drop_expired in *. rewrite filter_app in *. cbn [filter] in *.
      replace (negb (expired TTL t2 (k, e))) with true in *
        by (symmetry; unfold expired; cbn; apply negb_true_iff; lia).
      set (F := filter (fun kv => negb (expired TTL t2 kv)) m0) in *.
      rewrite sort_newest_last.
      2:{ intros y Hy. apply Hnew0. unfold F in Hy. apply filter_In in Hy. tauto. }
      assert (HF : (List.length F <= List.length m0)%nat) by apply filter_length_le.
      rewrite length_app. cbn [List.length].
      rewrite skipn_app. apply in_or_app. right.
      rewrite <- (Permutation_length (sort_by_time_perm F)).
      unfold JsMap.size in *. rewrite length_app in Hover. cbn [List.length] in Hover.
      replace (List.length F + 1 - Z.to_nat MAX_SIZE - List.length F)%nat
        with 0%nat by lia.
      now left.
Qed.

End Retained.

(** ** [POST /api/search] and its cache *)

Lemma google_not_cached reply iso k e q n r :
  Server.performGoogleSearch reply iso k e q n = Some r -> cached r = false.
Proof.
  unfold Server.performGoogleSearch.
  destruct (_ || _); [discriminate|]. destruct (_ || _); [discriminate|].
  destruct reply as [g|]; [|discriminate]. destruct (Server.items g); [discriminate|].
  now intros [= <-].
Qed.

Lemma knowledge_not_cached iso q n :
  cached (Server.getKnowledgeBaseResults iso q n) = false.
Proof.
  unfold Server.getKnowledgeBaseResults. now destruct (find _ _) as [[? ?]|].
Qed.

Lemma fallback_not_cached wiki iso q n :
  cached (Server.performFallbackSearch wiki iso q n) = false.
Proof.
  unfold Server.performFallbackSearch.
  destruct (Server.tryWikipediaSearch wiki q); cbn; apply knowledge_not_cached.
Qed.

Lemma knowledge_source iso q n :
  source (Server.getKnowledgeBaseResults iso q n) <> "Emergency Fallback".
Proof.
  unfold Server.getKnowledgeBaseResults. destruct (find _ _) as [[? ?]|]; discriminate.
Qed.

Lemma fallback_computed wiki iso q n :
  computed (Server.performFallbackSearch wiki iso q n).
Proof.
  split; [apply fallback_not_cached|].
  unfold Server.performFallbackSearch.
  destruct (Server.tryWikipediaSearch wiki q); [discriminate | apply knowledge_source].
Qed.

Lemma google_computed reply iso k e q n r :
  Server.performGoogleSearch reply iso k e q n = Some r -> computed r.
Proof.
  intros H. split; [eapply google_not_cached; exact H|].
  revert H. unfold Server.performGoogleSearch.
  destruct (_ || _); [discriminate|]. destruct (_ || _); [discriminate|].
  destruct reply as [g|]; [|discriminate]. destruct (Server.items g); [discriminate|].
  intros [= <-]. discriminate.
Qed.

(** The three ways the second half of the handler ends: it stores
    what it computed and answers with it; it answers with the
    emergency results and stores nothing; it sends nothing. *)
Lemma settle_cases p w cache :
  (exists r,
     Server.search_settle p w cache
     = (Server.mkSearchReply 200 (Server.SearchOk r),
        JsMap.set (Server.p_key p) (mkEntry r (Server.t_store w)) cache)
     /\ computed r)
  \/ (Server.uri w = Server.CutRefused
      /\ Server.search_settle p w cache
         = (Server.mkSearchReply 200
              (Server.SearchOk (Server.emergencyResults (Server.iso_now w) (Server.p_raw p))),
            cache))
  \/ (Server.uri w = Server.BothRefused
      /\ Server.search_settle p w cache
         = (Server.mkSearchReply 0 Server.SearchUnanswered, cache)).
Proof.
  unfold Server.search_settle.
  destruct (match Server.uri w with Server.Encodes => _ | _ => _ end)
    as [g|] eqn:G.
  - left. exists g. split; [reflexivity|].
    destruct (Server.uri w); [|discriminate..].
    destruct (Server.p_credentials p) as [[k e]|]; [|discriminate].
    eapply google_computed; exact G.
  - clear G. destruct (Server.uri w) eqn:U.
    + left. eexists. split; [reflexivity | apply fallback_computed].
    + destruct (Server.reaches_generated _).
      * right. left. now split.
      * left. eexists. split; [reflexivity | apply fallback_computed].
    + destruct (Server.reaches_generated _).
      * right. right. now split.
      * left. eexists. split; [reflexivity | apply fallback_computed].
Qed.

(** With nothing for [encodeURIComponent] to refuse, what was
    computed is stored. *)
Lemma settle_encodes p w cache :
  Server.uri w = Server.Encodes ->
  exists r,
    Server.search_settle p w cache
    = (Server.mkSearchReply 200 (Server.SearchOk r),
       JsMap.set (Server.p_key p) (mkEntry r (Server.t_store w)) cache)
    /\ computed r.
Proof.
  intros U. destruct (settle_cases p w cache) as [H|[[U' _]|[U' _]]];
    [exact H | congruence | congruence].
Qed.

Lemma search_hit req w cache raw r :
  Server.query req = Some raw -> Js.truthy raw = true ->
  lookup Server.CACHE_TTL (Server.t_lookup w) (key_of req raw)
         (Server.cleanCache (Server.t_sweep w) cache) = Some r ->
  Server.search req w cache
  = (Server.mkSearchReply 200 (Server.SearchOk r),
     Server.cleanCache (Server.t_sweep w) cache).
Proof.
  intros Hq Ht L. unfold Server.search, Server.search_start, key_of in *.
  now rewrite Hq, Ht, L.
Qed.

Lemma search_miss req w cache raw :
  Server.query req = Some raw -> Js.truthy raw = true ->
  lookup Server.CACHE_TTL (Server.t_lookup w) (key_of req raw)
         (Server.cleanCache (Server.t_sweep w) cache) = None ->
  Server.search req w cache
  = Server.search_settle (pending_of req raw) w
      (Server.cleanCache (Server.t_sweep w) cache).
Proof.
  intros Hq Ht L. unfold Server.search, Server.search_start, pending_of, key_of in *.
  now rewrite Hq, Ht, L.
Qed.

Lemma search_rejected req w cache :
  (Server.query req = None \/ Server.query req = Some "") ->
  Server.search req w cache
  = (Server.mkSearchReply 400 (Server.SearchError "Valid query is required"), cache).
Proof.
  unfold Server.search, Server.search_start. now intros [->| ->].
Qed.

Lemma truthy_or_empty raw : Js.truthy raw = false -> raw = "".
Proof.
  unfold Js.truthy. intros H. apply negb_false_iff in H. now apply String.eqb_eq.
Qed.

(** A request that is answered with results passed the validation,
    and the answer is what [lookup] found, or what was computed and
    stored, or the emergency results, which are not stored. *)
Lemma search_answered req w cache r cache' :
  Server.search req w cache = (Server.mkSearchReply 200 (Server.SearchOk r), cache') ->
  exists raw,
    Server.query req = Some raw /\ Js.truthy raw = true /\
    let swept := Server.cleanCache (Server.t_sweep w) cache in
    match lookup Server.CACHE_TTL (Server.t_lookup w) (key_of req raw) swept with
    | Some hit => r = hit /\ cache' = swept
    | None =>
        cached r = false
        /\ ((source r <> "Emergency Fallback"
             /\ cache' = JsMap.set (key_of req raw) (mkEntry r (Server.t_store w)) swept)
            \/ (source r = "Emergency Fallback" /\ cache' = swept))
    end.
Proof.
  intros Hs.
  destruct (Server.query req) as [raw|] eqn:Hq;
    [|rewrite search_rejected in Hs by (now left); discriminate].
  destruct (Js.truthy raw) eqn:Ht;
    [|apply truthy_or_empty in Ht; subst raw;
      rewrite search_rejected in Hs by (now right); discriminate].
  exists raw. split; [reflexivity|]. split; [exact Ht|]. cbv zeta.
  destruct (lookup Server.CACHE_TTL (Server.t_lookup w) (key_of req raw)
              (Server.cleanCache (Server.t_sweep w) cache)) as [hit|] eqn:L.
  - rewrite (search_hit _ _ _ _ _ Hq Ht L) in Hs. now injection Hs as <- <-.
  - rewrite (search_miss _ _ _ _ Hq Ht L) in Hs.
    destruct (settle_cases (pending_of req raw) w
                (Server.cleanCache (Server.t_sweep w) cache))
      as [(r' & E & Hc & Hsrc)|[[_ E]|[_ E]]]; rewrite E in Hs.
    + injection Hs as <- <-. split; [exact Hc|]. left. now split.
    + injection Hs as <- <-. split; [reflexivity|]. right. now split.
    + discriminate.
Qed.

(** Every sweep does what [swept_to] says. *)
Lemma sweep_swept_to MAX TTL now cache :
  (0 <= MAX)%Z -> NoDup (JsMap.keys cache) ->
  swept_to MAX TTL now cache (sweep MAX TTL now cache).
Proof.
  intros Hmax Hnd. unfold swept_to. cbv zeta.
  split; [now apply sweep_size|]. split; [|split].
  - intros kv H. apply sweep_incl in H. split.
    + eapply drop_expired_incl; exact H.
    + eapply drop_expired_young; exact H.
  - intros Hle. unfold sweep. destruct (_ >? _)%Z eqn:E; [lia | reflexivity].
  - intros Hover. split; [now apply sweep_over_cap_size|].
    intros gone kept. now apply sweep_removes_oldest.
Qed.

(** C6.  After a run of the cache sweep at the clock reading [now],
    on a map (keys without repetition), for the server's [cleanCache]
    (100 entries, 5 minutes) and for the browser's [cleanSearchCache]
    (50 entries, 3 minutes) alike: the cache holds at most the cap;
    every entry left was in the cache and is not older than the time
    to live, so every older one is gone; when the entries that have
    not expired fit under the cap nothing else goes, and when they
    exceed it exactly the cap stays and every entry that went is at
    most as recent as every entry that stayed.  The freshness test of
    either search serves an entry only when it was stored less than
    the time to live ago, and whatever [POST /api/search] answers with
    [cached: true] is the data of such an entry of the cache. *)
Theorem cache_sweep_bounds (now : Z) (cache : JsMap.t) :
  NoDup (JsMap.keys cache) ->
  swept_to Server.MAX_CACHE_SIZE Server.CACHE_TTL now cache
           (Server.cleanCache now cache)
  /\ swept_to Agent.maxCacheEntries Agent.cacheTTL now cache
              (Agent.cleanSearchCache now cache)
  /\ (forall key r,
        lookup Agent.cacheTTL now key cache = Some r ->
        exists e, In (key, e) cache /\ r = mark_cached (data e)
                  /\ (now - timestamp e < Agent.cacheTTL)%Z)
  /\ (forall req w r cache',
        Server.search req w cache
          = (Server.mkSearchReply 200 (Server.SearchOk r), cache') ->
        cached r = true ->
        exists key e,
          In (key, e) cache /\ r = mark_cached (data e)
          /\ (Server.t_lookup w - timestamp e < Server.CACHE_TTL)%Z).
Proof.
  intros Hnd.
  split; [apply sweep_swept_to; [unfold Server.MAX_CACHE_SIZE; lia | exact Hnd]|].
  split; [apply sweep_swept_to; [unfold Agent.maxCacheEntries; lia | exact Hnd]|].
  split; [intros key r; apply lookup_fresh|].
  intros req w r cache' Hs Hc.
  destruct (search_answered _ _ _ _ _ Hs) as (raw & _ & _ & H). cbv zeta in H.
  destruct (lookup _ _ _ _) as [hit|] eqn:L.
  - destruct H as [-> _].
    destruct (lookup_fresh _ _ _ _ _ L) as (e & Hin & -> & Hage).
    exists (key_of req raw), e. split; [|split; [reflexivity | exact Hage]].
    apply sweep_incl in Hin. eapply drop_expired_incl; exact Hin.
  - destruct H as [Hfalse _]. congruence.
Qed.

Lemma cache_sweep_bounds_witness :
  let r := Server.getKnowledgeBaseResults "2025-01-01T00:00:00.000Z" "ibm" 3 in
  let cache := [("ibm_3", mkEntry r 1000); ("python_5", mkEntry r 400000)] in
  NoDup (JsMap.keys cache)
  /\ swept_to Server.MAX_CACHE_SIZE Server.CACHE_TTL 500000 cache
              (Server.cleanCache 500000 cache)
  /\ Server.cleanCache 500000 cache = [("python_5", mkEntry r 400000)].
Proof.
  intros r cache.
  assert (Hnd : NoDup (JsMap.keys cache)).
  { repeat constructor; cbn; intuition discriminate. }
  split; [exact Hnd|].
  split; [exact (proj1 (cache_sweep_bounds 500000 cache Hnd)) | reflexivity].
Defined.

(** What a request stored is served to the same request when it
    comes again before the entry has expired. *)
Lemma stored_then_served req raw w1 w2 cache r1 :
  Server.query req = Some raw -> Js.truthy raw = true ->
  NoDup (JsMap.keys cache) ->
  (forall kv, In kv cache -> (timestamp (snd kv) <= Server.t_store w1)%Z) ->
  (Server.t_sweep w2 <= Server.t_lookup w2)%Z ->
  (Server.t_lookup w2 - Server.t_store w1 < Server.CACHE_TTL)%Z ->
  let cache1 :=
    JsMap.set (key_of req raw) (mkEntry r1 (Server.t_store w1))
              (Server.cleanCache (Server.t_sweep w1) cache) in
  let cache2 := Server.cleanCache (Server.t_sweep w2) cache1 in
  Server.search req w2 cache1
  = (Server.mkSearchReply 200 (Server.SearchOk (mark_cached r1)), cache2)
  /\ NoDup (JsMap.keys cache2)
  /\ In (key_of req raw, mkEntry r1 (Server.t_store w1)) cache2.
Proof.
  intros Hq Ht Hnd Hclock Hmono Hwithin cache1 cache2.
  set (key := key_of req raw) in *.
  set (stored := mkEntry r1 (Server.t_store w1)) in *.
  assert (Hmax : (1 <= Server.MAX_CACHE_SIZE)%Z) by (unfold Server.MAX_CACHE_SIZE; lia).
  assert (Hnd1 : NoDup (JsMap.keys cache1)).
  { apply set_nodup. now apply sweep_nodup. }
  assert (Hin2 : In (key, stored) cache2).
  { apply stored_survives; auto. cbn [timestamp stored]. lia. }
  assert (Hnd2 : NoDup (JsMap.keys cache2)) by now apply sweep_nodup.
  split; [|now split].
  apply (search_hit _ _ _ raw); [exact Hq | exact Ht |].
  fold key. fold cache2. unfold lookup. rewrite (in_get _ _ _ Hnd2 Hin2).
  unfold fresh. cbn [timestamp stored data].
  destruct (_ <? _)%Z eqn:E; [reflexivity | lia].
Qed.

(** C7, as stated, fails: the second of two searches sent within the
    time to live of each other need not come from the cache.  On a
    server that starts empty, "ibm" with three results is asked for
    at 0 s, at 299 s and at 301 s.  The first request computes and
    stores the results; the second, sent 299 s later, is answered
    from the cache; the third, sent 2 s after the second, finds the
    entry older than [CACHE_TTL] and is answered with results computed
    afresh, without [cached: true]. *)
Lemma second_search_within_ttl_not_cached :
  let zeroth := Server.search ibm_request (at_time 0) [] in
  let first := Server.search ibm_request (at_time 299000) (snd zeroth) in
  let second := Server.search ibm_request (at_time 301000) (snd first) in
  (301000 - 299000 < Server.CACHE_TTL)%Z
  /\ (exists r1, fst first = Server.mkSearchReply 200 (Server.SearchOk r1)
                 /\ cached r1 = true)
  /\ (exists r2, fst second = Server.mkSearchReply 200 (Server.SearchOk r2)
                 /\ cached r2 = false).
Proof.
  cbv zeta. split; [unfold Server.CACHE_TTL; lia|].
  split; eexists; (split; [vm_compute; reflexivity | reflexivity]).
Qed.

(** C7, amended.  A search that [POST /api/search] answers with
    results it computed (they come neither from the cache nor from
    the handler's [catch]) is stored at the reading [t_store] of the
    clock; the cache is a map whose entries were stored no later than
    that.  The same request, sent again with no other request in
    between while less than [CACHE_TTL] has passed since [t_store],
    is answered with the very results of the first answer and with
    [cached: true].  Sent a third time, when [CACHE_TTL] or more has
    passed since [t_store], it is not answered from the cache: it
    gets results without [cached: true], or no response when the
    handler's [catch] throws. *)
Theorem search_twice_within_ttl
    (req : Server.SearchRequest) (w1 w2 w3 : Server.SearchWorld)
    (cache cache1 : JsMap.t) (r1 : SearchResponse) :
  NoDup (JsMap.keys cache) ->
  (forall kv, In kv cache -> (timestamp (snd kv) <= Server.t_store w1)%Z) ->
  Server.search req w1 cache
    = (Server.mkSearchReply 200 (Server.SearchOk r1), cache1) ->
  computed r1 ->
  (Server.t_sweep w2 <= Server.t_lookup w2)%Z ->
  (Server.t_lookup w2 - Server.t_store w1 < Server.CACHE_TTL)%Z ->
  (Server.t_lookup w3 - Server.t_store w1 >= Server.CACHE_TTL)%Z ->
  let second := Server.search req w2 cache1 in
  let third := Server.search req w3 (snd second) in
  (exists r2,
     fst second = Server.mkSearchReply 200 (Server.SearchOk r2)
     /\ results r2 = results r1 /\ cached r2 = true)
  /\ ((exists r3,
         fst third = Server.mkSearchReply 200 (Server.SearchOk r3)
         /\ cached r3 = false)
      \/ (Server.uri w3 = Server.BothRefused
          /\ fst third = Server.mkSearchReply 0 Server.SearchUnanswered)).
Proof.
  intros Hnd Hclock Hfirst [Hfresh Hsource] Hmono Hwithin Hafter second third.
  destruct (search_answered _ _ _ _ _ Hfirst) as (raw & Hq & Ht & H). cbv zeta in H.
  destruct (lookup _ _ _ _) as [hit|] eqn:L1.
  { destruct H as [-> _]. apply lookup_cached in L1. congruence. }
  destruct H as [_ [[_ ->]|[Hemergency _]]]; [|contradiction].
  destruct (stored_then_served req raw w1 w2 cache r1 Hq Ht Hnd Hclock Hmono Hwithin)
    as (Hsecond & Hnd2 & Hin2). cbv zeta in Hsecond, Hnd2, Hin2.
  set (key := key_of req raw) in *.
  set (stored := mkEntry r1 (Server.t_store w1)) in *.
  set (cache1 := JsMap.set key stored (Server.cleanCache (Server.t_sweep w1) cache)) in *.
  set (cache2 := Server.cleanCache (Server.t_sweep w2) cache1) in *.
  fold second in Hsecond.
  split.
  - exists (mark_cached r1). rewrite Hsecond. repeat split.
  - unfold third. rewrite Hsecond. cbn [snd].
    assert (L3 : lookup Server.CACHE_TTL (Server.t_lookup w3) key
                   (Server.cleanCache (Server.t_sweep w3) cache2) = None).
    { unfold lookup.
      destruct (JsMap.get key _) as [e|] eqn:G; [|reflexivity].
      apply get_in in G. apply sweep_incl, drop_expired_incl in G.
      assert (E : (key, e) = (key, stored)) by (apply (keys_inj cache2); auto).
      injection E as ->. unfold fresh. cbn [timestamp stored].
      destruct (_ <? _)%Z eqn:E; [lia | reflexivity]. }
    rewrite (search_miss _ _ _ _ Hq Ht L3).
    destruct (settle_cases (pending_of req raw) w3
                (Server.cleanCache (Server.t_sweep w3) cache2))
      as [(r3 & E & Hc & _)|[[_ E]|[U E]]]; rewrite E; cbn [fst].
    + left. now exists r3.
    + left. eexists. split; reflexivity.
    + right. now split.
Qed.

Lemma search_twice_within_ttl_witness :
  let r1 := Server.getKnowledgeBaseResults "2025-01-01T00:00:00.000Z" "ibm" 3 in
  let second := Server.search ibm_request (at_time 2000) [("ibm_3", mkEntry r1 1000)] in
  let third := Server.search ibm_request (at_time 301000) (snd second) in
  (exists r2,
     fst second = Server.mkSearchReply 200 (Server.SearchOk r2)
     /\ results r2 = results r1 /\ cached r2 = true)
  /\ ((exists r3,
         fst third = Server.mkSearchReply 200 (Server.SearchOk r3)
         /\ cached r3 = false)
      \/ (Server.uri (at_time 301000) = Server.BothRefused
          /\ fst third = Server.mkSearchReply 0 Server.SearchUnanswered)).
Proof.
  intros r1.
  apply (search_twice_within_ttl ibm_request (at_time 1000) (at_time 2000)
           (at_time 301000) [] [("ibm_3", mkEntry r1 1000)] r1).
  - constructor.
  - intros kv [].
  - reflexivity.
  - split; [reflexivity | discriminate].
  - cbn. lia.
  - cbn. unfold Server.CACHE_TTL. lia.
  - cbn. unfold Server.CACHE_TTL. lia.
Defined.




(** ** The caps on results *)

Lemma google_result_within_caps item : within_caps (Server.google_result item) = true.
Proof.
  unfold within_caps, Server.google_result. cbn [title snippet].
  apply andb_true_iff. split; apply Nat.leb_le, take_length.
Qed.

(** What the Google branch returns obeys the caps. *)
Lemma google_search_within_caps reply iso k e q n r :
  Server.performGoogleSearch reply iso k e q n = Some r ->
  forallb within_caps (results r) = true.
Proof.
  unfold Server.performGoogleSearch.
  destruct (_ || _); [discriminate|]. destruct (_ || _); [discriminate|].
  destruct reply as [g|]; [|discriminate].
  destruct (Server.items g) as [|i0 rest]; [discriminate|].
  intros [= <-]. cbn [results]. apply forallb_slice.
  apply forallb_forall. intros x Hx.
  change (In x (map Server.google_result (i0 :: rest))) in Hx.
  apply in_map_iff in Hx as (i & <- & _).
  apply google_result_within_caps.
Qed.

(** So does every entry of the knowledge base. *)
Lemma knowledge_base_within_caps :
  forallb (fun topic => forallb within_caps (snd topic)) Server.knowledgeBase = true.
Proof. vm_compute. reflexivity. Qed.

(** C2.  The generated results do not obey the caps: for a query of
    200 letters without credentials and without Wikipedia, the
    endpoint answers 200 with three generated results whose titles
    have 225, 233 and 224 characters and whose snippets have 309, 309
    and 292. *)
Theorem generated_results_exceed_caps :
  let req := Server.mkSearchRequest (Some long_query) (Some 5%Z) None None in
  String.length long_query = 200%nat
  /\ exists r,
       fst (Server.search req (at_time 0) []) = Server.mkSearchReply 200 (Server.SearchOk r)
       /\ source r = "Contextual Search Results"
       /\ map (fun x => String.length (title x)) (results r) = [225; 233; 224]%nat
       /\ map (fun x => String.length (snippet x)) (results r) = [309; 309; 292]%nat
       /\ forallb within_caps (results r) = false.
Proof.
  intros req. split; [reflexivity|].
  eexists. split; [reflexivity|]. vm_compute. repeat split.
Qed.

(** ** Trimming a conversation *)

Lemma clean_long {A : Type} (xs : list A) :
  (50 < List.length xs)%nat ->
  Agent.cleanConversationMemory xs = first_and_recent 50 xs.
Proof.
  intros Hlen.
  unfold Agent.cleanConversationMemory, Agent.maxConversationLength, first_and_recent.
  destruct (_ >? _)%Z eqn:E; [|lia].
  rewrite slice_prefix by lia.
  change (- (50) + 1)%Z with (- Z.of_nat 49)%Z. rewrite slice_suffix by lia.
  reflexivity.
Qed.

Lemma clean_short {A : Type} (xs : list A) :
  (List.length xs <= 50)%nat -> Agent.cleanConversationMemory xs = xs.
Proof.
  intros Hlen. unfold Agent.cleanConversationMemory, Agent.maxConversationLength.
  destruct (_ >? _)%Z eqn:E; [lia | reflexivity].
Qed.

Lemma limit_long {A : Type} (xs : list A) :
  (50 < List.length xs)%nat ->
  Server.limit_conversation xs = (firstn 2 xs ++ skipn (List.length xs - 48) xs)%list.
Proof.
  intros Hlen. unfold Server.limit_conversation.
  destruct (50 <? List.length xs)%nat eqn:E; [|apply Nat.ltb_ge in E; lia].
  rewrite slice_prefix by lia.
  change (-48)%Z with (- Z.of_nat 48)%Z. rewrite slice_suffix by lia.
  reflexivity.
Qed.

Lemma limit_short {A : Type} (xs : list A) :
  (List.length xs <= 50)%nat -> Server.limit_conversation xs = xs.
Proof.
  intros Hlen. unfold Server.limit_conversation.
  destruct (50 <? List.length xs)%nat eqn:E; [apply Nat.ltb_lt in E; lia | reflexivity].
Qed.

(** C3, as stated, fails on the server: of 51 messages numbered from
    0, [POST /api/llm] keeps message 1 as its second one, where the
    first entry plus the most recent 49 has message 2. *)
Lemma server_keeps_first_two :
  let messages := seq 0 51 in
  (50 < List.length messages)%nat
  /\ Server.limit_conversation messages <> first_and_recent 50 messages
  /\ nth 1 (Server.limit_conversation messages) 0%nat = 1%nat
  /\ nth 1 (first_and_recent 50 messages) 0%nat = 2%nat.
Proof. vm_compute. repeat split; try lia. discriminate. Qed.

(** C3, amended.  On a list of more than 50 entries, the browser's
    [cleanConversationMemory] keeps exactly the first entry followed
    by the most recent 49, and the trimming of [POST /api/llm] keeps
    exactly the first two messages followed by the most recent 48;
    either way 50 are left. *)
Theorem trimming_keeps {A : Type} (xs : list A) :
  (50 < List.length xs)%nat ->
  Agent.cleanConversationMemory xs = first_and_recent 50 xs
  /\ Server.limit_conversation xs
     = (firstn 2 xs ++ skipn (List.length xs - 48) xs)%list
  /\ List.length (Agent.cleanConversationMemory xs) = 50%nat
  /\ List.length (Server.limit_conversation xs) = 50%nat.
Proof.
  intros Hlen. rewrite (clean_long xs Hlen), (limit_long xs Hlen).
  unfold first_and_recent.
  repeat split; rewrite length_app, length_firstn, length_skipn; lia.
Qed.

Lemma trimming_keeps_witness :
  let xs := seq 0 60 in
  (50 < List.length xs)%nat
  /\ Agent.cleanConversationMemory xs = first_and_recent 50 xs
  /\ Server.limit_conversation xs
     = (firstn 2 xs ++ skipn (List.length xs - 48) xs)%list
  /\ List.length (Agent.cleanConversationMemory xs) = 50%nat
  /\ List.length (Server.limit_conversation xs) = 50%nat.
Proof.
  intros xs.
  assert (H : (50 < List.length xs)%nat) by (cbn; lia).
  split; [exact H | apply (trimming_keeps xs H)].
Defined.

(** ** The conversation over a session *)

Lemma clean_length {A : Type} (xs : list A) :
  (List.length (Agent.cleanConversationMemory xs) <= 50)%nat.
Proof.
  destruct (Nat.le_gt_cases (List.length xs) 50) as [H|H].
  - now rewrite clean_short.
  - rewrite clean_long by exact H. unfold first_and_recent.
    rewrite length_app, length_firstn, length_skipn. lia.
Qed.

Lemma clean_head {A : Type} (xs : list A) :
  hd_error (Agent.cleanConversationMemory xs) = hd_error xs.
Proof.
  destruct (Nat.le_gt_cases (List.length xs) 50) as [H|H].
  - now rewrite clean_short.
  - rewrite clean_long by exact H. unfold first_and_recent.
    destruct xs; [cbn in H; lia | reflexivity].
Qed.

Lemma agentLoop_head provider model steps conversation e :
  hd_error conversation = Some e ->
  hd_error (fst (Agent.agentLoop provider model steps conversation)) = Some e.
Proof.
  revert conversation. induction steps as [|step later IH]; intros conversation H;
    cbn [Agent.agentLoop fst]; [exact H|].
  destruct (Agent.callLLM _ _ _ _) as [response|]; [|exact H].
  set (c := if Agent.timer step then _ else _).
  assert (Hc : hd_error c = Some e).
  { unfold c. destruct (Agent.timer step); [now rewrite clean_head | exact H]. }
  destruct (Agent.r_tool_calls response) as [|tc calls].
  - cbn [fst]. now apply app_head.
  - destruct (Agent.all_tool_results _ _ _); [|exact Hc].
    apply IH. now apply app_head.
Qed.

Lemma react_head provider model conversation event e :
  hd_error conversation = Some e ->
  hd_error (Agent.react provider model conversation event) = Some e.
Proof.
  intros H. destruct event as [text steps|]; cbn [Agent.react].
  - unfold Agent.handleUserInput. destruct (negb _); [exact H|].
    apply agentLoop_head. now apply app_head.
  - now rewrite clean_head.
Qed.

Lemma session_app provider model events1 events2 conversation :
  Agent.session provider model (events1 ++ events2) conversation
  = Agent.session provider model events2
      (Agent.session provider model events1 conversation).
Proof. unfold Agent.session. apply fold_left_app. Qed.

(** C4, as stated, fails: nothing trims the conversation when entries
    are appended.  After 25 short turns in demo mode the conversation
    has 50 entries and the cleanup interval leaves it alone; the 26th
    turn runs to its end and leaves 52 entries. *)
Lemma conversation_exceeds_cap_between_sweeps :
  let before :=
    Agent.session "openai" "gpt-4o" (repeat hello_turn 25 ++ [Agent.CleanupTick])%list [] in
  let turn :=
    Agent.handleUserInput "openai" "gpt-4o" "hello"
      [Agent.mkStep (Agent.Demo 0 0) (fun _ => Agent.Done "") false] before in
  List.length before = 50%nat
  /\ snd turn = Agent.Finished
  /\ fst turn = Agent.session "openai" "gpt-4o" [hello_turn] before
  /\ List.length (fst turn) = 52%nat
  /\ (Z.of_nat (List.length (fst turn)) > Agent.maxConversationLength)%Z.
Proof. vm_compute. repeat split. Qed.

(** C4, amended.  Whatever the user sends, whatever the model and the
    tools answer and whenever the cleanup interval fires, the first
    entry of the conversation stays the first entry; and every time
    the cleanup interval has just fired, the conversation has at most
    [maxConversationLength] entries. *)
Theorem sweep_bounds_conversation
    (provider model : string) (events : list Agent.Event)
    (conversation : Agent.Conversation) (anchor : Agent.Entry) :
  hd_error conversation = Some anchor ->
  hd_error (Agent.session provider model events conversation) = Some anchor
  /\ (Z.of_nat (List.length
        (Agent.session provider model (events ++ [Agent.CleanupTick]) conversation))
      <= Agent.maxConversationLength)%Z.
Proof.
  intros H. split.
  - revert conversation H. induction events as [|ev events IH]; intros conversation H;
      [exact H|].
    cbn [Agent.session fold_left]. apply IH. now apply react_head.
  - rewrite session_app. cbn [Agent.session fold_left Agent.react].
    pose proof (clean_length (Agent.session provider model events conversation)).
    unfold Agent.session in *. unfold Agent.maxConversationLength. lia.
Qed.

Lemma sweep_bounds_conversation_witness :
  let anchor := Agent.mkEntryOf "user" (Some "first") None None in
  let events := repeat hello_turn 30 in
  hd_error (Agent.session "openai" "gpt-4o" events [anchor]) = Some anchor
  /\ (Z.of_nat (List.length
        (Agent.session "openai" "gpt-4o" (events ++ [Agent.CleanupTick]) [anchor]))
      <= Agent.maxConversationLength)%Z.
Proof.
  intros anchor events.
  apply (sweep_bounds_conversation "openai" "gpt-4o" events [anchor] anchor).
  reflexivity.
Defined.

(** ** Tool calls in the agent loop *)

Lemma handleToolCall_id tc outcome e :
  Agent.handleToolCall tc outcome = Some e ->
  Agent.role e = "tool" /\ Agent.tool_call_id e = Some (tc_id tc).
Proof.
  unfold Agent.handleToolCall. destruct (tc_arguments tc); [|discriminate].
  destruct (if Agent.known_tool _ then _ else _); intros [= <-]; split; reflexivity.
Qed.

Lemma handleToolCall_parses tc outcome :
  parses tc = true -> exists e, Agent.handleToolCall tc outcome = Some e.
Proof.
  unfold parses, Agent.handleToolCall. destruct (tc_arguments tc); [|discriminate].
  intros _. destruct (if Agent.known_tool _ then _ else _); eexists; reflexivity.
Qed.

(** When every call of the batch has arguments that parse, the batch
    yields one tool entry per call, in the order of the calls, each
    with the id of its call, whatever the tools did. *)
Lemma batch_results calls outcomes first :
  forallb parses calls = true ->
  exists entries,
    Agent.all_tool_results calls outcomes first = Some entries
    /\ map Agent.tool_call_id entries = map (fun tc => Some (tc_id tc)) calls
    /\ Forall (fun e => Agent.role e = "tool") entries.
Proof.
  revert first. induction calls as [|tc calls IH]; intros first H; cbn.
  - exists []. repeat split. constructor.
  - cbn in H. apply andb_true_iff in H as [Htc H].
    destruct (handleToolCall_parses tc (outcomes first) Htc) as (e & He).
    destruct (IH (S first) H) as (es & Hes & Hids & Hroles).
    rewrite He, Hes. exists (e :: es).
    destruct (handleToolCall_id _ _ _ He) as [Hr Hi].
    repeat split; cbn; [now rewrite Hi, Hids | now constructor].
Qed.

(** One iteration on an answer with a batch that parses: the assistant
    entry, then the tool entries. *)
Lemma iteration_appends provider model response tools_of later conversation :
  Agent.r_tool_calls response <> [] ->
  forallb parses (Agent.r_tool_calls response) = true ->
  exists entries,
    map Agent.tool_call_id entries
      = map (fun tc => Some (tc_id tc)) (Agent.r_tool_calls response)
    /\ Forall (fun e => Agent.role e = "tool") entries
    /\ Agent.agentLoop provider model
         (Agent.mkStep (Agent.Answered response) tools_of false :: later) conversation
       = Agent.agentLoop provider model later
           (conversation ++ [Agent.assistant_entry response true] ++ entries)%list.
Proof.
  intros Hne Hp.
  destruct (batch_results _ tools_of 0 Hp) as (entries & Hr & Hids & Hroles).
  exists entries. split; [exact Hids|]. split; [exact Hroles|].
  cbn [Agent.agentLoop Agent.callLLM Agent.llm Agent.timer Agent.tools].
  destruct (Agent.r_tool_calls response) eqn:E; [contradiction|].
  now rewrite Hr.
Qed.

(** C5.  A batch of one call, with id "call_1", whose arguments are
    not JSON: [handleToolCall] is rejected before its [try], the loop
    lands in its [catch], and neither the assistant entry nor a tool
    entry for "call_1" is appended. *)
Theorem unparsable_arguments_append_nothing :
  Agent.handleToolCall broken_call (Agent.Done "{}") = None
  /\ Agent.agentLoop "openai" "gpt-4o" [broken_step] asked = (asked, Agent.Aborted).
Proof. split; reflexivity. Qed.

(** ** [POST /api/execute] *)


(** A value that cannot be written as JSON is reported as a failure,
    and a thrown string leaves the request without a response. *)
Lemma execute_bigint_and_thrown_text :
  Server.execute (Some "5n") run_bigint
  = Server.ExecuteSent 200 (Server.failure_body "Do not know how to serialize a BigInt")
  /\ Server.execute (Some "throw 'x'") run_throws_text = Server.ExecuteUncaught.
Proof. split; reflexivity. Qed.



(** ** The mock responders *)

Lemma server_mock_shape now1 now2 provider model messages :
  match Server.getMockResponse now1 provider model messages,
        Server.getMockResponse now2 provider model messages with
  | Some a, Some b =>
      Server.reply_content a = Server.reply_content b
      /\ map forget_id (Server.reply_tool_calls a)
         = map forget_id (Server.reply_tool_calls b)
      /\ Server.reply_content a <> ""
  | None, None => True
  | _, _ => False
  end.
Proof.
  unfold Server.getMockResponse.
  destruct (match match messages with [] => None | _ => _ end with
            | Some m => _ | None => _ end) as [userInput|]; [|exact I].
  repeat match goal with
         | |- context [if ?b then _ else _] => destruct b
         end; cbn [Server.reply_content Server.reply_tool_calls map forget_id
                   tc_name tc_arguments];
    (split; [reflexivity|]; split; [reflexivity|]); try discriminate.
Qed.

Lemma question_nonempty q : In q Agent.interviewResponses -> q <> "".
Proof.
  cbn. intros [H|[H|[H|[H|[H|[]]]]]]; rewrite <- H; discriminate.
Qed.

Lemma drawn_question pick :
  In (nth (pick mod List.length Agent.interviewResponses)
          Agent.interviewResponses "")
     Agent.interviewResponses.
Proof. apply nth_In. apply Nat.mod_upper_bound. discriminate. Qed.

Lemma browser_mock_shape now1 now2 pick1 pick2 provider model conversation :
  match Agent.getMockLLMResponse provider model now1 pick1 conversation,
        Agent.getMockLLMResponse provider model now2 pick2 conversation with
  | Some a, Some b =>
      map forget_id (Agent.r_tool_calls a) = map forget_id (Agent.r_tool_calls b)
      /\ (Agent.r_content a = Agent.r_content b
          \/ (follow_up_question a /\ follow_up_question b))
      /\ has_text a
  | None, None => True
  | _, _ => False
  end.
Proof.
  unfold Agent.getMockLLMResponse.
  destruct (match conversation with [] => _ | _ => _ end) as [userInput|]; [|exact I].
  cbv zeta.
  repeat match goal with
         | |- context [if ?b then _ else _] => destruct b
         end;
    cbn [Agent.r_content Agent.r_tool_calls map forget_id tc_name tc_arguments];
    (split; [reflexivity|]);
    try (split; [left; reflexivity | eexists; split; [reflexivity | discriminate]]).
  pose proof (drawn_question pick1) as H1. pose proof (drawn_question pick2) as H2.
  split.
  - right. split; (split; [reflexivity|]); eexists; (split; [|reflexivity]); assumption.
  - eexists. split; [reflexivity | now apply question_nonempty].
Qed.

(** C9, as stated, fails: on the conversation whose only entry is the
    user's "blog", the browser's mock responder answers with one
    question when the random draw is 0 and with another when it is 2,
    at the same reading of the clock. *)
Lemma browser_mock_depends_on_random :
  Agent.getMockLLMResponse "openai" "gpt-4o" 0 0 blog_talk
  = Some (Agent.mkResponseOf
            (Some "What specific angle would you like to take with this topic?") [])
  /\ Agent.getMockLLMResponse "openai" "gpt-4o" 0 2 blog_talk
     = Some (Agent.mkResponseOf
               (Some "What key message do you want readers to take away?") []).
Proof. split; reflexivity. Qed.

(** C9, amended.  The server's mock responder: two invocations on the
    same provider, model and messages either both throw or both
    answer, with the same content and the same tool calls apart from
    the ids, and the content is never empty.  The browser's mock
    responder: two invocations on the same provider, model and
    conversation either both throw or both answer, with the same tool
    calls apart from the ids, and with the same content unless both
    are answers without tool calls that carry one of the five
    follow-up questions (the one branch that draws at random); the
    content is never missing or empty. *)
Theorem mock_responders_repeatable :
  (forall now1 now2 provider model messages,
     match Server.getMockResponse now1 provider model messages,
           Server.getMockResponse now2 provider model messages with
     | Some a, Some b =>
         Server.reply_content a = Server.reply_content b
         /\ map forget_id (Server.reply_tool_calls a)
            = map forget_id (Server.reply_tool_calls b)
         /\ Server.reply_content a <> ""
     | None, None => True
     | _, _ => False
     end)
  /\ (forall now1 now2 pick1 pick2 provider model conversation,
        match Agent.getMockLLMResponse provider model now1 pick1 conversation,
              Agent.getMockLLMResponse provider model now2 pick2 conversation with
        | Some a, Some b =>
            map forget_id (Agent.r_tool_calls a) = map forget_id (Agent.r_tool_calls b)
            /\ (Agent.r_content a = Agent.r_content b
                \/ (follow_up_question a /\ follow_up_question b))
            /\ has_text a
        | None, None => True
        | _, _ => False
        end).
Proof.
  split; intros; [apply server_mock_shape | apply browser_mock_shape].
Qed.

(** ** [POST /api/llm] *)

Lemma limit_last {A : Type} (l : list A) d :
  last (Server.limit_conversation l) d = last l d.
Proof.
  destruct (Nat.le_gt_cases (List.length l) 50) as [H|H].
  - now rewrite limit_short.
  - rewrite limit_long by exact H. rewrite last_app_r.
    + apply last_skipn. lia.
    + intros E. apply (f_equal (@List.length A)) in E. rewrite length_skipn in E.
      cbn in E. lia.
Qed.


Lemma truncate_length l l' :
  Server.truncate_messages l = Some l' -> List.length l' = List.length l.
Proof.
  revert l'. induction l as [|[m|] l IH]; cbn [Server.truncate_messages]; intros l'.
  - now intros [= <-].
  - destruct (Server.truncate_messages l) as [r|]; [|discriminate].
    intros [= <-]. cbn. now rewrite (IH r).
  - discriminate.
Qed.






(** The slips next to it.  A last message without a string content
    (an assistant message with [content: null], say) makes the mock
    responder throw, in the handler's body and again in its outer
    [catch], and so does a provider that is not a string
    ([provider: 7]): the handler sends nothing. *)
Lemma llm_uncaught_on_null_content :
  let asks := Some (Server.mkMessage "assistant" None) in
  Server.llm (Server.mkLlmRequest (Server.Text "openai") "gpt-4o"
                (Server.MessageArray [hi; asks]) (Server.Text "")) quiet
  = Server.Uncaught
  /\ Server.llm (Server.mkLlmRequest Server.NotText "gpt-4o"
                   (Server.MessageArray [hi]) Server.Missing) quiet
     = Server.Uncaught.
Proof. split; reflexivity. Qed.


(** So it does with a credential that is not a string ([apiKey:
    12345]), on which [apiKey.trim()] throws outside the inner [try],
    and with messages that are not an array ([messages: 7]). *)
Lemma llm_answers_500_on_numeric_key :
  (exists answer,
     Server.llm (Server.mkLlmRequest (Server.Text "openai") "gpt-4o"
                   (Server.MessageArray [hi]) Server.NotText) quiet
     = Server.Sent 500 (Server.LlmChoices answer))
  /\ (exists answer,
        Server.llm (Server.mkLlmRequest (Server.Text "openai") "gpt-4o"
                      (Server.NotArray None) (Server.Text "")) quiet
        = Server.Sent 500 (Server.LlmChoices answer)).
Proof. split; eexists; reflexivity. Qed.




(* ================================================================= *)
(** * Further properties of the two programs *)

(** ** More on [POST /api/search] *)

Lemma clamp_range n : (1 <= Server.clamp_num_results n <= 10)%Z.
Proof. unfold Server.clamp_num_results, Server.MAX_RESULTS. lia. Qed.

Lemma slice_prefix_length {A : Type} (k : Z) (xs : list A) :
  (0 <= k)%Z ->
  List.length (Js.slice 0 (Some k) xs) = Nat.min (Z.to_nat k) (List.length xs).
Proof. intros H. rewrite slice_prefix by exact H. apply length_firstn. Qed.

Lemma set_in k v m kv : In kv (JsMap.set k v m) -> kv = (k, v) \/ In kv m.
Proof.
  induction m as [|[k' v'] m IH]; cbn.
  - intros [<-|[]]. now left.
  - destruct (k =? k'); cbn; intros [<-|H]; auto.
    destruct (IH H); auto.
Qed.

Lemma knowledge_base_three :
  forallb (fun topic => (List.length (snd topic) =? 3)%nat) Server.knowledgeBase = true.
Proof. vm_compute. reflexivity. Qed.

Lemma contextual_count query n :
  (1 <= n <= 10)%Z ->
  (1 <= List.length (Server.generateContextualResults query n) <= Z.to_nat n)%nat.
Proof.
  intros Hn. unfold Server.generateContextualResults. cbv zeta.
  rewrite slice_prefix_length by lia.
  rewrite !length_app. cbn [List.length]. lia.
Qed.

Lemma knowledge_count iso query n :
  (1 <= n <= 10)%Z ->
  (1 <= List.length (results (Server.getKnowledgeBaseResults iso query n))
   <= Z.to_nat n)%nat.
Proof.
  intros Hn. unfold Server.getKnowledgeBaseResults.
  destruct (find _ _) as [[topic found]|] eqn:F; cbn [results].
  - apply find_some in F as [Hin _].
    pose proof knowledge_base_three as H3. rewrite forallb_forall in H3.
    specialize (H3 _ Hin). cbn in H3. apply Nat.eqb_eq in H3.
    rewrite slice_prefix_length by lia. lia.
  - now apply contextual_count.
Qed.

Lemma fallback_count wiki iso query n :
  (1 <= n <= 10)%Z ->
  (1 <= List.length (results (Server.performFallbackSearch wiki iso query n))
   <= Z.to_nat n)%nat.
Proof.
  intros Hn. unfold Server.performFallbackSearch.
  destruct (Server.tryWikipediaSearch wiki query); [|now apply knowledge_count].
  cbn [results]. rewrite slice_prefix_length by lia. cbn [List.length]. lia.
Qed.

Lemma google_count reply iso k e query n r :
  (1 <= n <= 10)%Z ->
  Server.performGoogleSearch reply iso k e query n = Some r ->
  (1 <= List.length (results r) <= Z.to_nat n)%nat.
Proof.
  intros Hn. unfold Server.performGoogleSearch.
  destruct (_ || _); [discriminate|]. destruct (_ || _); [discriminate|].
  destruct reply as [g|]; [|discriminate].
  destruct (Server.items g) as [|i0 rest]; [discriminate|].
  intros [= <-]. cbn [results]. rewrite slice_prefix_length by lia.
  cbn [map List.length]. lia.
Qed.

(** What the second half of the handler answers has between one
    result and ten, and it stores that answer or nothing. *)
Lemma settle_count p w cache :
  (1 <= Server.p_count p <= 10)%Z ->
  match Server.search_body (fst (Server.search_settle p w cache)) with
  | Server.SearchOk r =>
      Server.search_status (fst (Server.search_settle p w cache)) = 200%Z
      /\ (1 <= List.length (results r) <= 10)%nat
      /\ (snd (Server.search_settle p w cache) = cache
          \/ snd (Server.search_settle p w cache)
             = JsMap.set (Server.p_key p) (mkEntry r (Server.t_store w)) cache)
  | Server.SearchUnanswered => snd (Server.search_settle p w cache) = cache
  | Server.SearchError _ => False
  end.
Proof.
  intros Hn. unfold Server.search_settle.
  destruct (match Server.uri w with Server.Encodes => _ | _ => _ end)
    as [g|] eqn:G.
  - cbn [fst snd Server.search_body Server.search_status].
    split; [reflexivity|]. split; [|now right].
    destruct (Server.uri w); [|discriminate..].
    destruct (Server.p_credentials p) as [[k e]|]; [|discriminate].
    pose proof (google_count _ _ _ _ _ _ _ Hn G). lia.
  - clear G. assert (F : forall wiki,
               (1 <= List.length (results (Server.performFallbackSearch wiki
                       (Server.iso_now w) (Server.p_query p) (Server.p_count p))) <= 10)%nat).
    { intros wiki. pose proof (fallback_count wiki (Server.iso_now w) (Server.p_query p)
                                 (Server.p_count p) Hn). lia. }
    destruct (Server.uri w);
      [|destruct (Server.reaches_generated _)..];
      cbn [fst snd Server.search_body Server.search_status];
      try (split; [reflexivity|]; split; [apply F | now right]).
    + split; [reflexivity|]. split; [cbn; lia | now left].
    + reflexivity.
Qed.

Lemma swept_well_stocked now cache :
  well_stocked cache -> well_stocked (Server.cleanCache now cache).
Proof.
  intros H kv Hin. apply H. unfold Server.cleanCache in Hin.
  apply sweep_incl in Hin. eapply drop_expired_incl; exact Hin.
Qed.

(** One request: the answer, if one is sent, is plausible, and the
    cache stays well stocked. *)
Lemma search_step req w cache :
  well_stocked cache ->
  (Server.search_body (fst (Server.search req w cache)) = Server.SearchUnanswered
   \/ plausible_reply (fst (Server.search req w cache)))
  /\ well_stocked (snd (Server.search req w cache)).
Proof.
  intros Hinv.
  destruct (Server.query req) as [raw|] eqn:Hq;
    [|rewrite search_rejected by (now left); split; [right; reflexivity | exact Hinv]].
  destruct (Js.truthy raw) eqn:Ht;
    [|apply truthy_or_empty in Ht; subst raw;
      rewrite search_rejected by (now right); split; [right; reflexivity | exact Hinv]].
  destruct (lookup Server.CACHE_TTL (Server.t_lookup w) (key_of req raw)
              (Server.cleanCache (Server.t_sweep w) cache)) as [hit|] eqn:L.
  - rewrite (search_hit _ _ _ _ _ Hq Ht L). cbn [fst snd]. split.
    + right. destruct (lookup_fresh _ _ _ _ _ L) as (e & Hin & -> & _).
      unfold plausible_reply. cbn. split; [reflexivity|].
      apply (swept_well_stocked _ _ Hinv (key_of req raw, e) Hin).
    + now apply swept_well_stocked.
  - rewrite (search_miss _ _ _ _ Hq Ht L).
    pose proof (settle_count (pending_of req raw) w
                  (Server.cleanCache (Server.t_sweep w) cache)
                  (clamp_range (Server.num_results req))) as H.
    pose proof (swept_well_stocked (Server.t_sweep w) _ Hinv) as Hswept.
    destruct (Server.search_settle _ _ _) as [[status body] cache1].
    cbn [fst snd Server.search_body Server.search_status] in *.
    destruct body as [err|r|]; [contradiction| |].
    + destruct H as (-> & Hr & Hcache). split.
      * right. unfold plausible_reply. cbn. now split.
      * destruct Hcache as [->| ->]; [exact Hswept|].
        intros kv Hin. apply set_in in Hin as [->|Hin]; [exact Hr | now apply Hswept].
    + split; [now left|]. now rewrite H.
Qed.

(** X1.  Whatever requests [POST /api/search] receives, in whatever
    order and whatever the clock, Google and Wikipedia do, every
    answer of a server that started with an empty cache is either the
    rejection with status 400 or a 200 whose [results] hold at least
    one and at most ten entries. *)
Theorem served_results_between_one_and_ten
    (calls : list (Server.SearchRequest * Server.SearchWorld)) :
  Forall plausible_reply (fst (serve calls [])).
Proof.
  assert (H : forall cache, well_stocked cache ->
                Forall plausible_reply (fst (serve calls cache))).
  { induction calls as [|[req w] later IH]; intros cache Hinv; cbn [serve].
    - constructor.
    - destruct (search_step req w cache Hinv) as [Hr Hc].
      destruct (Server.search req w cache) as [reply cache1]. cbn [fst snd] in *.
      specialize (IH cache1 Hc). destruct (serve later cache1) as [replies cache2].
      cbn [fst] in *.
      destruct Hr as [Hr|Hr]; [now rewrite Hr|].
      destruct (Server.search_body reply) eqn:B; [now constructor..|].
      unfold plausible_reply in Hr. now rewrite B in Hr. }
  apply H. intros kv [].
Qed.

(** ** The size of the server's cache while requests wait *)

Lemma set_length k v m : (List.length (JsMap.set k v m) <= S (List.length m))%nat.
Proof.
  induction m as [|[k' v'] m IH]; cbn; [lia|].
  destruct (k =? k'); cbn; lia.
Qed.

Lemma start_cases req w cache :
  (Server.search_start req w cache
   = (Server.Replied (Server.mkSearchReply 400 (Server.SearchError "Valid query is required")),
      cache))
  \/ exists s, Server.search_start req w cache
                = (s, Server.cleanCache (Server.t_sweep w) cache).
Proof.
  unfold Server.search_start.
  destruct (Server.query req) as [raw|]; [|now left].
  destruct (negb (Js.truthy raw)); [now left|].
  right. destruct (lookup _ _ _ _); eexists; reflexivity.
Qed.

Lemma settle_cache p w cache :
  NoDup (JsMap.keys cache) ->
  NoDup (JsMap.keys (snd (Server.search_settle p w cache)))
  /\ (JsMap.size (snd (Server.search_settle p w cache)) <= JsMap.size cache + 1)%Z.
Proof.
  intros Hnd.
  assert (S : forall r,
             NoDup (JsMap.keys (JsMap.set (Server.p_key p) (mkEntry r (Server.t_store w)) cache))
             /\ (JsMap.size (JsMap.set (Server.p_key p) (mkEntry r (Server.t_store w)) cache)
                 <= JsMap.size cache + 1)%Z).
  { intros r. split; [now apply set_nodup|].
    pose proof (set_length (Server.p_key p) (mkEntry r (Server.t_store w)) cache).
    unfold JsMap.size. lia. }
  destruct (settle_cases p w cache) as [(r & -> & _)|[[_ ->]|[_ ->]]]; cbn [snd];
    [apply S | split; [exact Hnd | lia]..].
Qed.

(** One event keeps the sum of the entries and the requests that
    wait under the cap plus [k], as long as no more than [k] requests
    wait afterwards. *)
Lemma happen_bound (k : nat) (d : Desk) (e : SearchEvent) :
  NoDup (JsMap.keys (desk_cache d)) ->
  (JsMap.size (desk_cache d) + Z.of_nat (List.length (waiting d))
   <= Server.MAX_CACHE_SIZE + Z.of_nat k)%Z ->
  (List.length (waiting (happen d e)) <= k)%nat ->
  NoDup (JsMap.keys (desk_cache (happen d e)))
  /\ (JsMap.size (desk_cache (happen d e)) + Z.of_nat (List.length (waiting (happen d e)))
      <= Server.MAX_CACHE_SIZE + Z.of_nat k)%Z.
Proof.
  intros Hnd Hsum Hk.
  assert (Hmax : (0 <= Server.MAX_CACHE_SIZE)%Z) by (unfold Server.MAX_CACHE_SIZE; lia).
  destruct e as [req w|i w]; cbn [happen] in *.
  - destruct (start_cases req w (desk_cache d)) as [E|(s & E)]; rewrite E in *.
    + now split.
    + assert (Hnd1 : NoDup (JsMap.keys (Server.cleanCache (Server.t_sweep w) (desk_cache d))))
        by now apply sweep_nodup.
      assert (Hs1 : (JsMap.size (Server.cleanCache (Server.t_sweep w) (desk_cache d))
                     <= Server.MAX_CACHE_SIZE)%Z) by now apply sweep_size.
      destruct s as [reply|p]; cbn [desk_cache waiting] in *; (split; [exact Hnd1 | lia]).
  - destruct (nth_error (waiting d) i) as [p|] eqn:N; [|now split].
    cbn [desk_cache waiting] in *.
    destruct (settle_cache p w (desk_cache d) Hnd) as [Hnd1 Hs1].
    split; [exact Hnd1|].
    assert (Hi : (i < List.length (waiting d))%nat).
    { apply nth_error_Some. rewrite N. discriminate. }
    rewrite length_app, length_firstn, length_skipn. lia.
Qed.

Lemma most_waiting_first events d :
  (List.length (waiting d) <= most_waiting events d)%nat.
Proof. destruct events; cbn [most_waiting]; lia. Qed.

Lemma run_desk_bound (k : nat) (events : list SearchEvent) (d : Desk) :
  NoDup (JsMap.keys (desk_cache d)) ->
  (JsMap.size (desk_cache d) + Z.of_nat (List.length (waiting d))
   <= Server.MAX_CACHE_SIZE + Z.of_nat k)%Z ->
  (most_waiting events d <= k)%nat ->
  (JsMap.size (desk_cache (run_desk events d))
   + Z.of_nat (List.length (waiting (run_desk events d)))
   <= Server.MAX_CACHE_SIZE + Z.of_nat k)%Z.
Proof.
  revert d. induction events as [|e later IH]; intros d Hnd Hsum Hk; [exact Hsum|].
  cbn [run_desk fold_left most_waiting] in *.
  pose proof (most_waiting_first later (happen d e)) as Hfirst.
  destruct (happen_bound k d e Hnd Hsum) as [Hnd1 Hsum1]; [lia|].
  apply IH; [exact Hnd1 | exact Hsum1 | lia].
Qed.

(** When every request ends before the next one arrives, the events
    leave the cache of [serve], and at most one request waits at a
    time. *)
Lemma one_by_one_serve calls cache :
  run_desk (one_by_one calls) (mkDesk cache []) = mkDesk (snd (serve calls cache)) []
  /\ (most_waiting (one_by_one calls) (mkDesk cache []) <= 1)%nat.
Proof.
  revert cache. induction calls as [|[req w] later IH]; intros cache;
    [split; [reflexivity | cbn; lia]|].
  cbn [one_by_one run_desk fold_left most_waiting serve].
  unfold Server.search.
  destruct (Server.search_start req w cache) as [[reply|p] cache1] eqn:E;
    cbn [happen desk_cache waiting]; rewrite E; cbn [desk_cache waiting app nth_error].
  - destruct (IH cache1) as [IH1 IH2]. unfold run_desk in IH1.
    destruct (serve later cache1) as [replies cache2]. cbn [snd] in *.
    split; [exact IH1|]. cbn [List.length]. lia.
  - cbn [firstn skipn app].
    destruct (Server.search_settle p w cache1) as [reply cache2]. cbn [snd].
    destruct (IH cache2) as [IH1 IH2]. unfold run_desk in IH1.
    destruct (serve later cache2) as [replies cache3]. cbn [snd] in *.
    split; [exact IH1|]. cbn [List.length]. lia.
Qed.

(** X2.  However the requests to [POST /api/search] arrive and end
    on a server that started with an empty cache, each handled up to
    its first [await] when it arrives and from there to its end when
    Google and Wikipedia have answered, the cache never holds more
    entries than [MAX_CACHE_SIZE] plus the largest number of requests
    that waited at one time: [cleanCache] runs when a request arrives,
    and each request that waits stores one entry at most.  When every
    request ends before the next one arrives that is one entry above
    the cap. *)
Theorem cache_exceeds_cap_by_requests_waiting (events : list SearchEvent)
    (calls : list (Server.SearchRequest * Server.SearchWorld)) :
  (JsMap.size (desk_cache (run_desk events new_desk))
   <= Server.MAX_CACHE_SIZE + Z.of_nat (most_waiting events new_desk))%Z
  /\ (JsMap.size (snd (serve calls [])) <= Server.MAX_CACHE_SIZE + 1)%Z.
Proof.
  assert (B : forall evs k, (most_waiting evs new_desk <= k)%nat ->
                (JsMap.size (desk_cache (run_desk evs new_desk))
                 <= Server.MAX_CACHE_SIZE + Z.of_nat k)%Z).
  { intros evs k Hk.
    pose proof (run_desk_bound k evs new_desk) as H. cbn [new_desk desk_cache waiting] in H.
    specialize (H (NoDup_nil _)).
    assert (Hmax : (0 <= Server.MAX_CACHE_SIZE)%Z) by (unfold Server.MAX_CACHE_SIZE; lia).
    unfold JsMap.size in *. cbn [List.length] in H. lia. }
  split; [now apply B|].
  destruct (one_by_one_serve calls []) as [E Hk].
  specialize (B (one_by_one calls) 1%nat Hk). unfold new_desk in B.
  rewrite E in B. exact B.
Qed.

(** ** The length of generated results *)

Lemma append_length (a b : string) :
  String.length (a ++ b) = (String.length a + String.length b)%nat.
Proof. induction a as [|c a IH]; cbn; [reflexivity | now rewrite IH]. Qed.

Lemma firstn_forall {A : Type} (P : A -> Prop) n (l : list A) :
  Forall P l -> Forall P (firstn n l).
Proof.
  intros H. apply Forall_forall. intros x Hx. rewrite Forall_forall in H.
  apply H. eapply in_firstn; exact Hx.
Qed.

Lemma contextual_lengths query n :
  (0 <= n)%Z ->
  Forall (fun r => (String.length (title r) <= String.length query + 33)%nat
                   /\ (String.length (snippet r) <= String.length query + 109)%nat)
         (Server.generateContextualResults query n).
Proof.
  intros Hn. unfold Server.generateContextualResults. cbv zeta.
  rewrite slice_prefix by exact Hn. apply firstn_forall.
  repeat match goal with
         | |- context [if ?b then _ else _] => destruct b
         end;
    cbn [app]; repeat constructor; cbn [title snippet];
    rewrite ?append_length; cbn [String.length]; lia.
Qed.

(** X3.  For the query as the search handler cuts it (trimmed, at
    most 200 characters) and the count as it clamps it, every result
    of [getKnowledgeBaseResults] has a title of at most 233 characters
    and a snippet of at most 309. *)
Theorem fallback_lengths_bounded (iso raw : string) (n : option Z) :
  let query := Js.take Server.MAX_QUERY_LENGTH (Js.trim raw) in
  Forall (fun r => (String.length (title r) <= 233)%nat
                   /\ (String.length (snippet r) <= 309)%nat)
         (results (Server.getKnowledgeBaseResults iso query
                     (Server.clamp_num_results n))).
Proof.
  intros query. pose proof (clamp_range n) as Hn.
  assert (Hq : (String.length query <= 200)%nat) by apply take_length.
  unfold Server.getKnowledgeBaseResults.
  destruct (find _ _) as [[topic found]|] eqn:F; cbn [results].
  - apply find_some in F as [Hin _].
    pose proof knowledge_base_within_caps as Hc. rewrite forallb_forall in Hc.
    specialize (Hc _ Hin). cbn [snd] in Hc.
    rewrite slice_prefix by lia. apply firstn_forall.
    apply Forall_forall. intros r Hr. rewrite forallb_forall in Hc.
    specialize (Hc r Hr). unfold within_caps in Hc.
    apply andb_true_iff in Hc as [Ht Hs].
    apply Nat.leb_le in Ht, Hs. lia.
  - eapply Forall_impl; [|apply contextual_lengths; lia].
    cbn beta. intros r [Ht Hs]. lia.
Qed.

(** ** What [POST /api/llm] passes on *)

Lemma truncate_shape l l' :
  Server.truncate_messages l = Some l' ->
  Forall (content_within 8000) l' /\ map role_of l' = map role_of l.
Proof.
  revert l'. induction l as [|[m|] l IH]; cbn [Server.truncate_messages]; intros l'.
  - intros [= <-]. split; [constructor | reflexivity].
  - destruct (Server.truncate_messages l) as [r|]; [|discriminate].
    intros [= <-]. destruct (IH r eq_refl) as [Hc Hr]. split.
    + constructor; [|exact Hc]. unfold content_within. cbn.
      destruct (Server.content m); [apply take_length | exact I].
    + cbn. now rewrite Hr.
  - discriminate.
Qed.

Lemma limit_length {A : Type} (xs : list A) :
  List.length (Server.limit_conversation xs) = Nat.min (List.length xs) 50.
Proof.
  destruct (Nat.le_gt_cases (List.length xs) 50) as [H|H].
  - rewrite limit_short by exact H. lia.
  - rewrite limit_long by exact H.
    rewrite length_app, length_firstn, length_skipn. lia.
Qed.

Lemma truncate_last_message l l' :
  Server.truncate_messages l = Some l' ->
  last l' None = match last l None with
                 | Some m => Some (Server.mkMessage (Server.role m)
                                     (option_map (Js.take 8000) (Server.content m)))
                 | None => None
                 end.
Proof.
  revert l'. induction l as [|[m|] l IH]; cbn [Server.truncate_messages]; intros l'.
  - now intros [= <-].
  - destruct (Server.truncate_messages l) as [r|] eqn:E; [|discriminate].
    intros [= <-]. pose proof (truncate_length _ _ E) as Hlen.
    specialize (IH r eq_refl).
    destruct l as [|y l], r as [|y' r]; try discriminate.
    + cbn. now destruct (Server.content m).
    + now rewrite !last_cons_cons.
  - discriminate.
Qed.

(** X4.  When [POST /api/llm] gets through the limiting and the
    cutting of the messages, it passes on as many messages as it
    received, but 50 at most; every message is an object whose string
    content has at most 8000 characters; the roles are those of the
    limited list, in order; and the last message is the last one
    received, with its content cut. *)
Theorem prepared_messages_bounded
    (received msgs : list (option Server.Message)) :
  prepared received = Some msgs ->
  List.length msgs = Nat.min (List.length received) 50
  /\ Forall (content_within 8000) msgs
  /\ map role_of msgs = map role_of (Server.limit_conversation received)
  /\ last msgs None = match last received None with
                      | Some m => Some (Server.mkMessage (Server.role m)
                                          (option_map (Js.take 8000) (Server.content m)))
                      | None => None
                      end.
Proof.
  unfold prepared. intros H.
  destruct (truncate_shape _ _ H) as [Hc Hr].
  split; [now rewrite (truncate_length _ _ H), limit_length|].
  split; [exact Hc|]. split; [exact Hr|].
  rewrite (truncate_last_message _ _ H). now rewrite limit_last.
Qed.

Lemma prepared_messages_bounded_witness :
  let received := repeat hi 60 in
  exists msgs,
    prepared received = Some msgs
    /\ List.length msgs = Nat.min (List.length received) 50
    /\ Forall (content_within 8000) msgs.
Proof.
  intros received. exists (repeat hi 50).
  assert (H : prepared received = Some (repeat hi 50)) by reflexivity.
  split; [exact H|].
  destruct (prepared_messages_bounded received (repeat hi 50) H) as (Hl & Hc & _).
  split; [exact Hl | exact Hc].
Defined.

(** ** The tool calls of the mock responders *)

Lemma or_default_nonempty v d : d <> "" -> Js.or_default v d <> "".
Proof.
  intros Hd. unfold Js.or_default. destruct v as [s|]; [|exact Hd].
  unfold Js.truthy. destruct (s =? "") eqn:E; cbn; [exact Hd|].
  now apply String.eqb_neq.
Qed.

Lemma server_mock_calls now provider model messages a :
  Server.getMockResponse now provider model messages = Some a ->
  (List.length (Server.reply_tool_calls a) <= 1)%nat
  /\ Forall dispatchable (Server.reply_tool_calls a)
  /\ Forall (fun tc => tc_name tc = "google_search" -> has_query tc)
            (Server.reply_tool_calls a).
Proof.
  unfold Server.getMockResponse.
  destruct (match match messages with [] => None | _ => _ end with
            | Some m => _ | None => _ end) as [userInput|]; [|discriminate].
  repeat match goal with
         | |- context [if ?b then _ else _] => destruct b
         end; intros [= <-]; cbn [Server.reply_tool_calls List.length].
  all: split; [lia|]; split; repeat (first [apply Forall_nil | apply Forall_cons]).
  all: try (split; [reflexivity | cbn; tauto]).
  all: try (cbn; intros E; discriminate E).
  intros _. eexists _, _. split; [reflexivity|]. split; [reflexivity|].
  refine (or_default_nonempty
            (Some (Server.extractSearchTermFromInput userInput)) "information" _).
  discriminate.
Qed.

Lemma browser_mock_calls provider model now pick conversation r :
  Agent.getMockLLMResponse provider model now pick conversation = Some r ->
  (List.length (Agent.r_tool_calls r) <= 1)%nat
  /\ Forall dispatchable (Agent.r_tool_calls r)
  /\ has_text r.
Proof.
  intros H.
  pose proof (browser_mock_shape now now pick pick provider model conversation) as S.
  rewrite H in S. destruct S as (_ & _ & Htext).
  revert H. unfold Agent.getMockLLMResponse.
  destruct (match conversation with [] => _ | _ => _ end) as [userInput|];
    [|discriminate].
  cbv zeta.
  repeat match goal with
         | |- context [if ?b then _ else _] => destruct b
         end; intros [= <-]; cbn [Agent.r_tool_calls List.length].
  all: split; [lia|]; split; [|exact Htext];
    repeat (first [apply Forall_nil | apply Forall_cons]).
  all: split; [reflexivity | cbn; tauto].
Qed.

(** X5.  An answer of the server's mock responder carries at most
    one tool call; the call names one of the three tools of the page,
    its arguments are JSON that parses, and a [google_search] call
    has a query that is not empty. *)
Theorem server_mock_calls_dispatchable
    (now : Z) (provider model : string) (messages : list (option Server.Message))
    (a : Server.Assistant) :
  Server.getMockResponse now provider model messages = Some a ->
  (List.length (Server.reply_tool_calls a) <= 1)%nat
  /\ Forall dispatchable (Server.reply_tool_calls a)
  /\ Forall (fun tc => tc_name tc = "google_search" -> has_query tc)
            (Server.reply_tool_calls a).
Proof. apply server_mock_calls. Qed.

Lemma server_mock_calls_dispatchable_witness :
  exists a,
    Server.getMockResponse 0 "openai" "gpt-4" [search_request] = Some a
    /\ (List.length (Server.reply_tool_calls a) <= 1)%nat
    /\ Forall dispatchable (Server.reply_tool_calls a)
    /\ Forall (fun tc => tc_name tc = "google_search" -> has_query tc)
              (Server.reply_tool_calls a).
Proof.
  eexists. split; [vm_compute; reflexivity|].
  apply (server_mock_calls_dispatchable 0 "openai" "gpt-4" [search_request]).
  vm_compute. reflexivity.
Defined.

(** X6.  An answer of the browser's mock responder carries at
    most one tool call; the call names one of the three tools of
    [initializeTools], its arguments parse, and the answer has a text
    that is not empty. *)
Theorem browser_mock_calls_dispatchable
    (provider model : string) (now : Z) (pick : nat)
    (conversation : Agent.Conversation) (r : Agent.Response) :
  Agent.getMockLLMResponse provider model now pick conversation = Some r ->
  (List.length (Agent.r_tool_calls r) <= 1)%nat
  /\ Forall dispatchable (Agent.r_tool_calls r)
  /\ has_text r.
Proof. apply browser_mock_calls. Qed.

Lemma browser_mock_calls_dispatchable_witness :
  exists r,
    Agent.getMockLLMResponse "openai" "gpt-4" 0 0
      [Agent.mkEntryOf "user" (Some "run some code") None None] = Some r
    /\ (List.length (Agent.r_tool_calls r) <= 1)%nat
    /\ Forall dispatchable (Agent.r_tool_calls r)
    /\ has_text r.
Proof.
  eexists. split; [vm_compute; reflexivity|].
  apply (browser_mock_calls_dispatchable "openai" "gpt-4" 0 0
           [Agent.mkEntryOf "user" (Some "run some code") None None]).
  vm_compute. reflexivity.
Defined.

(** ** Turns in demo mode *)

Lemma clean_forall {A : Type} (P : A -> Prop) (xs : list A) :
  Forall P xs -> Forall P (Agent.cleanConversationMemory xs).
Proof.
  intros H. apply Forall_forall. intros x Hx. rewrite Forall_forall in H. apply H.
  destruct (Nat.le_gt_cases (List.length xs) 50) as [Hl|Hl].
  - now rewrite clean_short in Hx.
  - rewrite clean_long in Hx by exact Hl. unfold first_and_recent in Hx.
    apply in_app_or in Hx as [Hx|Hx]; [eapply in_firstn | eapply in_skipn]; exact Hx.
Qed.

Lemma last_cons_default {A : Type} (x e : A) (rest : list A) :
  last (x :: rest) e = last rest x.
Proof.
  revert x e. induction rest as [|y rest IH]; intros x e; [reflexivity|].
  rewrite last_cons_cons, (IH y e). symmetry. apply IH.
Qed.

Lemma last_in {A : Type} (e : A) (rest : list A) : In (last rest e) (e :: rest).
Proof.
  revert e. induction rest as [|x rest IH]; intros e; [now left|].
  right. rewrite last_cons_default. apply IH.
Qed.

Lemma browser_mock_defined provider model now pick conversation :
  spoken conversation ->
  exists r, Agent.getMockLLMResponse provider model now pick conversation = Some r.
Proof.
  intros Hs. unfold Agent.getMockLLMResponse.
  assert (Hu : exists u,
             match conversation with
             | [] => Some ""
             | e :: rest =>
                 match Agent.content (last rest e) with
                 | Some c => Some (Js.toLowerCase c)
                 | None => None
                 end
             end = Some u).
  { destruct conversation as [|e rest]; [now eexists|].
    unfold spoken in Hs. rewrite Forall_forall in Hs.
    specialize (Hs _ (last_in e rest)).
    destruct (Agent.content (last rest e)); [now eexists | contradiction]. }
  destruct Hu as (u & ->). cbv zeta.
  repeat match goal with
         | |- context [if ?b then _ else _] => destruct b
         end; eexists; reflexivity.
Qed.

Lemma handleToolCall_spoken tc outcome e :
  Agent.handleToolCall tc outcome = Some e -> Agent.content e <> None.
Proof.
  unfold Agent.handleToolCall. destruct (tc_arguments tc); [|discriminate].
  destruct (if Agent.known_tool _ then _ else _); intros [= <-]; discriminate.
Qed.

Lemma batch_spoken calls outcomes first entries :
  Agent.all_tool_results calls outcomes first = Some entries -> spoken entries.
Proof.
  revert first entries. induction calls as [|tc calls IH]; intros first entries; cbn.
  - intros [= <-]. constructor.
  - destruct (Agent.handleToolCall tc (outcomes first)) as [e|] eqn:He; [|discriminate].
    destruct (Agent.all_tool_results calls outcomes (S first)) as [es|] eqn:Hes;
      [|discriminate].
    intros [= <-]. constructor; [eapply handleToolCall_spoken; exact He|].
    eapply IH; exact Hes.
Qed.

Lemma dispatchable_parses calls :
  Forall dispatchable calls -> forallb parses calls = true.
Proof.
  intros H. apply forallb_forall. intros tc Hin. rewrite Forall_forall in H.
  now destruct (H tc Hin).
Qed.

Lemma demo_loop_never_aborts provider model steps conversation :
  Forall demo_step steps -> spoken conversation ->
  snd (Agent.agentLoop provider model steps conversation) <> Agent.Aborted
  /\ spoken (fst (Agent.agentLoop provider model steps conversation)).
Proof.
  intros Hsteps. revert conversation.
  induction Hsteps as [|step later (now & pick & Hllm) Hlater IH];
    intros conversation Hs; cbn [Agent.agentLoop].
  - split; [discriminate | exact Hs].
  - rewrite Hllm. cbn [Agent.callLLM].
    destruct (browser_mock_defined provider model now pick conversation Hs) as (r & Hr).
    rewrite Hr.
    destruct (browser_mock_calls _ _ _ _ _ _ Hr) as (_ & Hd & (text & Ht & _)).
    set (c := if Agent.timer step then _ else _).
    assert (Hc : spoken c).
    { unfold c. destruct (Agent.timer step); [now apply clean_forall | exact Hs]. }
    destruct (Agent.r_tool_calls r) as [|tc calls] eqn:Ecalls.
    + cbn [fst snd]. split; [discriminate|].
      apply Forall_app. split; [exact Hc|]. constructor; [|constructor].
      unfold Agent.assistant_entry. cbn. rewrite Ht. discriminate.
    + destruct (batch_results (tc :: calls) (Agent.tools step) 0
                  (dispatchable_parses _ Hd)) as (entries & He & _).
      rewrite He. apply IH.
      apply Forall_app. split; [exact Hc|].
      constructor.
      * unfold Agent.assistant_entry. cbn. rewrite Ht. discriminate.
      * eapply batch_spoken; exact He.
Qed.

(** X7.  In demo mode (no API key, so that every iteration is
    answered by the mock responder) a turn started by [handleUserInput]
    on a conversation whose entries all have a string content never
    ends in the [catch] of [agentLoop], whatever the tools return, and
    every entry of the conversation it leaves has a string content
    again. *)
Theorem demo_turn_never_aborts
    (provider model text : string) (steps : list Agent.Step)
    (conversation : Agent.Conversation) :
  Forall demo_step steps ->
  spoken conversation ->
  snd (Agent.handleUserInput provider model text steps conversation) <> Agent.Aborted
  /\ spoken (fst (Agent.handleUserInput provider model text steps conversation)).
Proof.
  intros Hsteps Hs. unfold Agent.handleUserInput.
  destruct (negb _); [split; [discriminate | exact Hs]|].
  apply demo_loop_never_aborts; [exact Hsteps|].
  apply Forall_app. split; [exact Hs|]. constructor; [discriminate | constructor].
Qed.

(** On a last entry whose text keeps the search going, the browser's
    mock responder asks for exactly one [google_search]. *)
Lemma searching_mock provider model now pick conversation e text :
  conversation <> [] ->
  last conversation e = e ->
  Agent.content e = Some text ->
  keeps_searching text = true ->
  exists r args,
    Agent.getMockLLMResponse provider model now pick conversation = Some r
    /\ Agent.r_tool_calls r
       = [mkCall (Server.demo_id now) "google_search" (ArgsObject args)].
Proof.
  intros Hne Hlast Hc Hk. unfold keeps_searching in Hk. cbv zeta in Hk.
  apply andb_true_iff in Hk as [Hk Hcont]. apply andb_true_iff in Hk as [Hk Hnext].
  apply andb_true_iff in Hk as [Hsearch Hint].
  apply negb_true_iff in Hcont, Hnext, Hint.
  unfold Agent.getMockLLMResponse.
  destruct conversation as [|e0 rest]; [contradiction|].
  rewrite <- last_cons_default with (e := e). rewrite Hlast, Hc. cbv zeta.
  unfold Agent.has. rewrite Hint, Hnext, Hcont, Hsearch. cbn [andb orb].
  repeat match goal with
         | |- context [if ?b then _ else _] => destruct b
         end; eexists _, _; split; reflexivity.
Qed.

Lemma last_snoc {A : Type} (xs : list A) (x d : A) : last (xs ++ [x]) d = x.
Proof. apply last_last. Qed.

Lemma demo_search_loops provider model steps conversation e text :
  Forall searching_step steps ->
  conversation <> [] ->
  last conversation e = e ->
  Agent.content e = Some text ->
  keeps_searching text = true ->
  snd (Agent.agentLoop provider model steps conversation) = Agent.Looping.
Proof.
  intros Hsteps. revert conversation e text.
  induction Hsteps as [|step later ((now & pick & Hllm) & json & Htool & Hjson) Hlater IH];
    intros conversation e text Hne Hlast Hc Hk; cbn [Agent.agentLoop]; [reflexivity|].
  rewrite Hllm. cbn [Agent.callLLM].
  destruct (searching_mock provider model now pick conversation e text Hne Hlast Hc Hk)
    as (r & args & -> & Hcalls).
  rewrite Hcalls. cbn [Agent.all_tool_results]. unfold Agent.handleToolCall.
  cbn [tc_arguments tc_name]. rewrite Htool.
  change (Agent.known_tool "google_search") with true. cbv iota.
  match goal with
  | |- snd (Agent.agentLoop _ _ _ (_ ++ _ ++ [?entry])%list) = _ =>
      apply (IH _ entry json)
  end.
  - intros E. apply (f_equal (@List.length _)) in E.
    rewrite !length_app in E. cbn in E. lia.
  - rewrite app_assoc. apply last_snoc.
  - reflexivity.
  - exact Hjson.
Qed.

Lemma demo_turn_never_aborts_witness :
  snd (Agent.handleUserInput "openai" "gpt-4" "search cats" [found_step; silent_step] [])
    <> Agent.Aborted
  /\ spoken (fst (Agent.handleUserInput "openai" "gpt-4" "search cats"
                    [found_step; silent_step] [])).
Proof.
  apply demo_turn_never_aborts.
  - repeat constructor; exists 0%Z, 0%nat; reflexivity.
  - constructor.
Defined.

(** X8.  In demo mode, when the user's text (trimmed, cut to 2000
    characters) mentions "search" and none of "interview", "next" and
    "continue", and every search comes back with a result whose text
    does too, the turn never leaves [while (true)]: the mock responder
    reads the tool result as if it were the user's input and asks for
    another search, however many iterations are run. *)
Theorem demo_search_turn_never_finishes
    (provider model text : string) (steps : list Agent.Step)
    (conversation : Agent.Conversation) :
  Forall searching_step steps ->
  keeps_searching (Js.take 2000 (Js.trim text)) = true ->
  snd (Agent.handleUserInput provider model text steps conversation) = Agent.Looping.
Proof.
  intros Hsteps Hk. unfold Agent.handleUserInput.
  destruct (Js.truthy (Js.trim text)) eqn:Ht; cbn [negb].
  - apply demo_search_loops
      with (e := Agent.mkEntryOf "user" (Some (Js.take 2000 (Js.trim text))) None None)
           (text := Js.take 2000 (Js.trim text));
      [exact Hsteps| | |reflexivity|exact Hk].
    + intros E. apply (f_equal (@List.length _)) in E. rewrite length_app in E. cbn in E. lia.
    + apply last_last.
  - exfalso. destruct (Js.trim text); [|discriminate Ht].
    vm_compute in Hk. discriminate Hk.
Qed.

Lemma demo_search_turn_never_finishes_witness :
  snd (Agent.handleUserInput "openai" "gpt-4" "search cats"
         [found_step; found_step; found_step] []) = Agent.Looping.
Proof.
  apply demo_search_turn_never_finishes.
  - repeat constructor; try (exists 0%Z, 0%nat; reflexivity);
      exists "Knowledge Base Search"; split; reflexivity.
  - vm_compute. reflexivity.
Defined.

(** *** The primality test of the sandbox *)

Lemma no_divisor_from_spec num i rounds :
  (Z.sqrt num < i + Z.of_nat rounds)%Z ->
  Server.no_divisor_from num i rounds = true
  <-> (forall d, i <= d <= Z.sqrt num -> num mod d <> 0)%Z.
Proof.
  revert i. induction rounds as [|rounds IH]; intros i Hr; cbn [Server.no_divisor_from].
  - split; [intros _ d Hd; lia | reflexivity].
  - destruct (i <=? Z.sqrt num)%Z eqn:Ei.
    + apply Z.leb_le in Ei.
      destruct (num mod i =? 0)%Z eqn:Em.
      * apply Z.eqb_eq in Em. split; [discriminate|].
        intros H. exfalso. apply (H i); [lia | exact Em].
      * apply Z.eqb_neq in Em. rewrite IH by lia. split.
        -- intros H d Hd. destruct (Z.eq_dec d i) as [->|Hne]; [exact Em|].
           apply H. lia.
        -- intros H d Hd. apply H. lia.
    + apply Z.leb_gt in Ei. split; [intros _ d Hd; lia | reflexivity].
Qed.

Lemma small_divisor num a :
  (1 < a < num)%Z -> (a | num)%Z ->
  exists d, (2 <= d <= Z.sqrt num)%Z /\ (d | num)%Z.
Proof.
  intros Ha [b Hb].
  assert (Hbpos : (1 < b)%Z) by nia.
  destruct (Z_le_gt_dec a b) as [Hab|Hab].
  - exists a. split; [|exists b; exact Hb].
    split; [lia|]. apply Z.sqrt_le_square; nia.
  - exists b. split; [|exists a; lia].
    split; [lia|]. apply Z.sqrt_le_square; nia.
Qed.

(** X9.  On a whole number up to 1,000,000 [demoFunctions.isPrime]
    answers with a boolean, and the boolean is [true] exactly when the
    number is prime. *)
Theorem isPrime_decides_primality (num : Z) :
  (num <= 1000000)%Z ->
  exists b, Server.isPrime num = Server.IsPrime b /\ (b = true <-> Z.prime num).
Proof.
  intros Hle. unfold Server.isPrime.
  destruct (1000000 <? num)%Z eqn:E1; [apply Z.ltb_lt in E1; lia|].
  destruct (num <? 2)%Z eqn:E2.
  - apply Z.ltb_lt in E2. exists false. split; [reflexivity|].
    split; [discriminate|]. intros [H _]. lia.
  - apply Z.ltb_ge in E2. eexists. split; [reflexivity|].
    rewrite no_divisor_from_spec
      by (rewrite Z2Nat.id by apply Z.sqrt_nonneg; lia).
    assert (Hs : (Z.sqrt num < num)%Z) by (apply Z.sqrt_lt_lin; lia).
    split.
    + intros H. split; [lia|]. intros n Hn Hdiv.
      destruct (small_divisor num n Hn Hdiv) as (d & Hd & Hdd).
      apply (H d Hd). apply Z.mod_divide; [lia | exact Hdd].
    + intros [_ H] d Hd Hm. apply (H d); [lia|].
      apply Z.mod_divide; [lia | exact Hm].
Qed.

Lemma isPrime_decides_primality_witness :
  exists b, Server.isPrime 97 = Server.IsPrime b /\ (b = true <-> Z.prime 97).
Proof. apply isPrime_decides_primality. lia. Defined.

(** ** The search tool of the browser *)

Lemma clamp_results_range n : (1 <= Agent.clamp_results n <= 10)%Z.
Proof. unfold Agent.clamp_results. lia. Qed.

Lemma clean_item_caps item :
  (String.length (title (Agent.clean_item item)) <= 150)%nat
  /\ (String.length (snippet (Agent.clean_item item)) <= 300)%nat.
Proof. unfold Agent.clean_item. cbn [title snippet]. split; apply take_length. Qed.

Lemma cleaned_tidy iso n result :
  (1 <= n <= 10)%Z -> tidy (Agent.cleanedResult iso n result).
Proof.
  intros Hn. unfold tidy, Agent.cleanedResult. cbn [results source]. split.
  - rewrite length_map, slice_prefix_length by lia. lia.
  - apply Forall_forall. intros x Hx. apply in_map_iff in Hx as (item & <- & _).
    destruct (clean_item_caps item). split; [assumption | now left].
Qed.

Lemma slice_length_le {A : Type} a b (l : list A) :
  (List.length (Js.slice a b l) <= List.length l)%nat.
Proof. unfold Js.slice. rewrite length_firstn, length_skipn. lia. Qed.

Lemma in_slice {A : Type} a b (l : list A) x : In x (Js.slice a b l) -> In x l.
Proof. unfold Js.slice. intros H. now apply in_firstn, in_skipn in H. Qed.

Lemma generic_lengths query :
  (String.length query <= 200)%nat ->
  Forall (fun x => (String.length (snippet x) <= 300)%nat
                   /\ (String.length (title x) <= 216)%nat)
         (Agent.genericResults query).
Proof.
  intros Hq. unfold Agent.genericResults.
  repeat (first [apply Forall_nil | apply Forall_cons]);
    cbn [title snippet]; rewrite !append_length; cbn [String.length]; lia.
Qed.

Lemma known_lengths :
  forallb (fun entry => within_caps (snd entry)) Agent.knowledgeResults = true.
Proof. vm_compute. reflexivity. Qed.

Lemma fallback_tidy iso query n :
  (String.length query <= 200)%nat ->
  tidy (Agent.getMinimalFallbackResults iso query n).
Proof.
  intros Hq. unfold Agent.getMinimalFallbackResults. cbv zeta.
  destruct (find _ _) as [[topic result]|] eqn:F.
  - apply find_some in F as [Hin _].
    pose proof known_lengths as Hk. rewrite forallb_forall in Hk.
    specialize (Hk _ Hin). cbn [snd] in Hk. unfold within_caps in Hk.
    apply andb_true_iff in Hk as [Ht Hs]. apply Nat.leb_le in Ht, Hs.
    unfold tidy. cbn [results source]. split.
    + pose proof (slice_length_le 0 (Some (Z.min n 5)) [result]) as Hl.
      cbn [List.length] in Hl. lia.
    + apply Forall_forall. intros x Hx. apply in_slice in Hx. destruct Hx as [<-|[]].
      split; [exact Hs | now left].
  - unfold tidy. cbn [results source]. split.
    + pose proof (slice_length_le 0 (Some (Z.min n 5)) (Agent.genericResults query)) as Hl.
      cbn [List.length Agent.genericResults] in Hl. lia.
    + apply Forall_forall. intros x Hx. apply in_slice in Hx.
      pose proof (generic_lengths query Hq) as Hg. rewrite Forall_forall in Hg.
      destruct (Hg x Hx). split; [assumption | right; now split].
Qed.

Lemma mark_cached_tidy r : tidy r -> tidy (mark_cached r).
Proof. destruct r. exact (fun H => H). Qed.

Lemma swept_tidy now cache :
  tidy_cache cache -> tidy_cache (Agent.cleanSearchCache now cache).
Proof.
  intros H kv Hin. apply H. unfold Agent.cleanSearchCache in Hin.
  apply sweep_incl in Hin. eapply drop_expired_incl; exact Hin.
Qed.

(** One call: the answer is tidy and the cache stays tidy. *)
Lemma browse_step query numResults w st :
  tidy_cache (Agent.searchCache st) ->
  tidy_answer (fst (Agent.googleSearch query numResults w st))
  /\ tidy_cache (Agent.searchCache (snd (Agent.googleSearch query numResults w st))).
Proof.
  intros Hinv. unfold Agent.googleSearch.
  destruct query as [raw|]; [|split; [exact I | exact Hinv]].
  destruct (Js.truthy raw); cbn [negb]; [|split; [exact I | exact Hinv]].
  cbv zeta.
  pose proof (swept_tidy (Agent.t_sweep w) _ Hinv) as Hswept.
  pose proof (clamp_results_range numResults) as Hn.
  destruct (lookup _ _ _ _) as [hit|] eqn:L.
  - cbn [fst snd Agent.searchCache]. split; [|exact Hswept].
    destruct (lookup_fresh _ _ _ _ _ L) as (e & Hin & -> & _).
    apply mark_cached_tidy. exact (Hswept _ Hin).
  - destruct (Agent.backend w _ _) as [result|]; cbn [fst snd Agent.searchCache].
    + split; [now apply cleaned_tidy|].
      destruct (cached result); [exact Hswept|].
      intros kv Hin. apply set_in in Hin as [->|Hin]; [|now apply Hswept].
      cbn [snd data]. now apply cleaned_tidy.
    + split; [|exact Hswept]. apply fallback_tidy, take_length.
Qed.

(** X10.  Whatever calls of [googleSearch] a page makes, and
    whatever the backend answers, every answer the tool returns has at
    most ten results, every snippet has at most 300 characters, and
    every title at most 150, or at most 216 in an answer whose source
    is "Minimal Fallback". *)
Theorem browser_answers_tidy
    (calls : list (option string * option Z * Agent.ToolWorld)) :
  Forall tidy_answer (fst (browse calls new_page)).
Proof.
  assert (H : forall st, tidy_cache (Agent.searchCache st) ->
                Forall tidy_answer (fst (browse calls st))).
  { induction calls as [|[[query numResults] w] later IH]; intros st Hinv; cbn [browse].
    - constructor.
    - destruct (browse_step query numResults w st Hinv) as [Ha Hc].
      destruct (Agent.googleSearch query numResults w st) as [answer st1].
      cbn [fst snd] in *. specialize (IH st1 Hc).
      destruct (browse later st1) as [answers st2]. cbn [fst] in *. now constructor. }
  apply H. intros kv [].
Qed.

(** With the backend out of reach nothing is stored. *)
Lemma offline_step query numResults w st :
  (forall q n, Agent.backend w q n = None) ->
  Agent.searchCache st = [] ->
  Agent.searchCache (snd (Agent.googleSearch query numResults w st)) = []
  /\ fallback_answer (fst (Agent.googleSearch query numResults w st)).
Proof.
  intros Hoff Hempty. unfold Agent.googleSearch.
  destruct query as [raw|]; [|split; [exact Hempty | exact I]].
  destruct (Js.truthy raw); cbn [negb]; [|split; [exact Hempty | exact I]].
  cbv zeta. rewrite Hempty.
  change (Agent.cleanSearchCache (Agent.t_sweep w) []) with (@nil (string * CacheEntry)).
  change (lookup Agent.cacheTTL (Agent.t_lookup w) _ []) with (@None SearchResponse).
  rewrite Hoff. cbn [fst snd Agent.searchCache]. split; [reflexivity|].
  unfold fallback_answer. split; [|eexists _, _, _; reflexivity].
  unfold Agent.getMinimalFallbackResults. cbv zeta.
  destruct (find _ _) as [[topic result]|]; reflexivity.
Qed.

(** X11.  As long as the backend is out of reach, the search tool
    of the browser stores nothing: after any number of calls on a new
    page the cache is empty, and every answer is one made by
    [getMinimalFallbackResults], without [cached: true]. *)
Theorem browser_offline_caches_nothing
    (calls : list (option string * option Z * Agent.ToolWorld)) :
  Forall offline calls ->
  Agent.searchCache (snd (browse calls new_page)) = []
  /\ Forall fallback_answer (fst (browse calls new_page)).
Proof.
  intros Hoff.
  assert (H : forall st, Agent.searchCache st = [] ->
                Agent.searchCache (snd (browse calls st)) = []
                /\ Forall fallback_answer (fst (browse calls st))).
  { induction Hoff as [|[[query numResults] w] later Hw Hlater IH];
      intros st Hempty; cbn [browse].
    - split; [exact Hempty | constructor].
    - destruct (offline_step query numResults w st Hw Hempty) as [Hc Ha].
      destruct (Agent.googleSearch query numResults w st) as [answer st1].
      cbn [fst snd] in *. specialize (IH st1 Hc).
      destruct (browse later st1) as [answers st2]. cbn [fst snd] in *.
      destruct IH as [IH1 IH2]. split; [exact IH1|]. constructor; assumption. }
  apply H. reflexivity.
Qed.

Lemma browser_offline_caches_nothing_witness :
  let calls := [(Some "cats", Some 3%Z, no_backend 0);
                (Some "cats", Some 3%Z, no_backend 2000)] in
  Agent.searchCache (snd (browse calls new_page)) = []
  /\ Forall fallback_answer (fst (browse calls new_page)).
Proof.
  apply browser_offline_caches_nothing.
  repeat constructor.
Defined.



(** ** The tool's own fallback results *)

Lemma prefix_includes a b s : prefix (a ++ b) s = true -> Js.includes s b = true.
Proof.
  revert s. induction a as [|c a IH]; intros s H.
  - cbn in H. destruct s; cbn [Js.includes]; rewrite H; reflexivity.
  - destruct s as [|c' s]; [discriminate H|].
    cbn [append prefix] in H. destruct (ascii_dec c c'); [|discriminate H].
    cbn [Js.includes]. rewrite (IH s H). apply orb_true_r.
Qed.

Lemma includes_suffix s a b :
  Js.includes s (a ++ b) = true -> Js.includes s b = true.
Proof.
  induction s as [|c s IH]; cbn [Js.includes]; intros H;
    apply orb_true_iff in H as [H|H].
  - now apply prefix_includes in H.
  - discriminate H.
  - now apply prefix_includes in H.
  - change (Js.includes (String c s) b) with (prefix b (String c s) || Js.includes s b).
    rewrite (IH H). apply orb_true_r.
Qed.

(** X13.  The knowledge base of [getMinimalFallbackResults] has an
    entry under the topic "openai", and no query ever gets it: the
    topics are tried in order, and a query that includes "openai"
    includes "ai", which comes first. *)
Theorem fallback_never_gives_openai_entry (iso query : string) (n : Z) :
  In ("openai", openai_entry) Agent.knowledgeResults
  /\ ~ In openai_entry (results (Agent.getMinimalFallbackResults iso query n)).
Proof.
  split; [cbn; tauto|].
  unfold Agent.getMinimalFallbackResults. cbv zeta.
  unfold Agent.knowledgeResults. cbn [find fst].
  destruct (Js.includes _ "ibm");
    [cbn [results]; intros H; apply in_slice in H; destruct H as [H|[]]; discriminate H|].
  destruct (Js.includes _ "ai") eqn:Eai;
    [cbn [results]; intros H; apply in_slice in H; destruct H as [H|[]]; discriminate H|].
  destruct (Js.includes _ "openai") eqn:Eopen.
  { apply (includes_suffix _ "open" "ai") in Eopen. congruence. }
  destruct (Js.includes _ "google");
    [cbn [results]; intros H; apply in_slice in H; destruct H as [H|[]]; discriminate H|].
  cbn [results]. intros H. apply in_slice in H.
  destruct H as [H|[H|[H|[]]]]; apply (f_equal displayLink) in H; discriminate H.
Qed.

(** ** The messages on the page *)

(** X14.  After [addMessage] the page lists at most 100 messages,
    whatever it listed before; the first five are the first five of
    the list with the new message appended, and the new message is the
    last one. *)
Theorem page_keeps_at_most_100_messages {A : Type} (element d : A) (messages : list A) :
  (List.length (Agent.addMessage element messages) <= 100)%nat
  /\ firstn 5 (Agent.addMessage element messages) = firstn 5 (messages ++ [element])%list
  /\ last (Agent.addMessage element messages) d = element.
Proof.
  unfold Agent.addMessage, Agent.cleanDOMMessages, Agent.maxDOMMessages.
  set (page := (messages ++ [element])%list).
  assert (Hlast : last page d = element) by apply last_last.
  destruct (100 <? List.length page)%nat eqn:E.
  - apply Nat.ltb_lt in E. cbv zeta. repeat split.
    + rewrite length_app, length_firstn, length_skipn. lia.
    + rewrite firstn_app, firstn_firstn, length_firstn.
      replace (5 - Nat.min 5 (List.length page))%nat with 0%nat by lia.
      replace (Nat.min 5 5) with 5%nat by reflexivity.
      cbn [firstn]. apply app_nil_r.
    + rewrite last_app_r.
      * rewrite last_skipn by lia. exact Hlast.
      * intros Hnil. apply (f_equal (@List.length A)) in Hnil.
        rewrite length_skipn in Hnil. cbn in Hnil. lia.
  - repeat split; [apply Nat.ltb_ge in E; exact E | exact Hlast].
Qed.

(** ** The search credentials *)

(** X15.  When the status line of the search credentials says
    "configured", the credentials the search tool sends (the trimmed
    texts of the two boxes) pass the test of [POST /api/search], which
    then tries Google with them. *)
Theorem configured_credentials_reach_google
    (keyBox engineBox query : string) (n : Z) :
  Agent.validateGoogleSearchKey keyBox engineBox = Agent.Configured ->
  Server.google_credentials (tool_request keyBox engineBox query n)
  = Some (Js.trim keyBox, Js.trim engineBox).
Proof.
  unfold Agent.validateGoogleSearchKey, Server.google_credentials, tool_request.
  cbv zeta. cbn [Server.googleSearchKey Server.searchEngineId].
  destruct (Js.truthy (Js.trim keyBox)); cbn [negb andb];
    [|destruct (negb _); discriminate].
  destruct (Js.truthy (Js.trim engineBox)); cbn [negb andb]; [|discriminate].
  destruct (negb (Js.startsWith _ _)); cbn [orb]; [discriminate|].
  destruct (String.length (Js.trim keyBox) =? 39)%nat eqn:E; cbn [negb]; [|discriminate].
  apply Nat.eqb_eq in E. rewrite E. intros _. reflexivity.
Qed.

Lemma configured_credentials_reach_google_witness :
  Server.google_credentials (tool_request shaped_key shaped_engine_id "cats" 3)
  = Some (Js.trim shaped_key, Js.trim shaped_engine_id).
Proof.
  apply configured_credentials_reach_google. vm_compute. reflexivity.
Defined.

(** ** The other two tools *)

Lemma take_all n s : (String.length s <= n)%nat -> Js.take n s = s.
Proof.
  unfold Js.take. revert s. induction n as [|n IH]; intros [|c s] H; cbn in *;
    try reflexivity; try lia.
  f_equal. apply IH. lia.
Qed.

Lemma take_nonempty n s : s <> "" -> Js.take (S n) s <> "".
Proof. destruct s; [congruence | discriminate]. Qed.

Lemma browser_cap_below_server_cap : (5000 <= 10000)%nat.
Proof. apply Nat.leb_le. vm_compute. reflexivity. Qed.

(** X16.  The code [executeJavaScript] sends has at most 5000
    characters and the cut of [POST /api/execute] leaves it as it is;
    the data [aiPipe] sends has at most 1000 characters and the cut of
    [POST /api/ai-pipe] leaves it as it is. *)
Theorem tool_inputs_pass_server_caps (code data : string) :
  ((String.length (Agent.limit_code code) <= 5000)%nat
   /\ Server.capped_code (Agent.limit_code code) = Agent.limit_code code)
  /\ ((String.length (Agent.limit_data data) <= 1000)%nat
      /\ Js.take 5000 (Agent.limit_data data) = Agent.limit_data data).
Proof.
  assert (Hc : (String.length (Agent.limit_code code) <= 5000)%nat).
  { unfold Agent.limit_code. destruct (5000 <? String.length code)%nat eqn:E.
    - apply take_length.
    - now apply Nat.ltb_ge in E. }
  assert (Hd : (String.length (Agent.limit_data data) <= 1000)%nat)
    by apply take_length.
  repeat split; [exact Hc| |exact Hd|].
  - unfold Server.capped_code.
    destruct (10000 <? _)%nat eqn:E; [|reflexivity].
    apply Nat.ltb_lt in E. pose proof browser_cap_below_server_cap as Hcap.
    exfalso. apply (Nat.lt_irrefl 10000).
    eapply Nat.lt_le_trans; [exact E|]. etransitivity; [exact Hc | exact Hcap].
  - apply take_all. lia.
Qed.

Lemma pipe_result_nonempty draw workflow data :
  Server.generateAIPipeResult draw workflow data <> "".
Proof.
  unfold Server.generateAIPipeResult. cbv zeta.
  repeat match goal with
         | |- context [if ?b then _ else _] => destruct b
         end; discriminate.
Qed.

(** X17.  For a workflow and a data text that are not empty,
    [POST /api/ai-pipe] answers what the [aiPipe] tool sends with
    status 200: the body repeats the workflow, gives back the data as
    sent as [input], has a result that is not empty and the status
    "completed". *)
Theorem pipe_answers_what_the_tool_sent
    (draw : nat) (iso workflow data : string) :
  workflow <> "" -> data <> "" ->
  exists body,
    Server.ai_pipe draw iso (Some workflow) (Some (Agent.limit_data data))
    = Server.PipeSent 200 body
    /\ Server.pipe_workflow body = workflow
    /\ Server.pipe_input body = Agent.limit_data data
    /\ Server.pipe_result body <> ""
    /\ Server.pipe_status body = "completed".
Proof.
  intros Hw Hd. unfold Server.ai_pipe.
  assert (Tw : Js.truthy workflow = true).
  { unfold Js.truthy. apply negb_true_iff. now apply String.eqb_neq. }
  assert (Td : Js.truthy (Agent.limit_data data) = true).
  { unfold Js.truthy. apply negb_true_iff, String.eqb_neq.
    now apply take_nonempty. }
  rewrite Tw, Td. cbn [negb orb]. cbv zeta.
  destruct (tool_inputs_pass_server_caps "" data) as (_ & _ & ->).
  eexists. split; [reflexivity|]. cbn [Server.pipe_workflow Server.pipe_input
    Server.pipe_result Server.pipe_status].
  repeat split. apply pipe_result_nonempty.
Qed.

Lemma pipe_answers_what_the_tool_sent_witness :
  exists body,
    Server.ai_pipe 7 "2025-01-01T00:00:00.000Z" (Some "sentiment")
                   (Some (Agent.limit_data "a great day"))
    = Server.PipeSent 200 body
    /\ Server.pipe_workflow body = "sentiment"
    /\ Server.pipe_input body = Agent.limit_data "a great day"
    /\ Server.pipe_result body <> ""
    /\ Server.pipe_status body = "completed".
Proof.
  apply pipe_answers_what_the_tool_sent; discriminate.
Defined.

(** ** The keywords of [POST /api/ai-pipe] *)

Lemma distinct_from_spec seen xs x :
  In x (Server.distinct_from seen xs) -> In x xs /\ ~ In x seen.
Proof.
  revert seen. induction xs as [|y xs IH]; intros seen; cbn [Server.distinct_from];
    [contradiction|].
  destruct (existsb (String.eqb y) seen) eqn:E.
  - intros H. apply IH in H. split; [right|]; tauto.
  - intros [<-|H].
    + split; [now left|]. intros Hin.
      assert (existsb (String.eqb y) seen = true); [|congruence].
      apply existsb_exists. exists y. split; [exact Hin | apply String.eqb_refl].
    + apply IH in H. split; [right; tauto|]. intros Hin. apply (proj2 H). now right.
Qed.

Lemma distinct_from_nodup seen xs : NoDup (Server.distinct_from seen xs).
Proof.
  revert seen. induction xs as [|y xs IH]; intros seen; cbn [Server.distinct_from];
    [constructor|].
  destruct (existsb (String.eqb y) seen); [apply IH|].
  constructor; [|apply IH].
  intros H. apply distinct_from_spec in H. apply (proj2 H). now left.
Qed.

Lemma distinct_from_length seen xs :
  (List.length (Server.distinct_from seen xs) <= List.length xs)%nat.
Proof.
  revert seen. induction xs as [|y xs IH]; intros seen; cbn [Server.distinct_from];
    [apply Nat.le_refl|].
  destruct (existsb (String.eqb y) seen); cbn [List.length];
    [specialize (IH seen) | specialize (IH (y :: seen))]; lia.
Qed.

(** X18.  The keywords of the [extract_keywords] workflow are at
    most ten, no keyword is listed twice, and each is one of the
    white-space separated words of the data and longer than three
    characters. *)
Theorem keywords_distinct_and_long (data : string) :
  NoDup (Server.keywords data)
  /\ (List.length (Server.keywords data) <= 10)%nat
  /\ Forall (fun word => In word (Server.split_spaces data)
                         /\ (3 < String.length word)%nat)
            (Server.keywords data).
Proof.
  unfold Server.keywords. cbv zeta. unfold Server.distinct. repeat split.
  - apply distinct_from_nodup.
  - etransitivity; [apply distinct_from_length|].
    rewrite slice_prefix_length by lia. lia.
  - apply Forall_forall. intros word H.
    apply distinct_from_spec in H as [H _]. apply in_slice in H.
    apply filter_In in H as [Hin Hlen]. apply Nat.ltb_lt in Hlen. now split.
Qed.

(** ** A blank query, from the tool to the server *)

Lemma in_get_some k e m : In (k, e) m -> JsMap.get k m <> None.
Proof.
  induction m as [|[k' v] m IH]; cbn; [contradiction|].
  intros [H|H].
  - injection H as -> ->. rewrite String.eqb_refl. discriminate.
  - destruct (k =? k'); [discriminate | auto].
Qed.

Lemma lookup_absent max ttl t1 t2 k m :
  JsMap.get k m = None -> lookup ttl t2 k (sweep max ttl t1 m) = None.
Proof.
  intros H. unfold lookup.
  destruct (JsMap.get k (sweep max ttl t1 m)) as [e|] eqn:G; [|reflexivity].
  apply get_in, sweep_incl, drop_expired_incl, in_get_some in G. contradiction.
Qed.

Lemma server_rejects_empty_query keyBox engineBox sw cache n :
  via_server keyBox engineBox sw cache "" n = None.
Proof. reflexivity. Qed.

(** X19.  A query of white space only, given to [googleSearch]
    while its cache has nothing under the query's key and the backend
    is [POST /api/search]: the tool sends the trimmed, empty query, the
    server rejects it, and the tool answers with its generic results
    for the empty query, source "Minimal Fallback", titles
    " - Wikipedia", " - Google Search" and " - Latest News"; nothing
    is stored. *)
Theorem blank_query_through_tool
    (raw keyBox engineBox : string) (numResults : option Z)
    (w : Agent.ToolWorld) (st : Agent.SearchState)
    (sw : Server.SearchWorld) (cache : JsMap.t) :
  blank raw = true -> raw <> "" ->
  Agent.backend w = via_server keyBox engineBox sw cache ->
  JsMap.get (tool_key raw numResults) (Agent.searchCache st) = None ->
  let answer :=
    Agent.getMinimalFallbackResults (Agent.iso_now w) ""
                                    (Agent.clamp_results numResults) in
  Agent.googleSearch (Some raw) numResults w st
  = (Some answer,
     Agent.mkSearchState (Agent.cleanSearchCache (Agent.t_sweep w) (Agent.searchCache st))
                         (Agent.t_resume w))
  /\ source answer = "Minimal Fallback"
  /\ Forall (fun x => In (title x) [" - Wikipedia"; " - Google Search"; " - Latest News"])
            (results answer).
Proof.
  intros Hb Hne Hw Hget answer. split; [|split].
  - unfold Agent.googleSearch. rewrite (truthy_nonempty _ Hne). cbn [negb]. cbv zeta.
    fold (tool_key raw numResults).
    unfold Agent.cleanSearchCache at 1.
    rewrite (lookup_absent _ _ _ _ _ _ Hget).
    rewrite (trim_blank _ Hb), take_empty, Hw, server_rejects_empty_query.
    reflexivity.
  - reflexivity.
  - unfold answer, Agent.getMinimalFallbackResults. cbv zeta.
    change (find _ Agent.knowledgeResults) with (@None (string * SearchResult)).
    cbn [results]. apply Forall_forall. intros x Hx. apply in_slice in Hx.
    destruct Hx as [<-|[<-|[<-|[]]]]; cbn; tauto.
Qed.

Lemma blank_query_through_tool_witness :
  let answer :=
    Agent.getMinimalFallbackResults "2025-01-01T00:00:00.000Z" ""
                                    (Agent.clamp_results (Some 3%Z)) in
  Agent.googleSearch (Some "   ") (Some 3%Z) (served 5000) new_page
  = (Some answer,
     Agent.mkSearchState (Agent.cleanSearchCache 5000 []) 5000)
  /\ source answer = "Minimal Fallback"
  /\ Forall (fun x => In (title x) [" - Wikipedia"; " - Google Search"; " - Latest News"])
            (results answer).
Proof.
  apply (blank_query_through_tool "   " "" "" (Some 3%Z) (served 5000) new_page
           (at_time 5000) []).
  - reflexivity.
  - discriminate.
  - reflexivity.
  - reflexivity.
Defined.

(** ** What [callLLM()] sends and what the server keeps of it *)

(** X21.  [callLLM] sends at most 20 messages, the last of them
    the last entry of the conversation, and the limit of
    [POST /api/llm] on the number of messages leaves them as they
    are. *)
Theorem sent_messages_pass_server_limit {A : Type} (conversation : list A) (d : A) :
  (List.length (Agent.sent_messages conversation) <= 20)%nat
  /\ Server.limit_conversation (Agent.sent_messages conversation)
     = Agent.sent_messages conversation
  /\ last (Agent.sent_messages conversation) d = last conversation d.
Proof.
  assert (Hlen : (List.length (Agent.sent_messages conversation) <= 20)%nat).
  { unfold Agent.sent_messages, Js.slice. cbv zeta.
    rewrite length_firstn, length_skipn.
    replace (-20 <? 0)%Z with true by reflexivity. lia. }
  split; [exact Hlen|]. split.
  - unfold Server.limit_conversation.
    destruct (50 <? _)%nat eqn:E; [apply Nat.ltb_lt in E; lia | reflexivity].
  - unfold Agent.sent_messages.
    destruct (Nat.le_gt_cases (List.length conversation) 20) as [H|H].
    + unfold Js.slice. cbv zeta. replace (-20 <? 0)%Z with true by reflexivity.
      rewrite Z.max_r by lia. cbn [Z.to_nat skipn].
      rewrite firstn_all2 by lia. reflexivity.
    + rewrite (slice_suffix 20) by lia.
      apply last_skipn. lia.
Qed.

(** ** The status line of the API key and the server's test *)

(** X22.  The status line of the API key says "configured" exactly
    when the key [callLLM] sends (the trimmed text of the box) passes
    the test at the head of [callAIPipe]. *)
Theorem aipipe_key_status_matches_server (keyBox : string) :
  Agent.validateApiKeyInput keyBox = Agent.KeyConfigured
  <-> Server.key_accepted "aipipe" (Js.trim keyBox) = Some true.
Proof.
  unfold Agent.validateApiKeyInput. cbv zeta.
  change (Server.key_accepted "aipipe" (Js.trim keyBox))
    with (Some (10 <=? String.length (Js.trim keyBox))%nat).
  destruct (Js.trim keyBox) as [|c s] eqn:E.
  - cbn. split; discriminate.
  - change (Js.truthy (String c s)) with true. cbn [negb].
    destruct (String.length (String c s) <? 10)%nat eqn:L.
    + apply Nat.ltb_lt in L. split; [discriminate|].
      intros H.
      assert (H' : (10 <=? String.length (String c s))%nat = true) by congruence.
      apply Nat.leb_le in H'. lia.
    + apply Nat.ltb_ge in L. split; [|reflexivity].
      intros _. f_equal. now apply Nat.leb_le.
Qed.

(** ** How a turn ends *)

(** X24.  When [agentLoop] comes to its [break], the last entry of
    the conversation is the assistant's answer of an iteration without
    tool calls, stored without a [tool_calls] field; what precedes it
    is at least as long as the conversation at the start, unless the
    cleanup interval fired during the turn. *)
Theorem finished_turn_ends_with_answer
    (provider model : string) (steps : list Agent.Step)
    (conversation : Agent.Conversation) :
  snd (Agent.agentLoop provider model steps conversation) = Agent.Finished ->
  exists earlier response,
    fst (Agent.agentLoop provider model steps conversation)
    = (earlier ++ [Agent.assistant_entry response false])%list
    /\ Agent.r_tool_calls response = []
    /\ (List.length conversation <= List.length earlier
        \/ Exists (fun s => Agent.timer s = true) steps)%nat.
Proof.
  revert conversation. induction steps as [|step later IH]; intros conversation;
    cbn [Agent.agentLoop]; [discriminate|].
  destruct (Agent.callLLM provider model (Agent.llm step) conversation) as [r|];
    [|discriminate].
  destruct (Agent.r_tool_calls r) as [|tc calls] eqn:Ecalls.
  - intros _. cbn [fst]. eexists _, r. split; [reflexivity|]. split; [exact Ecalls|].
    destruct (Agent.timer step) eqn:Et; [right; now constructor | left; lia].
  - destruct (Agent.all_tool_results _ _ _) as [toolResults|]; [|discriminate].
    intros H. destruct (IH _ H) as (earlier & response & -> & Hc & Hl).
    exists earlier, response. split; [reflexivity|]. split; [exact Hc|].
    destruct (Agent.timer step) eqn:Et; [right; now constructor|].
    destruct Hl as [Hl|Hl]; [left | right; now constructor].
    rewrite !length_app in Hl. lia.
Qed.

Lemma finished_turn_ends_with_answer_witness :
  exists earlier response,
    fst (Agent.agentLoop "openai" "gpt-4" [silent_step]
           [Agent.mkEntryOf "user" (Some "hello") None None])
    = (earlier ++ [Agent.assistant_entry response false])%list
    /\ Agent.r_tool_calls response = []
    /\ (List.length [Agent.mkEntryOf "user" (Some "hello") None None]
          <= List.length earlier
        \/ Exists (fun s => Agent.timer s = true) [silent_step])%nat.
Proof.
  apply finished_turn_ends_with_answer. vm_compute. reflexivity.
Defined.

Lemma aipipe_key_status_matches_server_witness :
  Agent.validateApiKeyInput " 0123456789 " = Agent.KeyConfigured
  <-> Server.key_accepted "aipipe" (Js.trim " 0123456789 ") = Some true.
Proof. apply aipipe_key_status_matches_server. Defined.
